(** * Fallback directory selection

    A shallow embedding of [scripts/maint/updateFallbackDirs.py] (Python 2)
    and the properties of its candidate pipeline.

    Conventions of the model:
    - Python [str] values are [string]s of 8-bit characters;
    - a raised exception is the [Raise] case of [result]; nothing in the
      script catches the exceptions modelled here, so a [Raise] that reaches
      [list_fallbacks] ends the run;
    - JSON integers are [Z]; a float is the rational number it stands
      for, a [Q]; the operations on floats that round in the uptime
      average ([math.pow], the products, [math.fsum], the quotients) are
      parameters of the model ([float_ops]), the bandwidth estimate and
      the target count are computed without rounding;
    - [datetime] values are microseconds since the epoch, [timedelta]s are
      microseconds; [datetime.strptime] and [datetime.utcnow] are inputs. *)

From Stdlib Require Import ZArith QArith Qminmax Bool List Ascii String Lia.
From Stdlib Require Import Sorting.Sorted Permutation.
From stdpp Require Import base gmap strings.
Import ListNotations.

Local Open Scope Z_scope.
Local Open Scope list_scope.

(** ** Exceptions *)

Inductive exn : Type :=
| KeyError (key : string)
| ValueError (what : string)
| AttributeError (what : string)
| UnboundLocalError (name : string)
| ZeroDivisionError
| Exception (msg : string).

Inductive result (A : Type) : Type :=
| Ok (a : A)
| Raise (e : exn).
Arguments Ok {A} a.
Arguments Raise {A} e.

#[global] Instance result_ret : MRet result := fun A a => Ok a.

#[global] Instance result_bind : MBind result := fun A B k m =>
  match m with
  | Ok a => k a
  | Raise e => Raise e
  end.

(** ** Python string primitives *)

Module PyStr.

Definition code (c : ascii) : N := N_of_ascii c.

Definition in_range (lo hi : ascii) (c : ascii) : bool :=
  (code lo <=? code c)%N && (code c <=? code hi)%N.

Definition is_digit (c : ascii) : bool := in_range "0" "9" c.

(** [string.whitespace] of the C locale. *)
Definition is_space (c : ascii) : bool :=
  (code c =? 32)%N || ((9 <=? code c)%N && (code c <=? 13)%N).

Fixpoint all (p : ascii -> bool) (s : string) : bool :=
  match s with
  | EmptyString => true
  | String a s' => p a && all p s'
  end.

(** [sub in s] *)
Fixpoint contains (sub s : string) : bool :=
  String.prefix sub s ||
  match s with
  | EmptyString => false
  | String _ s' => contains sub s'
  end.

(** [s.count(sub)] for a non-empty [sub]: occurrences are counted from the
    left and do not overlap; [skip] characters of the last occurrence are
    still to be passed over. *)
Fixpoint count_from (sub : string) (skip : nat) (s : string) : nat :=
  match s with
  | EmptyString => 0%nat
  | String _ s' =>
      match skip with
      | S k => count_from sub k s'
      | O =>
          if String.prefix sub s
          then S (count_from sub (String.length sub - 1) s')
          else count_from sub 0 s'
      end
  end.

Definition count (sub s : string) : nat := count_from sub 0 s.

(** [s.split(sep)] for a one-character separator. *)
Fixpoint split (sep : ascii) (s : string) : list string :=
  match s with
  | EmptyString => [EmptyString]
  | String a s' =>
      if Ascii.eqb a sep then EmptyString :: split sep s'
      else match split sep s' with
           | h :: t => String a h :: t
           | [] => [String a EmptyString]
           end
  end.

(** [s.split(sep, n)]: at most [n] cuts, from the left. *)
Fixpoint split_max (sep : ascii) (n : nat) (s : string) {struct s}
  : list string :=
  match s with
  | EmptyString => [EmptyString]
  | String a s' =>
      match n with
      | O => [s]
      | S n' =>
          if Ascii.eqb a sep then EmptyString :: split_max sep n' s'
          else match split_max sep n s' with
               | h :: t => String a h :: t
               | [] => [String a EmptyString]
               end
      end
  end.

Fixpoint cut_last (sep : ascii) (s : string) : option (string * string) :=
  match s with
  | EmptyString => None
  | String a s' =>
      match cut_last sep s' with
      | Some (l, r) => Some (String a l, r)
      | None => if Ascii.eqb a sep then Some (EmptyString, s') else None
      end
  end.

(** [s.rsplit(sep, 1)]: one cut, at the last separator. *)
Definition rsplit1 (sep : ascii) (s : string) : list string :=
  match cut_last sep s with
  | Some (l, r) => [l; r]
  | None => [s]
  end.

(** [(a, b) = parts] *)
Definition unpack2 (parts : list string) : result (string * string) :=
  match parts with
  | [a; b] => Ok (a, b)
  | _ => Raise (ValueError "unpack")
  end.

(** [s[1:-1]] *)
Definition slice_1_m1 (s : string) : string :=
  String.substring 1 (String.length s - 2) s.

(** [s.isdigit()] *)
Definition isdigit (s : string) : bool :=
  match s with
  | EmptyString => false
  | _ => all is_digit s
  end.

Fixpoint digits_value (acc : Z) (s : string) : Z :=
  match s with
  | EmptyString => acc
  | String a s' => digits_value (10 * acc + (Z.of_N (code a) - 48)) s'
  end.

Fixpoint lstrip (s : string) : string :=
  match s with
  | String a s' => if is_space a then lstrip s' else s
  | EmptyString => EmptyString
  end.

Fixpoint rstrip (s : string) : string :=
  match s with
  | EmptyString => EmptyString
  | String a s' =>
      match rstrip s' with
      | EmptyString => if is_space a then EmptyString else String a EmptyString
      | t => String a t
      end
  end.

Definition strip (s : string) : string := lstrip (rstrip s).

(** [int(s)] on a string: optional blanks around an optional sign and at
    least one decimal digit; anything else raises [ValueError]. *)
Definition int (s : string) : result Z :=
  let t := strip s in
  let '(neg, body) :=
    match t with
    | String "-"%char r => (true, r)
    | String "+"%char r => (false, r)
    | _ => (false, t)
    end in
  if isdigit body
  then Ok (if neg then - digits_value 0 body else digits_value 0 body)
  else Raise (ValueError "int").

(** [sorted] and [list.sort] are stable; so is insertion from the right. *)
Fixpoint insert_by {A : Type} (le : A -> A -> bool) (x : A) (l : list A)
  : list A :=
  match l with
  | [] => [x]
  | y :: l' => if le x y then x :: l else y :: insert_by le x l'
  end.

Fixpoint sorted_by {A : Type} (le : A -> A -> bool) (l : list A) : list A :=
  match l with
  | [] => []
  | x :: l' => insert_by le x (sorted_by le l')
  end.

Definition sorted (l : list string) : list string :=
  sorted_by String.leb l.

End PyStr.

(** ** Address literals: [Candidate.is_valid_ipv4_address] and
       [Candidate.is_valid_ipv6_address] *)

Fixpoint ipv4_entries (entries : list string) : bool :=
  match entries with
  | [] => true
  | entry :: rest =>
      if negb (PyStr.isdigit entry)
         || (PyStr.digits_value 0 entry <? 0)
         || (PyStr.digits_value 0 entry >? 255)
      then false
      else if (match entry with
               | String a _ => Ascii.eqb a "0"
               | EmptyString => false
               end) && (1 <? String.length entry)%nat
      then false
      else ipv4_entries rest
  end.

Definition is_valid_ipv4_address (address : string) : bool :=
  if negb (PyStr.count "." address =? 3)%nat then false
  else ipv4_entries (PyStr.split "." address).

(** The character class [[0-9a-fA-f]] of the source's pattern: its last
    range runs from [A] to lower-case [f]. *)
Definition group_class (c : ascii) : bool :=
  PyStr.in_range "0" "9" c || PyStr.in_range "a" "f" c
  || PyStr.in_range "A" "f" c.

(** [s.endswith(c)] for one character. *)
Fixpoint ends_with (c : ascii) (s : string) : bool :=
  match s with
  | EmptyString => false
  | String a EmptyString => Ascii.eqb a c
  | String _ s' => ends_with c s'
  end.

Fixpoint drop_last (s : string) : string :=
  match s with
  | EmptyString => EmptyString
  | String _ EmptyString => EmptyString
  | String a s' => String a (drop_last s')
  end.

(** [re.match("^[0-9a-fA-f]{0,4}$", entry)]: at most four characters of the
    class, up to the end of the string or up to a final newline (where [$]
    also matches). *)
Definition re_match_group (entry : string) : bool :=
  let body := if ends_with "010" entry then drop_last entry else entry in
  (String.length body <=? 4)%nat && PyStr.all group_class body.

(** The loop over [address.split(":")], with its flag. *)
Fixpoint ipv6_entries (found_ipv4_on_previous_entry : bool)
  (entries : list string) : bool :=
  match entries with
  | [] => true
  | entry :: rest =>
      if found_ipv4_on_previous_entry then false
      else if negb (re_match_group entry) then
        if negb (is_valid_ipv4_address entry) then false
        else ipv6_entries true rest
      else ipv6_entries found_ipv4_on_previous_entry rest
  end.

Definition is_valid_ipv6_address (address0 : string) : bool :=
  let address := PyStr.slice_1_m1 address0 in
  let colon_count := PyStr.count ":" address in
  if (7 <? colon_count)%nat then false
  else if negb (colon_count =? 7)%nat && negb (PyStr.contains "::" address)
  then false
  else if (1 <? PyStr.count "::" address)%nat || PyStr.contains ":::" address
  then false
  else ipv6_entries false (PyStr.split ":" address).

(** ** Python values compared with [==]

    Only the cases the script meets: two strings, two integers, or a string
    against an integer, which Python 2 answers with [False]. *)

Inductive pyval : Type :=
| PyStr (s : string)
| PyInt (z : Z)
| PyNone.

Definition py_eq (a b : pyval) : bool :=
  match a, b with
  | PyStr s, PyStr t => String.eqb s t
  | PyInt x, PyInt y => (x =? y)
  | PyNone, PyNone => true
  | _, _ => false
  end.

(** ** Top-level configuration *)

Record Config : Type := {
  PERFORM_IPV4_DIRPORT_CHECKS : bool;
  PERFORM_IPV6_DIRPORT_CHECKS : bool;
  INCLUDE_UNLISTED_ENTRIES : bool;
  BLACKLIST_EXCLUDES_WHITELIST_ENTRIES : bool;
  ADDRESS_AND_PORT_STABLE_DAYS : Z;
  CUTOFF_RUNNING : Q;
  CUTOFF_V2DIR : Q;
  CUTOFF_GUARD : Q;
  PERMITTED_BADEXIT : Q;
  AGE_ALPHA : Q;
  ONIONOO_SCALE_ONE : Q;
  FALLBACK_PROPORTION_OF_GUARDS : option Q;
  MAX_FALLBACK_COUNT : option nat;
  MIN_FALLBACK_COUNT : nat;
  EXIT_BANDWIDTH_FRACTION : Q;
  MIN_BANDWIDTH : option Q;
  CONSENSUS_DOWNLOAD_RETRY : bool
}.

(** The values of the source, where [OUTPUT_CANDIDATES = False]. *)
Definition default_config : Config := {|
  PERFORM_IPV4_DIRPORT_CHECKS := true;
  PERFORM_IPV6_DIRPORT_CHECKS := false;
  INCLUDE_UNLISTED_ENTRIES := false;
  BLACKLIST_EXCLUDES_WHITELIST_ENTRIES := true;
  ADDRESS_AND_PORT_STABLE_DAYS := 7;
  CUTOFF_RUNNING := 95 # 100;
  CUTOFF_V2DIR := 95 # 100;
  CUTOFF_GUARD := 95 # 100;
  PERMITTED_BADEXIT := 0;
  AGE_ALPHA := 99 # 100;
  ONIONOO_SCALE_ONE := 999;
  FALLBACK_PROPORTION_OF_GUARDS := Some (2 # 10);
  MAX_FALLBACK_COUNT := Some 100%nat;
  MIN_FALLBACK_COUNT := 100%nat;
  EXIT_BANDWIDTH_FRACTION := 1;
  MIN_BANDWIDTH := Some (3145728 # 1);
  CONSENSUS_DOWNLOAD_RETRY := true
|}.

(** ** Documents of the metadata source *)

(** One raw relay of the details document; [None] is an absent key (for
    [flags] and [advertised_bandwidth] also a JSON null, which the
    constructor treats alike). *)
Module Details.
Record t : Type := {
  fingerprint : option string;
  nickname : option string;
  last_changed_address_or_port : option string;
  consensus_weight : option Z;
  or_addresses : option (list string);
  dir_address : option string;
  contact : option string;
  flags : option (list string);
  advertised_bandwidth : option Z;
  recommended_version : option bool
}.
End Details.

(** One period of a flag history. *)
Record bucket : Type := {
  count : Z;
  first : string;
  interval : Z;
  last : string;
  values : list (option Z)
}.

(** A flag history: the periods in the iteration order of the dict. *)
Definition history : Type := list (string * bucket).

Module Uptime.
Record t : Type := {
  fingerprint : option string;
  flags : option (gmap string history)
}.
End Uptime.

(** ** The candidate *)

(** [Candidate._data]: the details dict after the constructor has filled
    in the defaults, parsed the timestamp and stabilised the addresses. *)
Module Data.
Record t : Type := {
  fingerprint : string;
  nickname : string;
  last_changed_address_or_port : Z;
  consensus_weight : Z;
  or_addresses : list string;
  or_addresses_raw : list string;
  dir_address : string;
  contact : option string;
  flags : list string;
  advertised_bandwidth : Z;
  recommended_version : option bool;
  measured_bandwidth : option Q
}.
End Data.

(** An attribute that may not have been assigned yet. *)
Inductive attr (A : Type) : Type :=
| Unset
| Set_ (a : A).
Arguments Unset {A}.
Arguments Set_ {A} a.

Record Candidate : Type := {
  _data : Data.t;
  _fpr : string;
  _running : Q;
  _guard : Q;
  _v2dir : Q;
  _badexit : attr (option Q);
  dirip : string;
  dirport : Z;
  orport : Z;
  ipv6addr : option string;
  ipv6orport : option string
}.

Definition in_list (x : string) (l : list string) : bool :=
  existsb (String.eqb x) l.

(** [Candidate._stable_sort_or_addresses], on the address list. *)
Definition _stable_sort_or_addresses (addresses : list string) : list string :=
  let or_address_primary := firstn 1 addresses in
  let or_addresses_secondaries_stable := PyStr.sorted (skipn 1 addresses) in
  or_address_primary ++ or_addresses_secondaries_stable.

(** [Candidate._split_dirport] *)
Definition _split_dirport (dir_address : string) : result (string * Z) :=
  '(dirip, _dirport) ← PyStr.unpack2 (PyStr.split_max ":" 2 dir_address);
  dirport ← PyStr.int _dirport;
  mret (dirip, dirport).

(** [Candidate._compute_orport]: the loop over the stabilised addresses. *)
Fixpoint _compute_orport (dirip : string) (addresses : list string)
  : result (option Z) :=
  match addresses with
  | [] => mret None
  | i :: rest =>
      '(ipaddr, port) ← PyStr.unpack2 (PyStr.rsplit1 ":" i);
      if String.eqb ipaddr dirip && is_valid_ipv4_address ipaddr
      then (p ← PyStr.int port; mret (Some p))
      else _compute_orport dirip rest
  end.

(** First loop of [Candidate._compute_ipv6addr]: [port], a string, is
    compared with [self.orport], an integer. *)
Fixpoint ipv6_same_port (orport : Z) (addresses : list string)
  : result (option (string * string)) :=
  match addresses with
  | [] => mret None
  | i :: rest =>
      '(ipaddr, port) ← PyStr.unpack2 (PyStr.rsplit1 ":" i);
      if py_eq (PyStr port) (PyInt orport) && is_valid_ipv6_address ipaddr
      then mret (Some (ipaddr, port))
      else ipv6_same_port orport rest
  end.

(** Second loop: the first valid IPv6 address. *)
Fixpoint ipv6_first (addresses : list string)
  : result (option (string * string)) :=
  match addresses with
  | [] => mret None
  | i :: rest =>
      '(ipaddr, port) ← PyStr.unpack2 (PyStr.rsplit1 ":" i);
      if is_valid_ipv6_address ipaddr
      then mret (Some (ipaddr, port))
      else ipv6_first rest
  end.

(** [Candidate._compute_ipv6addr]: [(ipv6addr, ipv6orport)], or [None]
    for both. *)
Definition _compute_ipv6addr (orport : Z) (addresses : list string)
  : result (option (string * string)) :=
  r ← ipv6_same_port orport addresses;
  match r with
  | Some found => mret (Some found)
  | None => ipv6_first addresses
  end.

(** ** Time *)

(** The fields of a normalised [timedelta] of [t] microseconds. *)
Definition timedelta_days (t : Z) : Z := t / 86400000000.
Definition timedelta_seconds (t : Z) : Z := (t mod 86400000000) / 1000000.
Definition timedelta_microseconds (t : Z) : Z := t mod 1000000.

(** [(t.microseconds + (t.seconds + t.days * 24 * 3600) * 10**6) / 10**6],
    an integer division. *)
Definition whole_seconds (t : Z) : Z :=
  (timedelta_microseconds t
   + (timedelta_seconds t + timedelta_days t * 24 * 3600) * 10 ^ 6) / 10 ^ 6.

(** ** History samples *)

Module Sample.
Record t : Type := {
  age : Z;
  length : Z;
  value : option Z
}.
End Sample.

Record walk_state : Type := {
  this_ts : Z;
  newest : Z;
  generic_history : list Sample.t
}.

Definition Qltb (a b : Q) : bool := negb (Qle_bool b a).

(** ** Floats

    A Python float is an IEEE 754 double: a rational number.  Comparing
    two floats is exact; what rounds are the operations.  Those of
    [_avg_generic_history] and [add_uptime] are taken as parameters. *)
Record float_ops : Type := {
  (** [math.pow(x, n)] for a float [x] and an int [n] *)
  math_pow : Q -> Z -> Q;
  (** [x * y], an int operand converted first *)
  float_mul : Q -> Q -> Q;
  (** [math.fsum(l)] *)
  math_fsum : list Q -> Q;
  (** [x / y] for [y] other than zero *)
  float_div : Q -> Q -> Q
}.

(** The operations on doubles, to evaluate the examples: each returns
    the double nearest to the exact result, ties to even.  That is what
    IEEE 754 asks of the product and the quotient and what [math.fsum]
    returns; the C library's [pow] promises it only to within one unit
    in the last place (the examples raise to the power 0, where [pow]
    returns 1.0).  Overflow and subnormal numbers are left out. *)
Definition round_half_even (n d : Z) : Z :=
  let q := n / d in
  let r := n mod d in
  if 2 * r <? d then q
  else if d <? 2 * r then q + 1
  else if Z.even q then q else q + 1.

(** The double nearest to [x]: [m * 2^e] with [2^52 <= m <= 2^53]. *)
Definition round_to_double (x : Q) : Q :=
  let n := Qnum x in
  let d := Z.pos (Qden x) in
  if n =? 0 then 0%Q
  else
    let a := Z.abs n in
    let e0 := Z.log2 a - Z.log2 d in
    let e0 := if a * 2 ^ Z.max 0 (- e0) <? d * 2 ^ Z.max 0 e0
              then e0 - 1 else e0 in
    let e := e0 - 52 in
    let m := round_half_even (a * 2 ^ Z.max 0 (- e)) (d * 2 ^ Z.max 0 e) in
    Qred (Qmake (Z.sgn n * m * 2 ^ Z.max 0 e)
            (Z.to_pos (2 ^ Z.max 0 (- e)))).

Definition binary64 : float_ops := {|
  math_pow x n := round_to_double (Qpower (round_to_double x) n);
  float_mul x y := round_to_double (x * y);
  math_fsum l := round_to_double (fold_right Qplus 0%Q l);
  float_div x y := round_to_double (x / y)
|}.

Section Script.

(** [parse_ts] (a [strptime] call) and the configuration in force. *)
Variable parse_ts : string -> result Z.
Variable cfg : Config.
(** The arithmetic of floats. *)
Variable fp : float_ops.
(** [datetime.utcnow()] when the class [Candidate] is created. *)
Variable class_created : Z.

Definition CUTOFF_ADDRESS_AND_PORT_STABLE : Z :=
  class_created - ADDRESS_AND_PORT_STABLE_DAYS cfg * 86400000000.

Definition require {A : Type} (field : string) (o : option A) : result A :=
  match o with
  | Some a => mret a
  | None => Raise (Exception ("Document has no " +:+ field +:+ " field."))
  end.

(** [Candidate.__init__] *)
Definition Candidate_init (details : Details.t) : result Candidate :=
  fpr ← require "fingerprint" (Details.fingerprint details);
  nick ← require "nickname" (Details.nickname details);
  changed ← require "last_changed_address_or_port"
              (Details.last_changed_address_or_port details);
  cw ← require "consensus_weight" (Details.consensus_weight details);
  addresses ← require "or_addresses" (Details.or_addresses details);
  dir ← require "dir_address" (Details.dir_address details);
  changed_ts ← parse_ts changed;
  let stable := _stable_sort_or_addresses addresses in
  '(ip, port) ← _split_dirport dir;
  o ← _compute_orport ip stable;
  match o with
  | None => Raise (Exception ("Failed to get an orport for " +:+ fpr +:+ "."))
  | Some orp =>
      v6 ← _compute_ipv6addr orp stable;
      mret {|
        _data := {|
          Data.fingerprint := fpr;
          Data.nickname := nick;
          Data.last_changed_address_or_port := changed_ts;
          Data.consensus_weight := cw;
          Data.or_addresses := stable;
          Data.or_addresses_raw := addresses;
          Data.dir_address := dir;
          Data.contact := Details.contact details;
          Data.flags := default [] (Details.flags details);
          Data.advertised_bandwidth :=
            default 0 (Details.advertised_bandwidth details);
          Data.recommended_version := Details.recommended_version details;
          Data.measured_bandwidth := None |};
        _fpr := fpr;
        _running := 0;
        _guard := 0;
        _v2dir := 0;
        _badexit := Unset;
        dirip := ip;
        dirport := port;
        orport := orp;
        ipv6addr := fst <$> v6;
        ipv6orport := snd <$> v6 |}
  end.

(** *** [Candidate._extract_generic_history] *)

(** One turn of [for v in reversed(h['values'])]. *)
Definition visit_value (now interval : Z) (st : walk_state) (v : option Z)
  : walk_state :=
  let st' :=
    if this_ts st <=? newest st then
      {| this_ts := this_ts st;
         newest := this_ts st;
         generic_history :=
           generic_history st ++
           [ {| Sample.age := whole_seconds (now - this_ts st);
                Sample.length := whole_seconds interval;
                Sample.value := v |} ] |}
    else st in
  {| this_ts := this_ts st' - interval;
     newest := newest st';
     generic_history := generic_history st' |}.

Definition walk_values (now interval : Z) (vs : list (option Z))
  (st : walk_state) : walk_state :=
  fold_left (visit_value now interval) (rev vs) st.

(** One turn of [for p in periods]; the two consistency checks only log,
    but the second one parses [h['first']]. *)
Definition visit_period (now : Z) (st : Z * list Sample.t) (h : bucket)
  : result (Z * list Sample.t) :=
  let interval_td := interval h * 1000000 in
  ts ← parse_ts (last h);
  let st' := walk_values now interval_td (values h)
               {| this_ts := ts; newest := fst st;
                  generic_history := snd st |} in
  _ ← parse_ts (first h);
  mret (newest st', generic_history st').

Fixpoint walk_periods (now : Z) (periods : list (string * bucket))
  (st : Z * list Sample.t) : result (Z * list Sample.t) :=
  match periods with
  | [] => mret st
  | p :: rest =>
      st' ← visit_period now st (snd p);
      walk_periods now rest st'
  end.

(** [periods.sort(key = lambda x: history[x]['interval'])] *)
Definition sort_periods (h : history) : list (string * bucket) :=
  PyStr.sorted_by (fun a b => interval (snd a) <=? interval (snd b)) h.

Definition _extract_generic_history (now : Z) (h : history)
  : result (list Sample.t) :=
  st ← walk_periods now (sort_periods h) (now, []);
  mret (snd st).

(** *** [Candidate._avg_generic_history] *)

(** One turn of [for i in generic_history]: the pair appended to [a],
    if any. *)
Definition weighted (i : Sample.t) : list (Q * Q) :=
  if Sample.age i >? ADDRESS_AND_PORT_STABLE_DAYS cfg * 24 * 3600 then []
  else match Sample.value i with
       | Some v =>
           let w := float_mul fp (inject_Z (Sample.length i))
                      (math_pow fp (AGE_ALPHA cfg)
                         (Sample.age i / (3600 * 24))) in
           [(float_mul fp (inject_Z v) w, w)]
       | None => []
       end.

Definition _avg_generic_history (generic_history : list Sample.t) : Q :=
  let a := flat_map weighted generic_history in
  let sv := math_fsum fp (map fst a) in
  let sw := math_fsum fp (map snd a) in
  if Qeq_bool sw 0 then 0%Q else float_div fp sv sw.

(** *** [Candidate.add_uptime] *)

(** The four clock readings of one call, one per extracted history. *)
Record clock : Type := {
  now_running : Z;
  now_guard : Z;
  now_v2dir : Z;
  now_badexit : Z
}.

Definition has_flag_histories (fl : gmap string history) : bool :=
  forallb (fun f => bool_decide (is_Some (fl !! f)))
    ["Running"; "Guard"; "V2Dir"].

Definition add_uptime (self : Candidate) (clk : clock) (uptime : Uptime.t)
  : result Candidate :=
  match Uptime.flags uptime with
  | None => mret self
  | Some fl =>
      if negb (has_flag_histories fl) then mret self
      else
        running ← _extract_generic_history (now_running clk)
                    (default [] (fl !! "Running"));
        guard ← _extract_generic_history (now_guard clk)
                  (default [] (fl !! "Guard"));
        v2dir ← _extract_generic_history (now_v2dir clk)
                  (default [] (fl !! "V2Dir"));
        badexit ← match fl !! "BadExit" with
                  | Some h =>
                      b ← _extract_generic_history (now_badexit clk) h;
                      mret (Some b)
                  | None => mret None
                  end;
        mret {|
          _data := _data self;
          _fpr := _fpr self;
          _running := float_div fp (_avg_generic_history running)
                        (ONIONOO_SCALE_ONE cfg);
          _guard := float_div fp (_avg_generic_history guard)
                      (ONIONOO_SCALE_ONE cfg);
          _v2dir := float_div fp (_avg_generic_history v2dir)
                      (ONIONOO_SCALE_ONE cfg);
          _badexit :=
            Set_ ((fun b => float_div fp (_avg_generic_history b)
                              (ONIONOO_SCALE_ONE cfg)) <$> badexit);
          dirip := dirip self;
          dirport := dirport self;
          orport := orport self;
          ipv6addr := ipv6addr self;
          ipv6orport := ipv6orport self |}
  end.

(** *** Flags and [Candidate.is_candidate] *)

Definition is_exit (self : Candidate) : bool :=
  in_list "Exit" (Data.flags (_data self)).
Definition is_guard (self : Candidate) : bool :=
  in_list "Guard" (Data.flags (_data self)).
Definition is_running (self : Candidate) : bool :=
  in_list "Running" (Data.flags (_data self)).

Definition is_candidate (self : Candidate) : result bool :=
  let must_be_running_now :=
    PERFORM_IPV4_DIRPORT_CHECKS cfg || PERFORM_IPV6_DIRPORT_CHECKS cfg in
  if must_be_running_now && negb (is_running self) then mret false
  else if Data.last_changed_address_or_port (_data self)
          >? CUTOFF_ADDRESS_AND_PORT_STABLE then mret false
  else if Qltb (_running self) (CUTOFF_RUNNING cfg) then mret false
  else if Qltb (_v2dir self) (CUTOFF_V2DIR cfg) then mret false
  else
    badexit ← match _badexit self with
              | Unset => Raise (AttributeError "_badexit")
              | Set_ b => mret b
              end;
    if match badexit with
       | Some b => Qltb (PERMITTED_BADEXIT cfg) b
       | None => false
       end then mret false
    else if negb (default false (Data.recommended_version (_data self)))
    then mret false
    else if Qltb (_guard self) (CUTOFF_GUARD cfg) then mret false
    else if Data.consensus_weight (_data self) <? 1 then mret false
    else mret true.

(** *** List entries and [Candidate.is_in_whitelist] *)

(** One line of a filter file: its key/value pairs, in the iteration
    order of the dict. *)
Definition entry : Type := list (string * string).

Fixpoint entry_get (k : string) (e : entry) : option string :=
  match e with
  | [] => None
  | (k', v) :: e' => if String.eqb k k' then Some v else entry_get k e'
  end.

Definition has_key (e : entry) (k : string) : bool :=
  match entry_get k e with Some _ => true | None => false end.

Definition getitem (e : entry) (k : string) : result string :=
  match entry_get k e with
  | Some v => mret v
  | None => Raise (KeyError k)
  end.

Definition has_ipv6 (self : Candidate) : bool :=
  match ipv6addr self, ipv6orport self with
  | Some _, Some _ => true
  | _, _ => false
  end.

(** [self.ipv6addr + ':' + self.ipv6orport] *)
Definition ipv6_of (self : Candidate) : string :=
  default "" (ipv6addr self) +:+ ":" +:+ default "" (ipv6orport self).

(** The loop of [is_in_whitelist]; [ipv6] is the local variable of that
    name, [None] while no turn of the loop has assigned it. *)
Fixpoint whitelist_loop (self : Candidate) (ipv6 : option string)
  (relaylist : list entry) : result bool :=
  match relaylist with
  | [] => mret false
  | e :: rest =>
      id ← getitem e "id";
      if negb (String.eqb id (_fpr self)) then whitelist_loop self ipv6 rest
      else
        ipv4 ← getitem e "ipv4";
        if negb (String.eqb ipv4 (dirip self))
        then whitelist_loop self ipv6 rest
        else
          edirport ← getitem e "dirport" ≫= PyStr.int;
          if negb (edirport =? dirport self)
          then whitelist_loop self ipv6 rest
          else
            eorport ← getitem e "orport" ≫= PyStr.int;
            if negb (eorport =? orport self)
            then whitelist_loop self ipv6 rest
            else if has_key e "ipv6" && has_ipv6 self then
              let ipv6' := ipv6_of self in
              eipv6 ← getitem e "ipv6";
              if negb (String.eqb eipv6 ipv6')
              then whitelist_loop self (Some ipv6') rest
              else mret true
            else if has_key e "ipv6" && negb (has_ipv6 self)
            then whitelist_loop self ipv6 rest
            else if negb (has_key e "ipv6") && has_ipv6 self then
              match ipv6 with
              | None => Raise (UnboundLocalError "ipv6")
              | Some _ => whitelist_loop self ipv6 rest
              end
            else mret true
  end.

Definition is_in_whitelist (self : Candidate) (relaylist : list entry)
  : result bool :=
  whitelist_loop self None relaylist.

(** *** [Candidate.is_in_blacklist] *)

(** The body of [for key in entry]: [true] where the source returns
    [True], [false] where it goes on to the next key. *)
Definition blacklist_key (self : Candidate) (e : entry)
  (key value : string) : result bool :=
  if String.eqb key "id" && String.eqb value (_fpr self) then mret true
  else
    by_ipv4 ←
      (if String.eqb key "ipv4" && String.eqb value (dirip self) then
         if has_key e "dirport" then
           p ← getitem e "dirport" ≫= PyStr.int;
           mret (p =? dirport self)
         else if has_key e "orport" then
           p ← getitem e "orport" ≫= PyStr.int;
           mret (p =? orport self)
         else mret true
       else mret false);
    if (by_ipv4 : bool) then mret true
    else if String.eqb key "ipv6" && has_ipv6 self then
      if String.eqb value (ipv6_of self) then
        if has_key e "dirport" then
          p ← getitem e "dirport" ≫= PyStr.int;
          mret (p =? dirport self)
        else mret true
      else mret false
    else mret false.

Fixpoint blacklist_keys (self : Candidate) (e : entry)
  (items : list (string * string)) : result bool :=
  match items with
  | [] => mret false
  | (key, value) :: rest =>
      hit ← blacklist_key self e key value;
      if (hit : bool) then mret true else blacklist_keys self e rest
  end.

Fixpoint is_in_blacklist (self : Candidate) (relaylist : list entry)
  : result bool :=
  match relaylist with
  | [] => mret false
  | e :: rest =>
      hit ← blacklist_keys self e e;
      if (hit : bool) then mret true else is_in_blacklist self rest
  end.

(** *** Bandwidth *)

(** [Candidate.cw_to_bw_factor]: a division of two integers. *)
Definition cw_to_bw_factor (self : Candidate) : result Z :=
  if Data.consensus_weight (_data self) =? 0 then Raise ZeroDivisionError
  else mret (Data.advertised_bandwidth (_data self)
             / Data.consensus_weight (_data self)).

(** [min(a, b)] *)
Definition py_min (a b : Q) : Q := if Qltb b a then b else a.

(** [Candidate.measured_bandwidth] *)
Definition measured_bandwidth (self : Candidate)
  (median_cw_to_bw_factor : Q) : Q :=
  let cw_to_bw :=
    if is_exit self
    then (median_cw_to_bw_factor * EXIT_BANDWIDTH_FRACTION cfg)%Q
    else median_cw_to_bw_factor in
  let measured := (inject_Z (Data.consensus_weight (_data self)) * cw_to_bw)%Q in
  if negb (Data.advertised_bandwidth (_data self) =? 0)
  then py_min measured (inject_Z (Data.advertised_bandwidth (_data self)))
  else measured.

Definition with_measured_bandwidth (d : Data.t) (bw : Q) : Data.t :=
  {| Data.fingerprint := Data.fingerprint d;
     Data.nickname := Data.nickname d;
     Data.last_changed_address_or_port := Data.last_changed_address_or_port d;
     Data.consensus_weight := Data.consensus_weight d;
     Data.or_addresses := Data.or_addresses d;
     Data.or_addresses_raw := Data.or_addresses_raw d;
     Data.dir_address := Data.dir_address d;
     Data.contact := Data.contact d;
     Data.flags := Data.flags d;
     Data.advertised_bandwidth := Data.advertised_bandwidth d;
     Data.recommended_version := Data.recommended_version d;
     Data.measured_bandwidth := Some bw |}.

(** [Candidate.set_measured_bandwidth] *)
Definition set_measured_bandwidth (self : Candidate)
  (median_cw_to_bw_factor : Q) : Candidate :=
  {| _data := with_measured_bandwidth (_data self)
                (measured_bandwidth self median_cw_to_bw_factor);
     _fpr := _fpr self;
     _running := _running self;
     _guard := _guard self;
     _v2dir := _v2dir self;
     _badexit := _badexit self;
     dirip := dirip self;
     dirport := dirport self;
     orport := orport self;
     ipv6addr := ipv6addr self;
     ipv6orport := ipv6orport self |}.

(** *** [CandidateList]: a dict from fingerprint to candidate, with the
    attribute [fallbacks] *)

Record CandidateList : Type := {
  relays : gmap string Candidate;
  fallbacks : list Candidate
}.

(** What the script uses as a subscript of the dict: a fingerprint, or
    (in the two sort keys) a candidate object.  [Candidate] defines
    neither [__eq__] nor [__hash__], so an object never equals a key. *)
Inductive key : Type :=
| KeyStr (s : string)
| KeyCandidate (c : Candidate).

(** [self[k]] *)
Definition CandidateList_getitem (self : CandidateList) (k : key)
  : result Candidate :=
  match k with
  | KeyStr s =>
      match relays self !! s with
      | Some c => mret c
      | None => Raise (KeyError s)
      end
  | KeyCandidate _ => Raise (KeyError "<Candidate object>")
  end.

Definition with_fallbacks (self : CandidateList) (fb : list Candidate)
  : CandidateList :=
  {| relays := relays self; fallbacks := fb |}.

(** [CandidateList._add_relay] *)
Definition _add_relay (self : CandidateList) (details : Details.t)
  : result CandidateList :=
  match Details.dir_address details with
  | None => mret self
  | Some _ =>
      c ← Candidate_init details;
      mret {| relays := <[_fpr c := c]> (relays self);
              fallbacks := fallbacks self |}
  end.

(** [for r in d['relays']: self._add_relay(r)] *)
Fixpoint _add_relays (self : CandidateList) (rs : list Details.t)
  : result CandidateList :=
  match rs with
  | [] => mret self
  | r :: rest => self' ← _add_relay self r; _add_relays self' rest
  end.

(** [CandidateList._add_details]; the fetched document is [None] when it
    has no [relays] key. *)
Definition _add_details (self : CandidateList)
  (d : option (list Details.t)) : result CandidateList :=
  match d with
  | None => Raise (Exception "No relays found in document.")
  | Some rs => _add_relays self rs
  end.

(** [CandidateList._add_uptime] *)
Definition _add_uptime (self : CandidateList) (clk : clock)
  (uptime : Uptime.t) : result CandidateList :=
  match Uptime.fingerprint uptime with
  | None => Raise (Exception "Document has no fingerprint field.")
  | Some fpr =>
      match relays self !! fpr with
      | None => mret self
      | Some c =>
          c' ← add_uptime c clk uptime;
          mret {| relays := <[fpr := c']> (relays self);
                  fallbacks := fallbacks self |}
      end
  end.

(** [CandidateList._add_uptimes]; each document comes with the clock
    readings taken while it is processed. *)
Fixpoint _add_uptime_docs (self : CandidateList)
  (rs : list (clock * Uptime.t)) : result CandidateList :=
  match rs with
  | [] => mret self
  | r :: rest =>
      self' ← _add_uptime self (fst r) (snd r);
      _add_uptime_docs self' rest
  end.

Definition _add_uptimes (self : CandidateList)
  (d : option (list (clock * Uptime.t))) : result CandidateList :=
  match d with
  | None => Raise (Exception "No relays found in document.")
  | Some rs => _add_uptime_docs self rs
  end.

(** [CandidateList.add_relays] *)
Definition add_relays (self : CandidateList)
  (details_doc : option (list Details.t))
  (uptime_doc : option (list (clock * Uptime.t))) : result CandidateList :=
  self' ← _add_details self details_doc;
  _add_uptimes self' uptime_doc.

(** [self.keys()], in the iteration order of the dict. *)
Definition keys (self : CandidateList) : list string :=
  (map_to_list (relays self)).*1.

(** [CandidateList.count_guards] *)
Definition count_guards (self : CandidateList) : nat :=
  List.length
    (List.filter (fun kc => is_guard (snd kc)) (map_to_list (relays self))).

Fixpoint filter_candidates (self : CandidateList) (ks : list string)
  : result (list string) :=
  match ks with
  | [] => mret []
  | x :: rest =>
      c ← CandidateList_getitem self (KeyStr x);
      keep ← is_candidate c;
      rest' ← filter_candidates self rest;
      mret (if (keep : bool) then x :: rest' else rest')
  end.

(** [CandidateList.compute_fallbacks] *)
Definition compute_fallbacks (self : CandidateList) : result CandidateList :=
  ks ← filter_candidates self (keys self);
  fb ← mapM (fun x => CandidateList_getitem self (KeyStr x)) ks;
  mret (with_fallbacks self fb).

(** A stable sort on keys computed beforehand, as [list.sort(key=...)]
    does; an exception of the key function leaves the sort. *)
Definition sort_by_key {K : Type} (le : K -> K -> bool)
  (key_of : Candidate -> result K) (l : list Candidate)
  : result (list Candidate) :=
  ks ← mapM key_of l;
  mret (PyStr.sorted_by (fun a b => le (fst a) (fst b)) (zip ks l)).*2.

(** [CandidateList.sort_fallbacks_by_cw_to_bw_factor]: the key is
    [self[x].cw_to_bw_factor()] with [x] a member of [self.fallbacks]. *)
Definition sort_fallbacks_by_cw_to_bw_factor (self : CandidateList)
  : result CandidateList :=
  fb ← sort_by_key Z.leb
         (fun x => CandidateList_getitem self (KeyCandidate x)
                     ≫= cw_to_bw_factor)
         (fallbacks self);
  mret (with_fallbacks self fb).

(** [CandidateList.sort_fallbacks_by_measured_bandwidth]: the key is
    [self[x].self._data['measured_bandwidth']], and a candidate has no
    attribute [self]. *)
Definition sort_fallbacks_by_measured_bandwidth (self : CandidateList)
  : result CandidateList :=
  fb ← sort_by_key (fun a b : Q => Qle_bool b a)
         (fun x => _ ← CandidateList_getitem self (KeyCandidate x);
                   Raise (AttributeError "self"))
         (fallbacks self);
  mret (with_fallbacks self fb).

(** [CandidateList.apply_filter_lists], on the two parsed filter files:
    the kept fallbacks and the number of excluded ones. *)
Fixpoint filter_lists (whitelist blacklist : list entry)
  (fb : list Candidate) : result (list Candidate * nat) :=
  match fb with
  | [] => mret ([], 0%nat)
  | f :: rest =>
      in_whitelist ← is_in_whitelist f whitelist;
      in_blacklist ← is_in_blacklist f blacklist;
      '(kept, excluded_count) ← filter_lists whitelist blacklist rest;
      let include :=
        if (in_whitelist : bool) && (in_blacklist : bool)
        then negb (BLACKLIST_EXCLUDES_WHITELIST_ENTRIES cfg)
        else if in_whitelist then true
        else if in_blacklist then false
        else INCLUDE_UNLISTED_ENTRIES cfg in
      mret (if include then (f :: kept, excluded_count)
            else (kept, S excluded_count))
  end.

Definition apply_filter_lists (self : CandidateList)
  (whitelist blacklist : list entry) : result (CandidateList * nat) :=
  '(kept, excluded_count) ← filter_lists whitelist blacklist
                              (fallbacks self);
  mret (with_fallbacks self kept, excluded_count).

(** [CandidateList.fallback_min] and [fallback_max] *)
Definition fallback_min (self : CandidateList) : option Candidate :=
  List.last (Some <$> fallbacks self) None.

Definition fallback_max (self : CandidateList) : option Candidate :=
  head (fallbacks self).

(** The [while] loop of [fallback_median], over
    [fallbacks[median_position:]]: it leaves with the first candidate
    whose advertised bandwidth is not zero, or with [None] past the end. *)
Fixpoint first_with_advertised_bandwidth (rest : list Candidate)
  : option Candidate :=
  match rest with
  | [] => None
  | c :: rest' =>
      if Data.advertised_bandwidth (_data c) =? 0
      then first_with_advertised_bandwidth rest'
      else Some c
  end.

(** [CandidateList.fallback_median] *)
Definition fallback_median (self : CandidateList)
  (require_advertised_bandwidth : bool) : option Candidate :=
  match fallbacks self with
  | [] => None
  | _ :: _ =>
      let median_position :=
        ((List.length (fallbacks self) - 1) / 2)%nat in
      if negb require_advertised_bandwidth
      then fallbacks self !! median_position
      else first_with_advertised_bandwidth
             (skipn median_position (fallbacks self))
  end.

(** [CandidateList.calculate_measured_bandwidth] *)
Definition calculate_measured_bandwidth (self : CandidateList)
  : result CandidateList :=
  self' ← sort_fallbacks_by_cw_to_bw_factor self;
  match fallback_median self' true with
  | None => Raise (AttributeError "cw_to_bw_factor")
  | Some median_fallback =>
      median_cw_to_bw_factor ← cw_to_bw_factor median_fallback;
      mret (with_fallbacks self'
              ((fun f => set_measured_bandwidth f
                           (inject_Z median_cw_to_bw_factor))
               <$> fallbacks self'))
  end.

Definition get_measured_bandwidth (f : Candidate) : result Q :=
  match Data.measured_bandwidth (_data f) with
  | Some bw => mret bw
  | None => Raise (KeyError "measured_bandwidth")
  end.

Fixpoint above_min_bw (min_bw : Q) (fb : list Candidate)
  : result (list Candidate) :=
  match fb with
  | [] => mret []
  | f :: rest =>
      bw ← get_measured_bandwidth f;
      rest' ← above_min_bw min_bw rest;
      mret (if Qle_bool min_bw bw then f :: rest' else rest')
  end.

(** [CandidateList.remove_low_bandwidth_relays] *)
Definition remove_low_bandwidth_relays (self : CandidateList)
  : result CandidateList :=
  match MIN_BANDWIDTH cfg with
  | None => mret self
  | Some min_bw =>
      fb ← above_min_bw min_bw (fallbacks self);
      mret (with_fallbacks self fb)
  end.

(** *** What the script prints

    The pieces of text, before formatting and escaping. *)
Inductive text : Type :=
| WhitelistBlacklistExcluded (excluded_count initial_count : nat)
| CheckedDirPorts (ipv4 ipv6 : bool)
| DidNotCheckDirPorts
| FinalCount (fallback_count eligible_count : nat)
    (target : option (nat * nat)) (clamped : option nat)
| ExcludedCount (n : Z)
| BandwidthRange (min_bw max_bw : Q)
| ErrorFallbackCountTooLow (fallback_count min_count : nat)
| NoFallbacksMetCriteria
| FetchSource (what : string)
| FallbackdirLine (c : Candidate) (dl_speed_ok : bool).

(** [CandidateList.summarise_fallbacks]: the parts of the string [s], in
    the order in which they are appended. *)
Definition summarise_fallbacks (self : CandidateList)
  (eligible_count guard_count target_count max_count : nat)
  : result (list text) :=
  let checked :=
    if PERFORM_IPV4_DIRPORT_CHECKS cfg || PERFORM_IPV6_DIRPORT_CHECKS cfg
    then CheckedDirPorts (PERFORM_IPV4_DIRPORT_CHECKS cfg)
           (PERFORM_IPV6_DIRPORT_CHECKS cfg)
    else DidNotCheckDirPorts in
  let fallback_count := List.length (fallbacks self) in
  let final :=
    FinalCount fallback_count eligible_count
      (match FALLBACK_PROPORTION_OF_GUARDS cfg with
       | None => None
       | Some _ => Some (target_count, guard_count)
       end)
      (MAX_FALLBACK_COUNT cfg) in
  let excluded :=
    if negb (eligible_count =? fallback_count)%nat
    then [ExcludedCount (Z.of_nat eligible_count - Z.of_nat fallback_count)]
    else [] in
  min_bw ← match fallback_min self with
           | Some min_fb => get_measured_bandwidth min_fb
           | None => Raise (AttributeError "_data")
           end;
  max_bw ← match fallback_max self with
           | Some max_fb => get_measured_bandwidth max_fb
           | None => Raise (AttributeError "_data")
           end;
  mret ([checked; final] ++ excluded ++ [BandwidthRange min_bw max_bw]
        ++ (if (fallback_count <? MIN_FALLBACK_COUNT cfg)%nat
            then [ErrorFallbackCountTooLow fallback_count
                    (MIN_FALLBACK_COUNT cfg)]
            else [])).

(** *** The download check

    [fallback_consensus_dl_speed] asks the network: its answer
    ([download_failed]) at the given address and port, for the first
    attempt ([0]) and for the retry ([1]). *)
Variable fallback_consensus_dl_speed : string -> Z -> nat -> bool.

(** [Candidate.fallback_consensus_dl_check] *)
Definition fallback_consensus_dl_check (self : Candidate) : bool :=
  let ipv4_failed :=
    if PERFORM_IPV4_DIRPORT_CHECKS cfg
    then fallback_consensus_dl_speed (dirip self) (dirport self) 0%nat
    else false in
  let ipv6_failed :=
    match ipv6addr self with
    | Some a =>
        if PERFORM_IPV6_DIRPORT_CHECKS cfg
        then fallback_consensus_dl_speed a (dirport self) 0%nat
        else false
    | None => false
    end in
  let ipv4_failed :=
    if PERFORM_IPV4_DIRPORT_CHECKS cfg && ipv4_failed
       && CONSENSUS_DOWNLOAD_RETRY cfg
    then fallback_consensus_dl_speed (dirip self) (dirport self) 1%nat
    else ipv4_failed in
  let ipv6_failed :=
    match ipv6addr self with
    | Some a =>
        if PERFORM_IPV6_DIRPORT_CHECKS cfg && ipv6_failed
           && CONSENSUS_DOWNLOAD_RETRY cfg
        then fallback_consensus_dl_speed a (dirport self) 1%nat
        else ipv6_failed
    | None => ipv6_failed
    end in
  negb ipv4_failed && negb ipv6_failed.

(** *** [list_fallbacks] *)

(** What a run leaves: the text printed so far, and whether it returned
    or raised. *)
Definition run : Type := (list text * result unit)%type.

(** The last loop of [list_fallbacks]: every fallback visited gets its
    line; the loop stops once [max_count] of them passed the check. *)
Fixpoint output_fallbacks (xs : list Candidate)
  (active_count max_count : nat) : list text :=
  match xs with
  | [] => []
  | x :: rest =>
      let dl_speed_ok := fallback_consensus_dl_check x in
      FallbackdirLine x dl_speed_ok ::
      (if dl_speed_ok then
         if (max_count <=? S active_count)%nat then []
         else output_fallbacks rest (S active_count) max_count
       else output_fallbacks rest active_count max_count)
  end.

(** [list_fallbacks] from the summary on, given the filtered and sorted
    candidates and the registered fetch sources. *)
Definition report (candidates : CandidateList) (sources : list string)
  (eligible_count guard_count target_count max_count : nat) : run :=
  match (if (0 <? List.length (fallbacks candidates))%nat
         then summarise_fallbacks candidates eligible_count guard_count
                target_count max_count
         else mret [NoFallbacksMetCriteria]) with
  | Raise e => ([], Raise e)
  | Ok summary =>
      (summary ++ (FetchSource <$> sources)
       ++ output_fallbacks (fallbacks candidates) 0 max_count,
       Ok ())
  end.

(** [int(x)] of a number: truncation towards zero. *)
Definition truncate (q : Q) : Z := Z.quot (Qnum q) (Z.pos (Qden q)).

Definition list_fallbacks
  (details_doc : option (list Details.t))
  (uptime_doc : option (list (clock * Uptime.t)))
  (whitelist blacklist : list entry) : run :=
  match add_relays {| relays := ∅; fallbacks := [] |}
          details_doc uptime_doc with
  | Raise e => ([], Raise e)
  | Ok candidates =>
      let guard_count := count_guards candidates in
      let target_count :=
        match FALLBACK_PROPORTION_OF_GUARDS cfg with
        | None => guard_count
        | Some p =>
            Z.to_nat (truncate (inject_Z (Z.of_nat guard_count) * p)%Q)
        end in
      let max_count :=
        match MAX_FALLBACK_COUNT cfg with
        | None => target_count
        | Some m => Nat.min target_count m
        end in
      match compute_fallbacks candidates with
      | Raise e => ([], Raise e)
      | Ok candidates =>
          let initial_count := List.length (fallbacks candidates) in
          match apply_filter_lists candidates whitelist blacklist with
          | Raise e => ([], Raise e)
          | Ok (candidates, excluded_count) =>
              let printed :=
                [WhitelistBlacklistExcluded excluded_count initial_count] in
              let eligible_count := List.length (fallbacks candidates) in
              match (c ← calculate_measured_bandwidth candidates;
                     c ← remove_low_bandwidth_relays c;
                     sort_fallbacks_by_measured_bandwidth c) with
              | Raise e => (printed, Raise e)
              | Ok candidates =>
                  let '(out, r) :=
                    report candidates ["details"; "uptime"] eligible_count
                      guard_count target_count max_count in
                  (printed ++ out, r)
              end
          end
      end
  end.

(** The fallbacks a run accepts: those printed with a passed check. *)
Definition accepted (out : list text) : list Candidate :=
  flat_map (fun t => match t with
                     | FallbackdirLine c true => [c]
                     | _ => []
                     end) out.

End Script.

(** ** The address validator in the words of the specification

    After removing bracket delimiters: at most 7 colons; exactly 7
    colon-separated groups or exactly one "::"; no "::::"; every group a
    possibly empty run of at most four hexadecimal digits, except that the
    final group may be an IPv4 literal. *)

Definition is_hex (c : ascii) : bool :=
  PyStr.in_range "0" "9" c || PyStr.in_range "a" "f" c
  || PyStr.in_range "A" "F" c.

Definition hex_group (g : string) : bool :=
  (String.length g <=? 4)%nat && PyStr.all is_hex g.

Definition remove_brackets (s : string) : string :=
  let s1 := match s with
            | String "["%char r => r
            | _ => s
            end in
  if ends_with "]" s1 then drop_last s1 else s1.

Definition spec_valid_ipv6 (s : string) : bool :=
  let a := remove_brackets s in
  let groups := PyStr.split ":" a in
  (PyStr.count ":" a <=? 7)%nat
  && ((List.length groups =? 7)%nat || (PyStr.count "::" a =? 1)%nat)
  && negb (PyStr.contains "::::" a)
  && forallb hex_group (removelast groups)
  && (hex_group (List.last groups EmptyString)
      || is_valid_ipv4_address (List.last groups EmptyString)).

(** The characters on which the pattern of the source and the
    hexadecimal digits disagree, and the newline its [$] tolerates. *)
Definition outside_hex_pattern (c : ascii) : bool :=
  PyStr.in_range "G" "`" c || Ascii.eqb c "010".

(** An uptime document that carries the three flag histories. *)
Definition complete_uptime (u : Uptime.t) : bool :=
  match Uptime.flags u with
  | Some fl => has_flag_histories fl
  | None => false
  end.

(** The estimate before the cap: consensus weight x median factor, x the
    exit fraction for a relay with the Exit flag. *)
Definition uncapped (cfg : Config) (c : Candidate) (median : Q) : Q :=
  (inject_Z (Data.consensus_weight (_data c)) * median
   * (if is_exit c then EXIT_BANDWIDTH_FRACTION cfg else 1))%Q.


(** ** Concrete inputs *)

(** A reading of "%Y-%m-%d %H:%M:%S" for timestamps written with all their
    digits, as the metadata source writes them; used where a property is
    evaluated on a concrete document. *)
Definition days_from_civil (y m d : Z) : Z :=
  let y' := if m <=? 2 then y - 1 else y in
  let era := y' / 400 in
  let yoe := y' - era * 400 in
  let doy := (153 * (if 2 <? m then m - 3 else m + 9) + 2) / 5 + d - 1 in
  let doe := yoe * 365 + yoe / 4 - yoe / 100 + doy in
  era * 146097 + doe - 719468.

Definition field (s : string) (from len : nat) : result Z :=
  let f := String.substring from len s in
  if (String.length f =? len)%nat && PyStr.isdigit f
  then Ok (PyStr.digits_value 0 f)
  else Raise (ValueError "time data does not match format").

Definition example_parse_ts (s : string) : result Z :=
  if negb (String.length s =? 19)%nat
     || negb (String.eqb (String.substring 4 1 s) "-")
     || negb (String.eqb (String.substring 7 1 s) "-")
     || negb (String.eqb (String.substring 10 1 s) " ")
     || negb (String.eqb (String.substring 13 1 s) ":")
     || negb (String.eqb (String.substring 16 1 s) ":")
  then Raise (ValueError "time data does not match format")
  else
    y ← field s 0 4; m ← field s 5 2; d ← field s 8 2;
    hh ← field s 11 2; mm ← field s 14 2; ss ← field s 17 2;
    if (1 <=? m) && (m <=? 12) && (1 <=? d) && (d <=? 31)
       && (hh <=? 23) && (mm <=? 59) && (ss <=? 61)
    then Ok ((days_from_civil y m d * 86400 + hh * 3600 + mm * 60 + ss)
             * 1000000)
    else Raise (ValueError "time data does not match format").

(** A details record with every field present. *)
Definition relay_details (fpr : string) (dir : string)
  (addresses : list string) (cw adv : Z) (fl : list string) : Details.t :=
  {| Details.fingerprint := Some fpr;
     Details.nickname := Some "relay";
     Details.last_changed_address_or_port := Some "2015-01-01 00:00:00";
     Details.consensus_weight := Some cw;
     Details.or_addresses := Some addresses;
     Details.dir_address := Some dir;
     Details.contact := None;
     Details.flags := Some fl;
     Details.advertised_bandwidth := Some adv;
     Details.recommended_version := Some true |}.

(** A relay with one IPv4 address. *)
Definition relay_v4 : Details.t :=
  relay_details "AAAA" "1.2.3.4:80" ["1.2.3.4:9001"] 1000 40000
    ["Running"; "Guard"; "V2Dir"].

(** A relay with two IPv6 addresses, the second one on its ORPort. *)
Definition relay_v6 : Details.t :=
  relay_details "BBBB" "1.2.3.4:80"
    ["1.2.3.4:9001"; "[::1]:9002"; "[::2]:9001"] 1000 0
    ["Running"; "Guard"; "V2Dir"; "Exit"].

(** The same relay without its nickname. *)
Definition relay_no_nickname : Details.t :=
  {| Details.fingerprint := Some "CCCC";
     Details.nickname := None;
     Details.last_changed_address_or_port := Some "2015-01-01 00:00:00";
     Details.consensus_weight := Some 1000;
     Details.or_addresses := Some ["1.2.3.4:9001"];
     Details.dir_address := Some "1.2.3.4:80";
     Details.contact := None;
     Details.flags := None;
     Details.advertised_bandwidth := None;
     Details.recommended_version := Some true |}.

(** A relay whose directory address is on none of its OR addresses. *)
Definition relay_no_orport : Details.t :=
  relay_details "DDDD" "5.6.7.8:80" ["1.2.3.4:9001"] 1000 40000 [].

(** The candidate the constructor builds, where it builds one. *)
Definition candidate_of (details : Details.t) : option Candidate :=
  match Candidate_init example_parse_ts details with
  | Ok c => Some c
  | Raise _ => None
  end.

Definition no_candidate : Candidate :=
  {| _data := {| Data.fingerprint := ""; Data.nickname := "";
                 Data.last_changed_address_or_port := 0;
                 Data.consensus_weight := 0; Data.or_addresses := [];
                 Data.or_addresses_raw := []; Data.dir_address := "";
                 Data.contact := None; Data.flags := [];
                 Data.advertised_bandwidth := 0;
                 Data.recommended_version := None;
                 Data.measured_bandwidth := None |};
     _fpr := ""; _running := 0; _guard := 0; _v2dir := 0;
     _badexit := Unset; dirip := ""; dirport := 0; orport := 0;
     ipv6addr := None; ipv6orport := None |}.

Definition candidate_v4 : Candidate :=
  Eval vm_compute in default no_candidate (candidate_of relay_v4).

Definition candidate_v6 : Candidate :=
  Eval vm_compute in default no_candidate (candidate_of relay_v6).

(** A blacklist line "1.2.3.4:8080 orport=9001". *)
Definition blacklist_line : entry :=
  [("ipv4", "1.2.3.4"); ("dirport", "8080"); ("orport", "9001")].

(** A whitelist line "1.2.3.4:80 orport=9001 id=BBBB", without ipv6. *)
Definition whitelist_line : entry :=
  [("ipv4", "1.2.3.4"); ("dirport", "80"); ("orport", "9001");
   ("id", "BBBB")].

(** A relay that serves no directory. *)
Definition relay_no_dir : Details.t :=
  {| Details.fingerprint := Some "EEEE";
     Details.nickname := Some "relay";
     Details.last_changed_address_or_port := Some "2015-01-01 00:00:00";
     Details.consensus_weight := Some 1000;
     Details.or_addresses := Some ["9.9.9.9:9001"];
     Details.dir_address := None;
     Details.contact := None;
     Details.flags := None;
     Details.advertised_bandwidth := None;
     Details.recommended_version := Some true |}.

Definition empty_list : CandidateList := {| relays := ∅; fallbacks := [] |}.

(** What a positive answer of the whitelist means: some line agrees with
    the relay on fingerprint, IPv4 address and both ports, and lists an
    IPv6 address exactly when the relay has one, the same one. *)
Definition whitelist_match (self : Candidate) (e : entry) : Prop :=
  entry_get "id" e = Some (_fpr self)
  /\ entry_get "ipv4" e = Some (dirip self)
  /\ (getitem e "dirport" ≫= PyStr.int) = Ok (dirport self)
  /\ (getitem e "orport" ≫= PyStr.int) = Ok (orport self)
  /\ has_key e "ipv6" = has_ipv6 self
  /\ (has_ipv6 self = true -> entry_get "ipv6" e = Some (ipv6_of self)).

(** The three fractions as the constructor leaves them. *)
Definition zero_fractions (c : Candidate) : Prop :=
  _running c = 0%Q /\ _guard c = 0%Q /\ _v2dir c = 0%Q.

(** Two periods of one flag, as in the comment of
    [_extract_generic_history]: a week by the hour and a month by four
    hours that ends inside the week. *)
Definition week : bucket :=
  {| count := 3; first := "2015-03-30 05:30:00"; interval := 3600;
     last := "2015-03-30 07:30:00"; values := [Some 999; Some 998; Some 997] |}.

Definition month : bucket :=
  {| count := 2; first := "2015-03-30 02:00:00"; interval := 14400;
     last := "2015-03-30 06:00:00"; values := [Some 500; Some 501] |}.

Definition flag_history : history := [("1_month", month); ("1_week", week)].

Definition noon : Z := 1427716800000000.

Definition at_noon : clock :=
  {| now_running := noon; now_guard := noon; now_v2dir := noon;
     now_badexit := noon |}.

(** An uptime document for relay AAAA without a Guard history, and a
    complete one for relay BBBB. *)
Definition uptime_incomplete : Uptime.t :=
  {| Uptime.fingerprint := Some "AAAA";
     Uptime.flags := Some {[ "Running" := flag_history;
                             "V2Dir" := flag_history ]} |}.

Definition uptime_complete : Uptime.t :=
  {| Uptime.fingerprint := Some "BBBB";
     Uptime.flags := Some {[ "Running" := flag_history;
                             "Guard" := flag_history;
                             "V2Dir" := flag_history ]} |}.


(** [r] is the answer [b], and no exception. *)
Definition answers (r : result bool) (b : bool) : bool :=
  match r with
  | Ok b' => Bool.eqb b' b
  | Raise _ => false
  end.
Definition ingested : CandidateList :=
  Eval vm_compute in
    match add_relays example_parse_ts default_config binary64
            empty_list
            (Some [relay_v4; relay_v6])
            (Some [(at_noon, uptime_incomplete); (at_noon, uptime_complete)])
    with
    | Ok cl => cl
    | Raise _ => empty_list
    end.

(** A complete uptime document for relay AAAA, and its whitelist line. *)
Definition uptime_v4 : Uptime.t :=
  {| Uptime.fingerprint := Some "AAAA";
     Uptime.flags := Some {[ "Running" := [("1_week", week)];
                             "Guard" := [("1_week", week)];
                             "V2Dir" := [("1_week", week)] ]} |}.

Definition whitelist_v4 : entry :=
  [("ipv4", "1.2.3.4"); ("dirport", "80"); ("orport", "9001");
   ("id", "AAAA")].

(** A network on which every download succeeds, and one on which every
    download fails. *)
Definition downloads_succeed : string -> Z -> nat -> bool :=
  fun _ _ _ => false.
Definition downloads_fail : string -> Z -> nat -> bool :=
  fun _ _ _ => true.

(** Relay AAAA once eligible, and once its bandwidth has been set. *)
Definition eligible_v4 : Candidate :=
  Eval vm_compute in
    default no_candidate
      (match add_relays example_parse_ts default_config binary64
               empty_list
               (Some [relay_v4]) (Some [(at_noon, uptime_v4)]) with
       | Ok cl => relays cl !! "AAAA"
       | Raise _ => None
       end).

Definition measured_v4 : Candidate :=
  Eval vm_compute in set_measured_bandwidth default_config eligible_v4 40.

Definition has_measured_bandwidth (f : Candidate) : Prop :=
  is_Some (Data.measured_bandwidth (_data f)).

(** ** Periods of a history, for the statements about extraction *)

(** The interval of a period as a [timedelta]. *)
Definition interval_td (b : bucket) : Z := interval b * 1000000.

(** The timestamp of the oldest value of a period whose last value is at
    [last_ts]: the walk goes back one interval per value. *)
Definition oldest_ts (b : bucket) (last_ts : Z) : Z :=
  last_ts - (Z.of_nat (List.length (values b)) - 1) * interval_td b.

(** The history without the period of a given name. *)
Definition without (name : string) (h : history) : history :=
  List.filter (fun p => negb (String.eqb (fst p) name)) h.

(** The time span of a period: from its oldest timestamp to its last
    one.  The span of [c] lies within the span of [f]. *)
Definition overlapped_by (c : bucket) (lc : Z) (f : bucket) (lf : Z)
  : Prop :=
  oldest_ts f lf <= oldest_ts c lc /\ lc <= lf.

(** *** What the extraction is to return

    The sample list in the words of the specification, to compare
    [_extract_generic_history] with: per period the values at or before
    the watermark, which moves back from period to period.

    The timestamps of the values of a period, most recent first, each
    with its value: the last timestamp, then one interval back per
    value. *)
Fixpoint stamps (ts interval : Z) (vs : list (option Z))
  : list (Z * option Z) :=
  match vs with
  | [] => []
  | v :: vs' => (ts, v) :: stamps (ts - interval) interval vs'
  end.

Definition stamped (last_ts : Z) (b : bucket) : list (Z * option Z) :=
  stamps last_ts (interval_td b) (rev (values b)).

(** The sample of a value at its timestamp. *)
Definition sample_at (now : Z) (b : bucket) (tv : Z * option Z)
  : Sample.t :=
  {| Sample.age := whole_seconds (now - fst tv);
     Sample.length := whole_seconds (interval_td b);
     Sample.value := snd tv |}.

(** With the watermark at [w], a period contributes the values whose
    timestamp is at or before [w], *)
Definition kept (now w last_ts : Z) (b : bucket) : list Sample.t :=
  map (sample_at now b)
    (List.filter (fun tv => fst tv <=? w) (stamped last_ts b)).

(** and leaves the watermark at its oldest timestamp if that is before
    [w]. *)
Definition moved (w last_ts : Z) (b : bucket) : Z :=
  match values b with
  | [] => w
  | _ :: _ => Z.min w (oldest_ts b last_ts)
  end.

(** The timestamp a string parses to. *)
Definition parsed (parse_ts : string -> result Z) (s : string) : Z :=
  match parse_ts s with
  | Ok t => t
  | Raise _ => 0
  end.

(** The samples of the periods in the order given, from the watermark
    [w] on. *)
Fixpoint expected (parse_ts : string -> result Z) (now w : Z)
  (periods : list (string * bucket)) : list Sample.t :=
  match periods with
  | [] => []
  | p :: rest =>
      let last_ts := parsed parse_ts (last (snd p)) in
      kept now w last_ts (snd p)
      ++ expected parse_ts now (moved w last_ts (snd p)) rest
  end.

(** A history whose timestamps parse and whose intervals are not
    negative. *)
Definition readable (parse_ts : string -> result Z) (h : history) : Prop :=
  Forall (fun p => 0 <= interval (snd p)
                   /\ (exists t, parse_ts (last (snd p)) = Ok t)
                   /\ (exists t, parse_ts (first (snd p)) = Ok t)) h.

(** A boolean order as a relation. *)
Definition holds {A : Type} (le : A -> A -> bool) (a b : A) : Prop :=
  le a b = true.

Definition by_interval (a b : string * bucket) : bool :=
  interval (snd a) <=? interval (snd b).

(** A month that the week above overlaps entirely. *)
Definition short_month : bucket :=
  {| count := 1; first := "2015-03-30 07:00:00"; interval := 14400;
     last := "2015-03-30 07:00:00"; values := [Some 500] |}.

Definition long_week : bucket :=
  {| count := 6; first := "2015-03-30 02:30:00"; interval := 3600;
     last := "2015-03-30 07:30:00";
     values := [Some 994; Some 995; Some 996; Some 997; Some 998; Some 999] |}.

(** A blacklist line "ipv6=[::1]:9002 dirport=8080". *)
Definition blacklist_line_v6 : entry :=
  [("ipv6", "[::1]:9002"); ("dirport", "8080")].

(** A month whose only timestamp is the oldest timestamp of the week of
    six values. *)
Definition edge_month : bucket :=
  {| count := 1; first := "2015-03-30 02:30:00"; interval := 14400;
     last := "2015-03-30 02:30:00"; values := [Some 500] |}.

(** ** Cleansing of text for the generated C file *)

(** [c in s] for a one-character string [c]. *)
Fixpoint char_in (c : ascii) (s : string) : bool :=
  match s with
  | EmptyString => false
  | String a s' => Ascii.eqb c a || char_in c s'
  end.

(** [s.replace(c, '')] *)
Fixpoint remove_char (c : ascii) (s : string) : string :=
  match s with
  | EmptyString => EmptyString
  | String a s' =>
      if Ascii.eqb a c then remove_char c s' else String a (remove_char c s')
  end.

(** [s.replace(c, ' ')] *)
Fixpoint blank_char (c : ascii) (s : string) : string :=
  match s with
  | EmptyString => EmptyString
  | String a s' =>
      String (if Ascii.eqb a c then " "%char else a) (blank_char c s')
  end.

(** [for c in chars: s = f(c, s)] *)
Fixpoint for_each_char (f : ascii -> string -> string) (chars : string)
  (s : string) : string :=
  match chars with
  | EmptyString => s
  | String c chars' => for_each_char f chars' (f c s)
  end.

(** [remove_bad_chars] *)
Definition remove_bad_chars (raw_string bad_char_list : string) : string :=
  for_each_char remove_char bad_char_list raw_string.

(** The constants of the module [string], in the C locale. *)
Definition ascii_letters : string :=
  "abcdefghijklmnopqrstuvwxyzABCDEFGHIJKLMNOPQRSTUVWXYZ".
Definition digits : string := "0123456789".
Definition punctuation : string :=
  String "!" (String "034" "#$%&'()*+,-./:;<=>?@[\]^_`{|}~").
Definition whitespace : string :=
  String "009" (String "010" (String "011" (String "012"
    (String "013" (String " " EmptyString))))).

Definition printable (c : ascii) : bool :=
  char_in c ascii_letters || char_in c digits || char_in c punctuation
  || char_in c whitespace.

(** [cleanse_unprintable] *)
Fixpoint cleanse_unprintable (raw_string : string) : string :=
  match raw_string with
  | EmptyString => EmptyString
  | String c s' =>
      if printable c then String c (cleanse_unprintable s')
      else cleanse_unprintable s'
  end.

(** [cleanse_whitespace] *)
Definition cleanse_whitespace (raw_string : string) : string :=
  for_each_char blank_char whitespace raw_string.

(** [cleanse_c_multiline_comment] *)
Definition cleanse_c_multiline_comment (raw_string : string) : string :=
  let cleansed_string := cleanse_whitespace raw_string in
  let cleansed_string := cleanse_unprintable cleansed_string in
  let bad_char_list := "*/" +:+ String "000" EmptyString in
  remove_bad_chars cleansed_string bad_char_list.

(** [cleanse_c_string] *)
Definition cleanse_c_string (raw_string : string) : string :=
  let cleansed_string := cleanse_whitespace raw_string in
  let cleansed_string := cleanse_unprintable cleansed_string in
  let bad_char_list :=
    String "034" EmptyString +:+ "\" +:+ String "000" EmptyString in
  remove_bad_chars cleansed_string bad_char_list.

(** The characters from the space to the tilde. *)
Definition visible (c : ascii) : bool := PyStr.in_range " " "~" c.

(** Character-wise operations, to state what the cleansing does. *)
Fixpoint str_map (f : ascii -> ascii) (s : string) : string :=
  match s with
  | EmptyString => EmptyString
  | String a s' => String (f a) (str_map f s')
  end.

Fixpoint str_filter (p : ascii -> bool) (s : string) : string :=
  match s with
  | EmptyString => EmptyString
  | String a s' => if p a then String a (str_filter p s') else str_filter p s'
  end.

(** What is left of a character in a C string, and in a C comment. *)
Definition safe_in_c_string (c : ascii) : bool :=
  visible c && negb (Ascii.eqb c "034") && negb (Ascii.eqb c "\").

Definition safe_in_c_comment (c : ascii) : bool :=
  visible c && negb (Ascii.eqb c "*") && negb (Ascii.eqb c "/").

(** ** Dotted quads *)

(** A string without the character [sep]. *)
Definition free_of (sep : ascii) (s : string) : bool :=
  PyStr.all (fun c => negb (Ascii.eqb c sep)) s.

(** One octet of a dotted quad: a decimal numeral of at most 255 without
    leading zero. *)
Definition octet (e : string) : bool :=
  PyStr.isdigit e
  && (PyStr.digits_value 0 e <=? 255)
  && (String.eqb e "0"
      || match e with
         | String a _ => negb (Ascii.eqb a "0")
         | EmptyString => false
         end).

(** ** Addresses with a port *)

(** The address [j] is [ip], a colon and a port: [ip] is what
    [j.rsplit(':', 1)] leaves in front. *)
Definition address_on (ip : string) (j : string) : Prop :=
  exists port, j = ip +:+ ":" +:+ port /\ free_of ":" port = true.

(** ** Samples and fractions *)

(** The sample comes from a period of the history: it has the interval of
    the period as its length and one of its values as its value. *)
Definition sample_of (h : history) (s : Sample.t) : Prop :=
  exists name b,
    In (name, b) h /\ Sample.length s = interval b
    /\ In (Sample.value s) (values b).

(** A sample that enters the average: not older than the stability
    window, and with a value. *)
Definition counted (cfg : Config) (i : Sample.t) : bool :=
  (Sample.age i <=? ADDRESS_AND_PORT_STABLE_DAYS cfg * 24 * 3600)
  && match Sample.value i with Some _ => true | None => false end.

(** The ages of a sample list rise from the first to the last and stay
    between 0 and [bound]. *)
Definition ages_within (bound : Z) (samples : list Sample.t) : Prop :=
  StronglySorted Z.le (map Sample.age samples)
  /\ Forall (fun i => 0 <= Sample.age i <= bound) samples.

(** What a relay that stays on the list owes to the two filter lists. *)
Definition kept_by_lists (cfg : Config) (whitelist blacklist : list entry)
  (f : Candidate) : Prop :=
  exists w b : bool,
    is_in_whitelist f whitelist = Ok w
    /\ is_in_blacklist f blacklist = Ok b
    /\ (if w then b = true -> BLACKLIST_EXCLUDES_WHITELIST_ENTRIES cfg = false
        else b = false /\ INCLUDE_UNLISTED_ENTRIES cfg = true).

(** What a positive answer of the blacklist means: some line has the
    fingerprint of the relay, or its IPv4 address with a matching DirPort,
    with a matching ORPort and no DirPort, or with no port at all, or its
    IPv6 address with a matching DirPort or none. *)
Definition blacklist_match (self : Candidate) (e : entry) : Prop :=
  In ("id", _fpr self) e
  \/ (In ("ipv4", dirip self) e
      /\ ((getitem e "dirport" ≫= PyStr.int) = Ok (dirport self)
          \/ (has_key e "dirport" = false
              /\ (getitem e "orport" ≫= PyStr.int) = Ok (orport self))
          \/ (has_key e "dirport" = false /\ has_key e "orport" = false)))
  \/ (has_ipv6 self = true
      /\ In ("ipv6", ipv6_of self) e
      /\ (has_key e "dirport" = false
          \/ (getitem e "dirport" ≫= PyStr.int) = Ok (dirport self))).

(** The relays of the printed lines, accepted or not. *)
Definition printed (out : list text) : list Candidate :=
  flat_map (fun t => match t with
                     | FallbackdirLine c _ => [c]
                     | _ => []
                     end) out.

(** Every relay of the dict sits under its own fingerprint. *)
Definition keyed_by_fingerprint (cl : CandidateList) : Prop :=
  forall k c, relays cl !! k = Some c -> _fpr c = k.

(** Two states of one relay that differ in the uptime fractions only. *)
Definition same_relay (c c' : Candidate) : Prop :=
  _data c' = _data c /\ _fpr c' = _fpr c
  /\ dirip c' = dirip c /\ dirport c' = dirport c /\ orport c' = orport c
  /\ ipv6addr c' = ipv6addr c /\ ipv6orport c' = ipv6orport c.

(** The dict after the two documents of relay AAAA have been read. *)
Definition detailed_v4 : CandidateList :=
  Eval vm_compute in
    match _add_details example_parse_ts empty_list (Some [relay_v4]) with
    | Ok cl => cl
    | Raise _ => empty_list
    end.

Definition ingested_v4 : CandidateList :=
  Eval vm_compute in
    match add_relays example_parse_ts default_config binary64
            empty_list
            (Some [relay_v4]) (Some [(at_noon, uptime_v4)]) with
    | Ok cl => cl
    | Raise _ => empty_list
    end.

(** *** [CandidateList.load_relaylist]

    The function reads a file and parses it; the model starts from what
    [read_from_file] returned.  An entry keeps its pairs in the order of
    their first assignment, which a Python dict does not promise: the
    statements about parsed entries read them through [entry_get]. *)

(** [relay_entry[k] = v] *)
Fixpoint entry_set (k v : string) (e : entry) : entry :=
  match e with
  | [] => [(k, v)]
  | (k', v') :: e' =>
      if String.eqb k k' then (k, v) :: e' else (k', v') :: entry_set k v e'
  end.

(** The two [#error] lines the parser prints, by the item they quote. *)
Inductive complaint : Type :=
| BadItem (item : string)
| BadIPv4Item (item : string).

(** One turn of [for item in line.split(' ')]. *)
Definition parse_item (st : entry * list complaint) (item : string)
  : entry * list complaint :=
  let '(relay_entry, complaints) := st in
  let item := PyStr.strip item in
  if (String.length item =? 0)%nat then st
  else
    let key_value_split := PyStr.split "=" item in
    let kvl := List.length key_value_split in
    let complaints :=
      if (kvl <? 1)%nat || (2 <? kvl)%nat
      then complaints ++ [BadItem item] else complaints in
    match key_value_split with
    | [ipv4_maybe_dirport] =>
        let ipv4_maybe_dirport_split := PyStr.split ":" ipv4_maybe_dirport in
        let dirl := List.length ipv4_maybe_dirport_split in
        let complaints :=
          if (dirl <? 1)%nat || (2 <? dirl)%nat
          then complaints ++ [BadIPv4Item item] else complaints in
        let relay_entry :=
          match ipv4_maybe_dirport_split with
          | ipv4 :: _ => entry_set "ipv4" ipv4 relay_entry
          | [] => relay_entry
          end in
        let relay_entry :=
          match ipv4_maybe_dirport_split with
          | [_; port] => entry_set "dirport" port relay_entry
          | _ => relay_entry
          end in
        (relay_entry, complaints)
    | [k; v] => (entry_set k v relay_entry, complaints)
    | _ => (relay_entry, complaints)
    end.

(** One turn of [for line in file_data.split('\n')]. *)
Definition parse_line (st : list entry * list complaint) (line : string)
  : list entry * list complaint :=
  let '(relaylist, complaints) := st in
  let line := hd EmptyString (PyStr.split "#" line) in
  let line := cleanse_whitespace line in
  let line := PyStr.strip line in
  if (String.length line =? 0)%nat then st
  else
    let '(relay_entry, complaints) :=
      fold_left parse_item (PyStr.split " " line) ([], complaints) in
    (relaylist ++ [relay_entry], complaints).

Definition load_relaylist (file_data : option string)
  : list entry * list complaint :=
  match file_data with
  | None => ([], [])
  | Some file_data =>
      fold_left parse_line (PyStr.split "010" file_data) ([], [])
  end.

(** A token of a list file: not empty, without blanks and without the
    characters the parser cuts at. *)
Definition plain_char (c : ascii) : bool :=
  negb (PyStr.is_space c) && negb (Ascii.eqb c "#")
  && negb (Ascii.eqb c "=") && negb (Ascii.eqb c ":").

Definition plain (s : string) : bool :=
  negb (String.eqb s EmptyString) && PyStr.all plain_char s.

(** A line of a list file for a relay without IPv6 address. *)
Definition relaylist_line (ip dp op fpr : string) : string :=
  (ip +:+ ":" +:+ dp) +:+ " " +:+ ("orport=" +:+ op) +:+ " "
  +:+ ("id=" +:+ fpr).
(** * Properties *)

(** ** Address literals *)

Example ipv4_ok : is_valid_ipv4_address "1.2.3.4" = true.
Proof. reflexivity. Qed.
Example ipv4_range : is_valid_ipv4_address "1.2.3.256" = false.
Proof. reflexivity. Qed.
Example ipv4_leading_zero : is_valid_ipv4_address "1.2.3.001" = false.
Proof. reflexivity. Qed.
Example ipv6_full : is_valid_ipv6_address "[1:2:3:4:5:6:7:8]" = true.
Proof. reflexivity. Qed.
Example ipv6_loopback : is_valid_ipv6_address "[::1]" = true.
Proof. reflexivity. Qed.
Example ipv6_mapped : is_valid_ipv6_address "[::ffff:1.2.3.4]" = true.
Proof. reflexivity. Qed.
Example ipv6_three_colons : is_valid_ipv6_address "[:::]" = false.
Proof. reflexivity. Qed.
Example ipv6_of_ipv4 : is_valid_ipv6_address "1.2.3.4" = false.
Proof. reflexivity. Qed.

(** ** Bandwidth estimate *)

Lemma Qltb_true (a b : Q) : Qltb a b = true <-> (a < b)%Q.
Proof.
  unfold Qltb. rewrite negb_true_iff. split.
  - intros H. apply Qnot_le_lt. intros Hle.
    apply Qle_bool_iff in Hle. congruence.
  - intros H. destruct (Qle_bool b a) eqn:E; [|reflexivity].
    apply Qle_bool_iff in E. exfalso. exact (Qlt_not_le _ _ H E).
Qed.

Lemma Qltb_false (a b : Q) : Qltb a b = false <-> (b <= a)%Q.
Proof.
  unfold Qltb. rewrite negb_false_iff. apply Qle_bool_iff.
Qed.

Lemma py_min_Qmin (a b : Q) : (py_min a b == Qmin a b)%Q.
Proof.
  unfold py_min. destruct (Qltb b a) eqn:E.
  - apply Qltb_true in E. symmetry. apply Q.min_r. apply Qlt_le_weak, E.
  - apply Qltb_false in E. symmetry. apply Q.min_l. exact E.
Qed.

Section Bandwidth.

Variable cfg : Config.

Lemma measured_uncapped (c : Candidate) (median : Q) :
  ((inject_Z (Data.consensus_weight (_data c))
    * (if is_exit c then median * EXIT_BANDWIDTH_FRACTION cfg else median))
   == uncapped cfg c median)%Q.
Proof. unfold uncapped. destruct (is_exit c); ring. Qed.

(** C9: with a nonzero advertised bandwidth the estimate is
    [min (consensus weight x median factor x exit fraction) advertised],
    hence at most the advertised bandwidth; with a zero advertised
    bandwidth it is the uncapped product. *)
Theorem C9_measured_bandwidth_capped (c : Candidate) (median : Q) :
  (Data.advertised_bandwidth (_data c) <> 0 ->
   (measured_bandwidth cfg c median
    == Qmin (uncapped cfg c median)
         (inject_Z (Data.advertised_bandwidth (_data c))))%Q
   /\ (measured_bandwidth cfg c median
       <= inject_Z (Data.advertised_bandwidth (_data c)))%Q)
  /\ (Data.advertised_bandwidth (_data c) = 0 ->
      (measured_bandwidth cfg c median == uncapped cfg c median)%Q).
Proof.
  unfold measured_bandwidth. split.
  - intros Hadv. apply Z.eqb_neq in Hadv. rewrite Hadv. cbn [negb].
    assert (Heq :
      (py_min (inject_Z (Data.consensus_weight (_data c))
               * (if is_exit c
                  then median * EXIT_BANDWIDTH_FRACTION cfg else median))
         (inject_Z (Data.advertised_bandwidth (_data c)))
       == Qmin (uncapped cfg c median)
            (inject_Z (Data.advertised_bandwidth (_data c))))%Q).
    { rewrite py_min_Qmin. rewrite measured_uncapped. reflexivity. }
    split; [exact Heq|]. rewrite Heq. apply Q.le_min_r.
  - intros Hadv. apply Z.eqb_eq in Hadv. rewrite Hadv. cbn [negb].
    apply measured_uncapped.
Qed.

End Bandwidth.

Example candidate_v4_built :
  Candidate_init example_parse_ts relay_v4 = Ok candidate_v4.
Proof. vm_compute. reflexivity. Qed.

Example candidate_v6_built :
  Candidate_init example_parse_ts relay_v6 = Ok candidate_v6.
Proof. vm_compute. reflexivity. Qed.

(** ** The error monad *)

Lemma bind_Ok {A B : Type} (a : A) (k : A -> result B) :
  (Ok a ≫= k) = k a.
Proof. reflexivity. Qed.

Lemma bind_Raise {A B : Type} (e : exn) (k : A -> result B) :
  (Raise e ≫= k) = Raise e.
Proof. reflexivity. Qed.

Lemma bind_Ok_inv {A B : Type} (m : result A) (k : A -> result B) (b : B) :
  (m ≫= k) = Ok b -> exists a, m = Ok a /\ k a = Ok b.
Proof. destruct m as [a|e]; [eauto | discriminate]. Qed.

Ltac bind_inv H :=
  let a := fresh "a" in
  let Ha := fresh "Ha" in
  apply bind_Ok_inv in H; destruct H as (a & Ha & H).

(** ** Ingestion *)

Section Ingestion.

Variable parse_ts : string -> result Z.

Lemma _add_relays_app (cl : CandidateList) (pre post : list Details.t) :
  _add_relays parse_ts cl (pre ++ post)
  = (_add_relays parse_ts cl pre ≫= fun cl' => _add_relays parse_ts cl' post).
Proof.
  revert cl. induction pre as [|r pre IH]; intros cl; [reflexivity|].
  cbn [_add_relays app].
  destruct (_add_relay parse_ts cl r) as [cl'|e]; [|reflexivity].
  rewrite !bind_Ok. apply IH.
Qed.

(** The constructor succeeds only on a record with the six required
    fields. *)
Lemma Candidate_init_required (d : Details.t) (c : Candidate) :
  Candidate_init parse_ts d = Ok c ->
  is_Some (Details.fingerprint d) /\ is_Some (Details.nickname d)
  /\ is_Some (Details.last_changed_address_or_port d)
  /\ is_Some (Details.consensus_weight d)
  /\ is_Some (Details.or_addresses d) /\ is_Some (Details.dir_address d).
Proof.
  unfold Candidate_init. intros H.
  destruct (Details.fingerprint d); [|discriminate].
  destruct (Details.nickname d); [|discriminate].
  destruct (Details.last_changed_address_or_port d); [|discriminate].
  destruct (Details.consensus_weight d); [|discriminate].
  destruct (Details.or_addresses d); [|discriminate].
  destruct (Details.dir_address d); [|discriminate].
  repeat split; eauto.
Qed.

(** It raises when no OR address is on the directory address. *)
Lemma Candidate_init_needs_orport (d : Details.t) (c : Candidate) :
  Candidate_init parse_ts d = Ok c ->
  exists dir addresses ip port,
    Details.dir_address d = Some dir
    /\ Details.or_addresses d = Some addresses
    /\ _split_dirport dir = Ok (ip, port)
    /\ _compute_orport ip (_stable_sort_or_addresses addresses)
       = Ok (Some (orport c)).
Proof.
  unfold Candidate_init. intros H.
  destruct (Details.fingerprint d); [|discriminate].
  destruct (Details.nickname d); [|discriminate].
  destruct (Details.last_changed_address_or_port d) as [t|]; [|discriminate].
  destruct (Details.consensus_weight d); [|discriminate].
  destruct (Details.or_addresses d) as [addresses|]; [|discriminate].
  destruct (Details.dir_address d) as [dir|]; [|discriminate].
  cbn in H. destruct (parse_ts t); [|discriminate]. cbn in H.
  destruct (_split_dirport dir) as [[ip port]|] eqn:Es; [|discriminate].
  cbn in H.
  destruct (_compute_orport ip (_stable_sort_or_addresses addresses))
    as [[orp|]|] eqn:E; try discriminate.
  cbn in H.
  destruct (_compute_ipv6addr orp (_stable_sort_or_addresses addresses));
    [|discriminate].
  cbn in H. injection H as <-. cbn [orport].
  exists dir, addresses, ip, port. auto.
Qed.

(** C1, as the code has it: a record without [dir_address] is skipped
    and the others are processed as if it were not there; a record with
    a [dir_address] on which the constructor raises (a missing required
    field, no ORPort) stops the loop with that exception, whatever
    follows it. *)
Theorem C1_ingestion_failure (cl : CandidateList)
  (pre post : list Details.t) (d : Details.t) :
  (Details.dir_address d = None ->
   _add_relays parse_ts cl (pre ++ d :: post)
   = _add_relays parse_ts cl (pre ++ post))
  /\ (forall cl' e,
        Details.dir_address d <> None ->
        Candidate_init parse_ts d = Raise e ->
        _add_relays parse_ts cl pre = Ok cl' ->
        _add_details parse_ts cl (Some (pre ++ d :: post)) = Raise e).
Proof.
  split.
  - intros Hd. rewrite !_add_relays_app.
    destruct (_add_relays parse_ts cl pre) as [cl'|e]; [|reflexivity].
    rewrite !bind_Ok. cbn [_add_relays]. unfold _add_relay. rewrite Hd.
    reflexivity.
  - intros cl' e Hd He Hpre. cbn [_add_details].
    rewrite _add_relays_app, Hpre, bind_Ok. cbn [_add_relays].
    unfold _add_relay.
    destruct (Details.dir_address d); [|congruence].
    rewrite He. reflexivity.
Qed.

End Ingestion.

(** C1 fails as stated: a relay without nickname, or without an ORPort on
    its directory address, ends the ingestion of the whole document,
    although the relay after it is a good one. *)
Lemma C1_counterexample :
  let empty := {| relays := ∅; fallbacks := [] |} in
  (Candidate_init example_parse_ts relay_no_nickname
   = Raise (Exception "Document has no nickname field.")
   /\ _add_details example_parse_ts empty (Some [relay_no_nickname; relay_v4])
      = Raise (Exception "Document has no nickname field."))
  /\ (Candidate_init example_parse_ts relay_no_orport
      = Raise (Exception "Failed to get an orport for DDDD.")
      /\ _add_details example_parse_ts empty (Some [relay_no_orport; relay_v4])
         = Raise (Exception "Failed to get an orport for DDDD."))
  /\ _add_details example_parse_ts empty (Some [relay_v4])
     = Ok {| relays := {["AAAA" := candidate_v4]}; fallbacks := [] |}.
Proof.
  cbv zeta. repeat split; vm_compute; reflexivity.
Qed.

(** The two halves of C1 on a document of three relays: the middle one
    without directory address, then without nickname. *)
Lemma C1_ingestion_failure_witness :
  _add_relays example_parse_ts empty_list
    ([relay_v4] ++ relay_no_dir :: [relay_v6])
  = _add_relays example_parse_ts empty_list ([relay_v4] ++ [relay_v6])
  /\ _add_details example_parse_ts empty_list
       (Some ([relay_v4] ++ relay_no_nickname :: [relay_v6]))
     = Raise (Exception "Document has no nickname field.").
Proof.
  split.
  - apply (C1_ingestion_failure example_parse_ts empty_list
             [relay_v4] [relay_v6] relay_no_dir).
    reflexivity.
  - apply (proj2 (C1_ingestion_failure example_parse_ts empty_list
                    [relay_v4] [relay_v6] relay_no_nickname)
             {| relays := {["AAAA" := candidate_v4]}; fallbacks := [] |}).
    + discriminate.
    + vm_compute; reflexivity.
    + vm_compute; reflexivity.
Defined.

(** ** IPv6 derivation *)

(** The first loop of [_compute_ipv6addr] never selects an address: a
    string is never equal to an integer. *)
Lemma ipv6_same_port_selects_nothing (orp : Z) (addresses : list string)
  (r : option (string * string)) :
  ipv6_same_port orp addresses = Ok r -> r = None.
Proof.
  induction addresses as [|i rest IH]; cbn [ipv6_same_port]; intros H.
  - injection H as <-. reflexivity.
  - destruct (PyStr.unpack2 (PyStr.rsplit1 ":" i)) as [[ipaddr port]|];
      [|discriminate].
    rewrite bind_Ok in H. cbn [py_eq andb] in H. auto.
Qed.

(** So the address chosen is the first valid IPv6 address of the list,
    whatever its port. *)
Lemma _compute_ipv6addr_first (orp : Z) (addresses : list string)
  (r : option (string * string)) :
  _compute_ipv6addr orp addresses = Ok r -> ipv6_first addresses = Ok r.
Proof.
  unfold _compute_ipv6addr. intros H. bind_inv H.
  pose proof (ipv6_same_port_selects_nothing _ _ _ Ha) as ->. exact H.
Qed.

(** Where no address is a valid IPv6 literal the relay has no IPv6
    address, and that is no error. *)
Lemma ipv6_first_none (addresses : list string) :
  Forall (fun i => exists ipaddr port,
            PyStr.rsplit1 ":" i = [ipaddr; port]
            /\ is_valid_ipv6_address ipaddr = false) addresses ->
  forall orp, _compute_ipv6addr orp addresses = Ok None.
Proof.
  intros Hall orp. unfold _compute_ipv6addr.
  assert (H1 : ipv6_same_port orp addresses = Ok None).
  { induction Hall as [|i rest (ipaddr & port & Hs & Hv) _ IH];
      [reflexivity|].
    cbn [ipv6_same_port]. rewrite Hs. cbn [PyStr.unpack2].
    rewrite bind_Ok. cbn [py_eq andb]. exact IH. }
  rewrite H1, bind_Ok.
  induction Hall as [|i rest (ipaddr & port & Hs & Hv) _ IH]; [reflexivity|].
  cbn [ipv6_first]. rewrite Hs. cbn [PyStr.unpack2]. rewrite bind_Ok, Hv.
  apply IH.
  clear - H1 Hs. cbn [ipv6_same_port] in H1. rewrite Hs in H1.
  cbn [PyStr.unpack2] in H1. rewrite bind_Ok in H1. exact H1.
Qed.

(** C5 on the relay with OR addresses
    ["1.2.3.4:9001"; "[::1]:9002"; "[::2]:9001"] and directory address
    "1.2.3.4:80": the ORPort is 9001 and "[::2]" is a valid IPv6 literal
    on that port, yet the address chosen is "[::1]" with port "9002". *)
Theorem C5_ipv6_ignores_orport :
  Candidate_init example_parse_ts relay_v6 = Ok candidate_v6
  /\ Data.or_addresses (_data candidate_v6)
     = ["1.2.3.4:9001"; "[::1]:9002"; "[::2]:9001"]
  /\ orport candidate_v6 = 9001
  /\ PyStr.rsplit1 ":" "[::2]:9001" = ["[::2]"; "9001"]
  /\ is_valid_ipv6_address "[::2]" = true
  /\ ipv6addr candidate_v6 = Some "[::1]"
  /\ ipv6orport candidate_v6 = Some "9002".
Proof. repeat split; vm_compute; reflexivity. Qed.

(** ** Filter lists *)

(** C3 on the blacklist line "1.2.3.4:8080 orport=9001" and the relay at
    1.2.3.4 with DirPort 80 and ORPort 9001: the line names the relay's
    IPv4 address and ORPort, and the relay is not in the blacklist, in
    whichever order the keys of the line are visited. *)
Theorem C3_blacklist_skips_orport :
  dirip candidate_v4 = "1.2.3.4"
  /\ dirport candidate_v4 = 80
  /\ orport candidate_v4 = 9001
  /\ entry_get "ipv4" blacklist_line = Some "1.2.3.4"
  /\ (getitem blacklist_line "orport" ≫= PyStr.int) = Ok 9001
  /\ (getitem blacklist_line "dirport" ≫= PyStr.int) = Ok 8080
  /\ Forall (fun e => is_in_blacklist candidate_v4 [e] = Ok false)
       (permutations blacklist_line).
Proof.
  do 6 (split; [vm_compute; reflexivity|]).
  apply List.Forall_forall. intros e He.
  assert (Hall : forallb
            (fun e => answers (is_in_blacklist candidate_v4 [e]) false)
            (permutations blacklist_line) = true)
    by (vm_compute; reflexivity).
  rewrite List.forallb_forall in Hall. specialize (Hall e He).
  destruct (is_in_blacklist candidate_v4 [e]) as [[|]|]; cbn in Hall;
    congruence.
Qed.



(** C4 on the whitelist line "1.2.3.4:80 orport=9001 id=BBBB" and the
    relay BBBB at 1.2.3.4, DirPort 80, ORPort 9001, which has an IPv6
    address: fingerprint, address and ports agree, the line lists no
    IPv6 address, and the lookup raises instead of answering. *)
Theorem C4_whitelist_unbound_ipv6 :
  _fpr candidate_v6 = "BBBB"
  /\ dirip candidate_v6 = "1.2.3.4"
  /\ dirport candidate_v6 = 80
  /\ orport candidate_v6 = 9001
  /\ has_ipv6 candidate_v6 = true
  /\ has_key whitelist_line "ipv6" = false
  /\ is_in_whitelist candidate_v6 [whitelist_line]
     = Raise (UnboundLocalError "ipv6").
Proof. repeat split; vm_compute; reflexivity. Qed.

Lemma whitelist_loop_sound (self : Candidate) (relaylist : list entry) :
  forall ipv6, whitelist_loop self ipv6 relaylist = Ok true ->
  exists e, In e relaylist /\ whitelist_match self e.
Proof.
  induction relaylist as [|e rest IH]; intros ipv6 H; [discriminate|].
  assert (Hrest : forall v, whitelist_loop self v rest = Ok true ->
                   exists e0, In e0 (e :: rest) /\ whitelist_match self e0).
  { intros v Hv. destruct (IH v Hv) as (e0 & Hin & Hm).
    exists e0. split; [right; exact Hin | exact Hm]. }
  cbn [whitelist_loop] in H. unfold getitem in H.
  destruct (entry_get "id" e) as [id|] eqn:Eid; [|discriminate].
  rewrite bind_Ok in H.
  destruct (String.eqb_spec id (_fpr self)) as [->|_]; cbn [negb] in H;
    [|eauto].
  destruct (entry_get "ipv4" e) as [ipv4|] eqn:Eip; [|discriminate].
  rewrite bind_Ok in H.
  destruct (String.eqb_spec ipv4 (dirip self)) as [->|_]; cbn [negb] in H;
    [|eauto].
  destruct (entry_get "dirport" e ) as [dp|] eqn:Edp; [|discriminate].
  rewrite bind_Ok in H.
  destruct (PyStr.int dp) as [dpz|] eqn:Edpz; [|discriminate].
  rewrite bind_Ok in H.
  destruct (Z.eqb_spec dpz (dirport self)) as [->|_]; cbn [negb] in H;
    [|eauto].
  destruct (entry_get "orport" e ) as [op|] eqn:Eop; [|discriminate].
  rewrite bind_Ok in H.
  destruct (PyStr.int op) as [opz|] eqn:Eopz; [|discriminate].
  rewrite bind_Ok in H.
  destruct (Z.eqb_spec opz (orport self)) as [->|_]; cbn [negb] in H;
    [|eauto].
  assert (Hports :
    (getitem e "dirport" ≫= PyStr.int) = Ok (dirport self)
    /\ (getitem e "orport" ≫= PyStr.int) = Ok (orport self)).
  { unfold getitem. rewrite Edp, Eop, !bind_Ok. auto. }
  destruct Hports as [Hdp Hop].
  unfold has_key in H |- *.
  destruct (entry_get "ipv6" e) as [e6|] eqn:E6;
    destruct (has_ipv6 self) eqn:Hv6; cbn [andb negb] in H.
  - rewrite bind_Ok in H.
    destruct (String.eqb_spec e6 (ipv6_of self)) as [->|_]; cbn [negb] in H;
      [|eauto].
    exists e. split; [left; reflexivity|].
    unfold whitelist_match, has_key. rewrite E6, Hv6. repeat split; auto.
  - eauto.
  - destruct ipv6; [eauto | discriminate].
  - exists e. split; [left; reflexivity|].
    unfold whitelist_match, has_key. rewrite E6, Hv6.
    repeat split; auto. discriminate.
Qed.

(** ** Uptime fractions and eligibility *)

Section Fractions.

Variable parse_ts : string -> result Z.
Variable cfg : Config.
Variable fp : float_ops.
Variable class_created : Z.

Lemma Candidate_init_zero (d : Details.t) (c : Candidate) :
  Candidate_init parse_ts d = Ok c -> zero_fractions c.
Proof.
  unfold Candidate_init. intros H.
  repeat (match type of H with
          | (require _ ?o ≫= _) = Ok _ =>
              destruct o; [rewrite bind_Ok in H | discriminate]
          | (?m ≫= _) = Ok _ =>
              destruct m as [[? ?]|]; [rewrite bind_Ok in H | discriminate]
          | (?m ≫= _) = Ok _ =>
              destruct m; [rewrite bind_Ok in H | discriminate]
          | match ?o with Some _ => _ | None => _ end = Ok _ =>
              destruct o; [| discriminate]
          end; cbn [require mret result_ret] in H).
  injection H as <-. repeat split.
Qed.

(** A document without one of the three histories changes nothing. *)
Lemma add_uptime_incomplete (c : Candidate) (clk : clock) (u : Uptime.t) :
  complete_uptime u = false -> add_uptime parse_ts cfg fp c clk u = Ok c.
Proof.
  unfold complete_uptime, add_uptime. intros H.
  destruct (Uptime.flags u) as [fl|]; [|reflexivity].
  rewrite H. reflexivity.
Qed.

(** With fractions at zero and a positive running cut-off the candidate
    is turned down, at the latest by the test on the running fraction. *)
Lemma is_candidate_zero (c : Candidate) :
  zero_fractions c -> (0 < CUTOFF_RUNNING cfg)%Q ->
  is_candidate cfg class_created c = Ok false.
Proof.
  intros (Hr & _ & _) Hcut. unfold is_candidate.
  destruct (_ && negb (is_running c)); [reflexivity|].
  destruct (_ >? _); [reflexivity|].
  rewrite Hr. apply Qltb_true in Hcut. rewrite Hcut. reflexivity.
Qed.

Lemma _add_relays_zero (rs : list Details.t) :
  forall cl cl',
    (forall k c, relays cl !! k = Some c -> zero_fractions c) ->
    _add_relays parse_ts cl rs = Ok cl' ->
    forall k c, relays cl' !! k = Some c -> zero_fractions c.
Proof.
  induction rs as [|r rs IH]; intros cl cl' Hcl H.
  - injection H as <-. exact Hcl.
  - cbn [_add_relays] in H. bind_inv H. apply (IH a cl'); [|exact H].
    clear IH H. unfold _add_relay in Ha.
    destruct (Details.dir_address r); [|injection Ha as <-; exact Hcl].
    bind_inv Ha. injection Ha as <-. cbn [relays]. intros k c.
    destruct (decide (_fpr a0 = k)) as [<-|Hne].
    + rewrite lookup_insert_eq. intros [= <-].
      eapply Candidate_init_zero; eauto.
    + rewrite lookup_insert_ne by exact Hne. apply Hcl.
Qed.

Lemma _add_uptime_docs_zero (fpr : string) (docs : list (clock * Uptime.t)) :
  (forall clk u, In (clk, u) docs -> Uptime.fingerprint u = Some fpr ->
                 complete_uptime u = false) ->
  forall cl cl',
    (forall c, relays cl !! fpr = Some c -> zero_fractions c) ->
    _add_uptime_docs parse_ts cfg fp cl docs = Ok cl' ->
    forall c, relays cl' !! fpr = Some c -> zero_fractions c.
Proof.
  induction docs as [|[clk u] docs IH]; intros Hdocs cl cl' Hcl H.
  - injection H as <-. exact Hcl.
  - cbn [_add_uptime_docs fst snd] in H. bind_inv H.
    apply (IH (fun clk' u' Hin => Hdocs clk' u' (or_intror Hin)) a cl');
      [|exact H].
    clear IH H. unfold _add_uptime in Ha.
    destruct (Uptime.fingerprint u) as [f|] eqn:Ef; [|discriminate].
    destruct (relays cl !! f) as [c0|] eqn:Ec0;
      [|injection Ha as <-; exact Hcl].
    bind_inv Ha. injection Ha as <-. cbn [relays]. intros c.
    destruct (decide (f = fpr)) as [->|Hne].
    + rewrite lookup_insert_eq. intros [= <-].
      rewrite add_uptime_incomplete in Ha0
        by (apply (Hdocs clk u); [left; reflexivity | exact Ef]).
      injection Ha0 as <-. apply Hcl. exact Ec0.
    + rewrite lookup_insert_ne by exact Hne. apply Hcl.
Qed.

(** C10: after ingestion, a relay for which no uptime document with the
    Running, Guard and V2Dir histories was added still has its three
    fractions at the zero the constructor gave them, and with a positive
    running cut-off it is not a candidate. *)
Theorem C10_fractions_need_uptime
  (details_doc : option (list Details.t))
  (docs : list (clock * Uptime.t)) (cl : CandidateList)
  (fpr : string) (c : Candidate) :
  add_relays parse_ts cfg fp empty_list details_doc (Some docs) = Ok cl ->
  relays cl !! fpr = Some c ->
  (forall clk u, In (clk, u) docs -> Uptime.fingerprint u = Some fpr ->
                 complete_uptime u = false) ->
  zero_fractions c
  /\ ((0 < CUTOFF_RUNNING cfg)%Q ->
      is_candidate cfg class_created c = Ok false).
Proof.
  intros Hrun Hc Hdocs. unfold add_relays in Hrun. bind_inv Hrun.
  assert (Hz : zero_fractions c).
  { eapply (_add_uptime_docs_zero fpr docs Hdocs a cl); eauto.
    intros c0. destruct details_doc as [rs|]; [|discriminate].
    eapply (_add_relays_zero rs empty_list a); eauto.
    intros k c1. cbn [relays empty_list]. rewrite lookup_empty.
    discriminate. }
  split; [exact Hz|]. intros Hcut. apply is_candidate_zero; assumption.
Qed.

End Fractions.

(** Relay AAAA got an uptime document without Guard history, relay BBBB a
    complete one. *)
Lemma C10_fractions_need_uptime_witness :
  zero_fractions candidate_v4
  /\ is_candidate default_config noon candidate_v4 = Ok false.
Proof.
  destruct (C10_fractions_need_uptime example_parse_ts default_config binary64
              noon
              (Some [relay_v4; relay_v6])
              [(at_noon, uptime_incomplete); (at_noon, uptime_complete)]
              ingested "AAAA" candidate_v4) as [Hz Hc].
  - vm_compute; reflexivity.
  - vm_compute; reflexivity.
  - intros clk u [[= <- <-]|[[= <- <-]|[]]] Hf.
    + vm_compute; reflexivity.
    + discriminate Hf.
  - split; [exact Hz|]. apply Hc. reflexivity.
Defined.

(** ** The median factor *)

Section Median.

Variable cfg : Config.

(** Subscripting the dict with a member of [fallbacks] raises, so the
    sort fails on its first key. *)
Lemma sort_fallbacks_by_cw_to_bw_factor_raises (self : CandidateList) :
  fallbacks self <> [] ->
  sort_fallbacks_by_cw_to_bw_factor self
  = Raise (KeyError "<Candidate object>").
Proof.
  unfold sort_fallbacks_by_cw_to_bw_factor, sort_by_key.
  destruct (fallbacks self) as [|f fb]; [congruence|]. reflexivity.
Qed.

Lemma calculate_measured_bandwidth_raises (self : CandidateList) :
  calculate_measured_bandwidth cfg self
  = Raise (if decide (fallbacks self = [])
           then AttributeError "cw_to_bw_factor"
           else KeyError "<Candidate object>").
Proof.
  unfold calculate_measured_bandwidth. case_decide as Hfb.
  - unfold sort_fallbacks_by_cw_to_bw_factor, sort_by_key.
    rewrite Hfb. reflexivity.
  - rewrite sort_fallbacks_by_cw_to_bw_factor_raises by exact Hfb.
    reflexivity.
Qed.

(** On a list that is already in order, [fallback_median] is the
    low median, moved up to the first candidate with an advertised
    bandwidth where one is required. *)
Lemma fallback_median_low (self : CandidateList) :
  fallbacks self <> [] ->
  fallback_median self false
  = fallbacks self !! ((List.length (fallbacks self) - 1) / 2)%nat.
Proof.
  unfold fallback_median. destruct (fallbacks self); [congruence|].
  reflexivity.
Qed.

Lemma first_with_advertised_bandwidth_spec (l : list Candidate)
  (c : Candidate) :
  first_with_advertised_bandwidth l = Some c <->
  exists skipped rest,
    l = skipped ++ c :: rest
    /\ Forall (fun f => Data.advertised_bandwidth (_data f) = 0) skipped
    /\ Data.advertised_bandwidth (_data c) <> 0.
Proof.
  induction l as [|f l IH]; cbn [first_with_advertised_bandwidth].
  - split; [discriminate|]. intros ([|? ?] & rest & H & _); discriminate.
  - destruct (Z.eqb_spec (Data.advertised_bandwidth (_data f)) 0)
      as [Hz|Hnz].
    + rewrite IH. split.
      * intros (skipped & rest & -> & Hs & Hc).
        exists (f :: skipped), rest. repeat split; auto.
      * intros ([|f' skipped] & rest & Hl & Hs & Hc).
        -- injection Hl as -> _. congruence.
        -- injection Hl as -> ->. apply Forall_cons_1 in Hs as [_ Hs].
           exists skipped, rest. auto.
    + split.
      * intros [= ->]. exists [], l. repeat split; auto.
      * intros ([|f' skipped] & rest & Hl & Hs & Hc).
        -- injection Hl as -> _. reflexivity.
        -- injection Hl as -> _. apply Forall_cons_1 in Hs as [Hs _].
           congruence.
Qed.

Lemma first_with_advertised_bandwidth_none (l : list Candidate) :
  first_with_advertised_bandwidth l = None <->
  Forall (fun f => Data.advertised_bandwidth (_data f) = 0) l.
Proof.
  induction l as [|f l IH]; cbn [first_with_advertised_bandwidth].
  - split; auto.
  - destruct (Z.eqb_spec (Data.advertised_bandwidth (_data f)) 0)
      as [Hz|Hnz].
    + rewrite IH. split; [auto|]. intros H.
      apply Forall_cons_1 in H as [_ H]. exact H.
    + split; [discriminate|]. intros H.
      apply Forall_cons_1 in H as [H _]. congruence.
Qed.

Lemma fallback_median_advances (self : CandidateList) :
  fallbacks self <> [] ->
  fallback_median self true
  = first_with_advertised_bandwidth
      (skipn ((List.length (fallbacks self) - 1) / 2) (fallbacks self)).
Proof.
  unfold fallback_median. destruct (fallbacks self); [congruence|].
  reflexivity.
Qed.

End Median.

(** Every run that gets as far as the bandwidth stage ends there: no
    input makes [list_fallbacks] return. *)
Lemma list_fallbacks_raises (parse_ts : string -> result Z) (cfg : Config)
  (fp : float_ops) (class_created : Z) (dl_speed : string -> Z -> nat -> bool)
  (details_doc : option (list Details.t))
  (uptime_doc : option (list (clock * Uptime.t)))
  (whitelist blacklist : list entry) :
  exists e,
    snd (list_fallbacks parse_ts cfg fp class_created dl_speed details_doc
           uptime_doc whitelist blacklist) = Raise e.
Proof.
  unfold list_fallbacks.
  destruct (add_relays _ _ _ _ _ _) as [cl|e]; [|eauto].
  destruct (compute_fallbacks _ _ cl) as [cl'|e]; [|eauto].
  destruct (apply_filter_lists _ _ _ _) as [[cl'' n]|e]; [|eauto].
  rewrite calculate_measured_bandwidth_raises, bind_Raise. cbn [snd]. eauto.
Qed.

(** C8 on the run over the one eligible relay AAAA (consensus weight 1000,
    advertised bandwidth 40000): its factor is 40 and it is the median of
    the one-element list, but the sort that comes first subscripts the
    dict with the candidate itself and the run ends in a KeyError. *)
Theorem C8_median_sort_raises :
  let self := {| relays := {["AAAA" := eligible_v4]};
                 fallbacks := [eligible_v4] |} in
  is_candidate default_config noon eligible_v4 = Ok true
  /\ cw_to_bw_factor eligible_v4 = Ok 40
  /\ fallback_median self true = Some eligible_v4
  /\ sort_fallbacks_by_cw_to_bw_factor self
     = Raise (KeyError "<Candidate object>")
  /\ calculate_measured_bandwidth default_config self
     = Raise (KeyError "<Candidate object>")
  /\ list_fallbacks example_parse_ts default_config binary64 noon
       downloads_succeed
       (Some [relay_v4]) (Some [(at_noon, uptime_v4)]) [whitelist_v4] []
     = ([WhitelistBlacklistExcluded 0 1],
        Raise (KeyError "<Candidate object>")).
Proof. cbv zeta. repeat split; vm_compute; reflexivity. Qed.

(** No run gets as far as the summary: whatever the documents and the
    lists, the output holds at most the line on the filter lists, and
    neither a fallback count nor a fallback entry. *)
Lemma list_fallbacks_prints (parse_ts : string -> result Z) (cfg : Config)
  (fp : float_ops) (class_created : Z)
  (dl_speed : string -> Z -> nat -> bool)
  (details_doc : option (list Details.t))
  (uptime_doc : option (list (clock * Uptime.t)))
  (whitelist blacklist : list entry) :
  let out := fst (list_fallbacks parse_ts cfg fp class_created dl_speed
                    details_doc uptime_doc whitelist blacklist) in
  out = [] \/ exists n m, out = [WhitelistBlacklistExcluded n m].
Proof.
  cbv zeta. unfold list_fallbacks.
  destruct (add_relays _ _ _ _ _ _) as [cl|e]; [|left; reflexivity].
  destruct (compute_fallbacks _ _ cl) as [cl'|e]; [|left; reflexivity].
  destruct (apply_filter_lists _ _ _ _) as [[cl'' n]|e];
    [|left; reflexivity].
  rewrite calculate_measured_bandwidth_raises, bind_Raise. cbn [fst].
  right. eauto.
Qed.

(** C2 on the run over the one eligible relay AAAA, which is on the
    whitelist: one fallback is left after the filter lists, fewer than
    [MIN_FALLBACK_COUNT = 100].  The run does not report that: it ends in
    the KeyError of the bandwidth stage, before the count is compared
    with the minimum, and its output has no "#error Fallback Count" part
    (and no fallback entry). *)
Theorem C2_low_count_not_reported :
  let run :=
    list_fallbacks example_parse_ts default_config binary64 noon
      downloads_succeed (Some [relay_v4]) (Some [(at_noon, uptime_v4)])
      [whitelist_v4] [] in
  match (c ← add_relays example_parse_ts default_config binary64
               empty_list (Some [relay_v4]) (Some [(at_noon, uptime_v4)]);
         c ← compute_fallbacks default_config noon c;
         apply_filter_lists default_config c [whitelist_v4] []) with
  | Ok (c, excluded_count) =>
      fallbacks c = [eligible_v4] /\ excluded_count = 0%nat
  | Raise _ => False
  end
  /\ (List.length [eligible_v4] < MIN_FALLBACK_COUNT default_config)%nat
  /\ run = ([WhitelistBlacklistExcluded 0 1],
            Raise (KeyError "<Candidate object>"))
  /\ (forall n m, ~ In (ErrorFallbackCountTooLow n m) (fst run))
  /\ accepted (fst run) = [].
Proof.
  cbv zeta.
  split; [vm_compute; split; reflexivity|].
  split; [vm_compute; lia|].
  assert (Hrun :
    list_fallbacks example_parse_ts default_config binary64 noon
      downloads_succeed (Some [relay_v4]) (Some [(at_noon, uptime_v4)])
      [whitelist_v4] []
    = ([WhitelistBlacklistExcluded 0 1],
       Raise (KeyError "<Candidate object>")))
    by (vm_compute; reflexivity).
  rewrite Hrun. split; [reflexivity|]. split; [|reflexivity].
  intros n m [H|[]]. discriminate H.
Qed.

(** ** The fallback count *)

Section Report.

Variable cfg : Config.
Variable dl_speed : string -> Z -> nat -> bool.

Lemma fallback_min_some (self : CandidateList) :
  fallbacks self <> [] ->
  exists f, In f (fallbacks self) /\ fallback_min self = Some f.
Proof.
  unfold fallback_min. induction (fallbacks self) as [|f l IH];
    [congruence|]. intros _. destruct l as [|g l].
  - exists f. split; [left|]; reflexivity.
  - destruct IH as (x & Hin & Hx); [discriminate|].
    exists x. split; [right; exact Hin | exact Hx].
Qed.

(** On a non-empty list of fallbacks with their bandwidths set,
    [summarise_fallbacks] returns a summary and raises nothing; the
    summary carries the "#error Fallback Count ... is too low" part
    exactly when the list is shorter than [MIN_FALLBACK_COUNT]. *)
Theorem summarise_fallbacks_too_few (self : CandidateList)
  (eligible_count guard_count target_count max_count : nat) :
  fallbacks self <> [] ->
  Forall has_measured_bandwidth (fallbacks self) ->
  exists summary,
    summarise_fallbacks cfg self eligible_count guard_count target_count
      max_count = Ok summary
    /\ (In (ErrorFallbackCountTooLow (List.length (fallbacks self))
              (MIN_FALLBACK_COUNT cfg)) summary
        <-> (List.length (fallbacks self) < MIN_FALLBACK_COUNT cfg)%nat).
Proof.
  intros Hne Hbw.
  destruct (fallback_min_some self Hne) as (fmin & Hin & Hmin).
  destruct (fallbacks self) as [|fmax fb] eqn:Efb; [congruence|].
  rewrite List.Forall_forall in Hbw.
  destruct (Hbw fmin Hin) as [bmin Hbmin].
  destruct (Hbw fmax (or_introl eq_refl)) as [bmax Hbmax].
  assert (Hsum : summarise_fallbacks cfg self eligible_count guard_count
                   target_count max_count
                 = Ok ([ (if PERFORM_IPV4_DIRPORT_CHECKS cfg
                             || PERFORM_IPV6_DIRPORT_CHECKS cfg
                          then CheckedDirPorts
                                 (PERFORM_IPV4_DIRPORT_CHECKS cfg)
                                 (PERFORM_IPV6_DIRPORT_CHECKS cfg)
                          else DidNotCheckDirPorts);
                         FinalCount (List.length (fmax :: fb))
                           eligible_count
                           (match FALLBACK_PROPORTION_OF_GUARDS cfg with
                            | None => None
                            | Some _ => Some (target_count, guard_count)
                            end)
                           (MAX_FALLBACK_COUNT cfg) ]
                       ++ (if negb (eligible_count
                                    =? List.length (fmax :: fb))%nat
                           then [ExcludedCount
                                   (Z.of_nat eligible_count
                                    - Z.of_nat (List.length (fmax :: fb)))]
                           else [])
                       ++ [BandwidthRange bmin bmax]
                       ++ (if (List.length (fmax :: fb)
                               <? MIN_FALLBACK_COUNT cfg)%nat
                           then [ErrorFallbackCountTooLow
                                   (List.length (fmax :: fb))
                                   (MIN_FALLBACK_COUNT cfg)]
                           else []))).
  { unfold summarise_fallbacks, fallback_max, get_measured_bandwidth.
    rewrite Hmin, Hbmin, Efb. cbn [head]. rewrite Hbmax. reflexivity. }
  eexists. split; [exact Hsum|].
  rewrite !in_app_iff.
  destruct (Nat.ltb_spec (List.length (fmax :: fb))
              (MIN_FALLBACK_COUNT cfg)) as [Hlt|Hge].
  - split; [intros _; exact Hlt|]. intros _. do 3 right. left.
    reflexivity.
  - split; [|lia]. intros [H|[H|[H|H]]].
    + destruct H as [H|[H|[]]]; [|discriminate].
      destruct (_ || _); discriminate.
    + destruct (negb _); [destruct H as [H|[]]; discriminate|].
      destruct H.
    + destruct H as [H|[]]; discriminate.
    + destruct H.
Qed.

(** The count that is tested is not the number of accepted relays:
    where every download check fails nothing is accepted, and a list of
    at least [MIN_FALLBACK_COUNT] fallbacks still prints no error. *)
Lemma output_fallbacks_none_accepted (xs : list Candidate) (n m : nat) :
  Forall (fun x => fallback_consensus_dl_check cfg dl_speed x = false) xs ->
  accepted (output_fallbacks cfg dl_speed xs n m) = [].
Proof.
  induction 1 as [|x xs Hx _ IH]; [reflexivity|].
  cbn [output_fallbacks]. rewrite Hx. cbn [accepted flat_map app].
  exact IH.
Qed.

End Report.

(** On a network where every download fails the entry is printed as
    failed and nothing is accepted. *)
Example output_when_downloads_fail :
  output_fallbacks default_config downloads_fail [measured_v4] 0 0
  = [FallbackdirLine measured_v4 false]
  /\ accepted (output_fallbacks default_config downloads_fail
                 [measured_v4] 0 0) = [].
Proof. split; vm_compute; reflexivity. Qed.

(** The summary of the single fallback AAAA, once its bandwidth is set,
    carries the "#error" part. *)
Lemma summarise_fallbacks_too_few_witness :
  exists summary,
    summarise_fallbacks default_config
      {| relays := {["AAAA" := measured_v4]}; fallbacks := [measured_v4] |}
      1 1 0 0 = Ok summary
    /\ In (ErrorFallbackCountTooLow 1 100) summary.
Proof.
  destruct (summarise_fallbacks_too_few default_config
              {| relays := {["AAAA" := measured_v4]};
                 fallbacks := [measured_v4] |} 1 1 0 0)
    as (summary & Hs & Herr).
  - discriminate.
  - repeat constructor. vm_compute. eauto.
  - exists summary. split; [exact Hs|]. apply Herr. vm_compute. lia.
Defined.

(** Relay AAAA advertises 40000; relay BBBB advertises nothing and is an
    exit. *)
Lemma C9_measured_bandwidth_capped_witness :
  ((measured_bandwidth default_config candidate_v4 50
    == Qmin (uncapped default_config candidate_v4 50) (inject_Z 40000))%Q
   /\ (measured_bandwidth default_config candidate_v4 50
       <= inject_Z 40000)%Q)
  /\ (measured_bandwidth default_config candidate_v6 50
      == uncapped default_config candidate_v6 50)%Q.
Proof.
  split.
  - apply (proj1 (C9_measured_bandwidth_capped default_config
                    candidate_v4 50)).
    vm_compute. discriminate.
  - apply (proj2 (C9_measured_bandwidth_capped default_config
                    candidate_v6 50)).
    reflexivity.
Defined.

(** The example of the specification: consensus weight 1000, median
    factor 50, advertised bandwidth 40000. *)
Example measured_bandwidth_example :
  measured_bandwidth default_config candidate_v4 50 = inject_Z 40000.
Proof. vm_compute. reflexivity. Qed.

(** ** The IPv6 validator *)

Lemma split_not_nil (sep : ascii) (s : string) : PyStr.split sep s <> [].
Proof.
  destruct s as [|a s]; cbn [PyStr.split]; [discriminate|].
  destruct (Ascii.eqb a sep); [discriminate|].
  destruct (PyStr.split sep s); discriminate.
Qed.

Lemma all_split (p : ascii -> bool) (sep : ascii) (s : string) :
  PyStr.all p s = true ->
  Forall (fun g => PyStr.all p g = true) (PyStr.split sep s).
Proof.
  induction s as [|a s IH]; cbn [PyStr.split PyStr.all]; intros H.
  - repeat constructor.
  - apply andb_true_iff in H as [Ha Hs]. specialize (IH Hs).
    destruct (Ascii.eqb a sep); [constructor; [reflexivity | exact IH]|].
    destruct (PyStr.split sep s) as [|h t].
    + repeat constructor. cbn [PyStr.all]. rewrite Ha. reflexivity.
    + apply Forall_cons_1 in IH as [Hh Ht]. constructor; [|exact Ht].
      cbn [PyStr.all]. rewrite Ha, Hh. reflexivity.
Qed.

(** The number of groups is the number of colons plus one. *)
Lemma split_length (sep : ascii) (s : string) :
  List.length (PyStr.split sep s)
  = S (PyStr.count (String sep EmptyString) s).
Proof.
  unfold PyStr.count. induction s as [|a s IH]; [reflexivity|].
  cbn [PyStr.split PyStr.count_from String.prefix String.length Nat.sub].
  destruct (Ascii.ascii_dec sep a) as [->|Hne].
  - rewrite Ascii.eqb_refl. cbn [List.length]. rewrite IH.
    destruct s; reflexivity.
  - assert (Ascii.eqb a sep = false) as ->
      by (apply Ascii.eqb_neq; congruence).
    rewrite <- IH. destruct (PyStr.split sep s) eqn:E.
    + exfalso. exact (split_not_nil _ _ E).
    + reflexivity.
Qed.

Lemma group_class_hex (c : ascii) :
  outside_hex_pattern c = false -> group_class c = is_hex c.
Proof.
  destruct c as [[] [] [] [] [] [] [] []]; intros H;
    solve [reflexivity | discriminate H].
Qed.

Lemma no_newline_end (g : string) :
  PyStr.all (fun c => negb (outside_hex_pattern c)) g = true ->
  ends_with "010" g = false.
Proof.
  induction g as [|a g IH]; [reflexivity|]. cbn [PyStr.all].
  intros H. apply andb_true_iff in H as [Ha Hg].
  cbn [ends_with]. destruct g as [|b g]; [|exact (IH Hg)].
  unfold outside_hex_pattern in Ha. apply negb_true_iff in Ha.
  apply orb_false_iff in Ha as [_ Ha]. exact Ha.
Qed.

Lemma all_class_hex (g : string) :
  PyStr.all (fun c => negb (outside_hex_pattern c)) g = true ->
  PyStr.all group_class g = PyStr.all is_hex g.
Proof.
  induction g as [|a g IH]; [reflexivity|]. cbn [PyStr.all].
  intros H. apply andb_true_iff in H as [Ha Hg].
  rewrite (IH Hg), group_class_hex; [reflexivity|].
  apply negb_true_iff in Ha. exact Ha.
Qed.

(** Away from the characters G to ` and the newline, the pattern of the
    source accepts exactly the groups of at most four hexadecimal digits. *)
Lemma re_match_hex (g : string) :
  PyStr.all (fun c => negb (outside_hex_pattern c)) g = true ->
  re_match_group g = hex_group g.
Proof.
  intros H. unfold re_match_group, hex_group.
  rewrite (no_newline_end g H), (all_class_hex g H). reflexivity.
Qed.

Lemma ipv6_entries_after_ipv4 (l : list string) :
  ipv6_entries true l = true <-> l = [].
Proof. destruct l; cbn; split; congruence. Qed.

(** The loop accepts a list of groups that all match the pattern, the
    last one possibly an IPv4 literal instead. *)
Lemma ipv6_entries_spec (l : list string) :
  ipv6_entries false l = true <->
  l = [] \/ exists groups final,
      l = groups ++ [final]
      /\ Forall (fun g => re_match_group g = true) groups
      /\ (re_match_group final = true
          \/ is_valid_ipv4_address final = true).
Proof.
  induction l as [|e rest IH]; [split; auto|].
  cbn [ipv6_entries]. split.
  - intros H. right. destruct (re_match_group e) eqn:Ee; cbn [negb] in H.
    + apply IH in H as [->|(groups & final & -> & Hg & Hf)].
      * exists [], e. repeat split; auto.
      * exists (e :: groups), final. repeat split; auto.
    + destruct (is_valid_ipv4_address e) eqn:Ev; cbn [negb] in H;
        [|discriminate].
      apply ipv6_entries_after_ipv4 in H as ->.
      exists [], e. repeat split; auto.
  - intros [H|(groups & final & Hl & Hg & Hf)]; [discriminate|].
    destruct groups as [|g groups]; cbn [app] in Hl.
    + injection Hl as -> ->.
      destruct (re_match_group final); cbn [negb]; [reflexivity|].
      destruct Hf as [Hf|Hf]; [discriminate|]. rewrite Hf. reflexivity.
    + injection Hl as -> ->. apply Forall_cons_1 in Hg as [Hg Hgs].
      rewrite Hg. cbn [negb]. apply IH. right. eauto.
Qed.

(** C6, as the code has it: the validator drops the first and the last
    character, whatever they are, and accepts when the rest has at most 7
    colons, has exactly 7 of them (eight groups) or contains "::", has no
    second "::" and no ":::", and every group is a possibly empty run of
    at most four hexadecimal digits, the last group possibly an IPv4
    literal instead.  Stated for addresses without the characters G to `
    and without newline, on which the pattern of the source is wider. *)
Theorem C6_ipv6_validator (s : string) :
  PyStr.all (fun c => negb (outside_hex_pattern c)) (PyStr.slice_1_m1 s)
  = true ->
  is_valid_ipv6_address s = true <->
  (PyStr.count ":" (PyStr.slice_1_m1 s) <= 7)%nat
  /\ (PyStr.count ":" (PyStr.slice_1_m1 s) = 7%nat
      \/ PyStr.contains "::" (PyStr.slice_1_m1 s) = true)
  /\ (PyStr.count "::" (PyStr.slice_1_m1 s) <= 1)%nat
  /\ PyStr.contains ":::" (PyStr.slice_1_m1 s) = false
  /\ exists groups final,
       PyStr.split ":" (PyStr.slice_1_m1 s) = groups ++ [final]
       /\ Forall (fun g => hex_group g = true) groups
       /\ (hex_group final = true \/ is_valid_ipv4_address final = true).
Proof.
  intros Ha. unfold is_valid_ipv6_address.
  set (a := PyStr.slice_1_m1 s) in *.
  pose proof (all_split _ ":" a Ha) as Hgroups.
  assert (Hloop :
    ipv6_entries false (PyStr.split ":" a) = true <->
    exists groups final,
      PyStr.split ":" a = groups ++ [final]
      /\ Forall (fun g => hex_group g = true) groups
      /\ (hex_group final = true \/ is_valid_ipv4_address final = true)).
  { rewrite ipv6_entries_spec. split.
    - intros [H|(gs & g & Hl & Hg & Hf)];
        [exfalso; exact (split_not_nil _ _ H)|].
      exists gs, g. rewrite Hl in Hgroups.
      apply List.Forall_app in Hgroups as [Hgs Hg1].
      apply Forall_cons_1 in Hg1 as [Hg1 _].
      split; [exact Hl|]. split.
      + rewrite List.Forall_forall in Hg, Hgs |- *. intros x Hx.
        rewrite <- re_match_hex; auto.
      + rewrite <- re_match_hex; auto.
    - intros (gs & g & Hl & Hg & Hf). right. exists gs, g.
      rewrite Hl in Hgroups.
      apply List.Forall_app in Hgroups as [Hgs Hg1].
      apply Forall_cons_1 in Hg1 as [Hg1 _].
      split; [exact Hl|]. split.
      + rewrite List.Forall_forall in Hg, Hgs |- *. intros x Hx.
        rewrite re_match_hex; auto.
      + rewrite re_match_hex; auto. }
  destruct (Nat.ltb_spec 7 (PyStr.count ":" a)) as [Hmany|Hfew].
  { split; [discriminate|]. intros (H & _). lia. }
  destruct (Nat.eqb_spec (PyStr.count ":" a) 7) as [Hseven|Hnot];
    cbn [negb andb].
  - destruct (Nat.ltb_spec 1 (PyStr.count "::" a)) as [Htwo|Hone];
      cbn [orb].
    { split; [discriminate|]. intros (_ & _ & H & _). lia. }
    destruct (PyStr.contains ":::" a) eqn:Hthree.
    { split; [discriminate|]. intros (_ & _ & _ & H & _). discriminate. }
    rewrite Hloop. split; [intros H; repeat split; auto|].
    intros (_ & _ & _ & _ & H). exact H.
  - destruct (PyStr.contains "::" a) eqn:Hcollapse; cbn [negb].
    + destruct (Nat.ltb_spec 1 (PyStr.count "::" a)) as [Htwo|Hone];
        cbn [orb].
      { split; [discriminate|]. intros (_ & _ & H & _). lia. }
      destruct (PyStr.contains ":::" a) eqn:Hthree.
      { split; [discriminate|]. intros (_ & _ & _ & H & _). discriminate. }
      rewrite Hloop. split; [intros H; repeat split; auto|].
      intros (_ & _ & _ & _ & H). exact H.
    + split; [discriminate|]. intros (_ & [H|H] & _); congruence.
Qed.

(** An address with a collapsed run and an embedded IPv4 literal. *)
Lemma C6_ipv6_validator_witness :
  is_valid_ipv6_address "[::ffff:1.2.3.4]" = true.
Proof.
  apply (C6_ipv6_validator "[::ffff:1.2.3.4]"); [reflexivity|].
  split; [vm_compute; lia|].
  split; [right; reflexivity|].
  split; [vm_compute; lia|].
  split; [reflexivity|].
  exists [""; ""; "ffff"], "1.2.3.4".
  split; [reflexivity|]. split; [repeat constructor|].
  right. reflexivity.
Defined.

(** C6 fails as stated.  The full form "[1:2:3:4:5:6:7:8]" is accepted
    although it has eight groups and no "::"; "x::y" is accepted although
    it has no brackets to remove and "x" is no hexadecimal digit;
    "[:::]" is rejected although it has a single "::" and no "::::". *)
Lemma C6_counterexample :
  (is_valid_ipv6_address "[1:2:3:4:5:6:7:8]" = true
   /\ spec_valid_ipv6 "[1:2:3:4:5:6:7:8]" = false
   /\ List.length (PyStr.split ":" (remove_brackets "[1:2:3:4:5:6:7:8]"))
      = 8%nat
   /\ PyStr.count "::" (remove_brackets "[1:2:3:4:5:6:7:8]") = 0%nat)
  /\ (is_valid_ipv6_address "x::y" = true
      /\ spec_valid_ipv6 "x::y" = false)
  /\ (is_valid_ipv6_address "[:::]" = false
      /\ spec_valid_ipv6 "[:::]" = true).
Proof. repeat split; vm_compute; reflexivity. Qed.

(** The pattern is wider than the hexadecimal digits: a group of the
    letters G to Z passes, and so does a group ending in a newline. *)
Example ipv6_pattern_wider :
  is_valid_ipv6_address "[GHIJ::Z]" = true
  /\ re_match_group (String "a" (String "010" EmptyString)) = true.
Proof. split; vm_compute; reflexivity. Qed.

(** ** Stable sorting *)

Section Sorting.

Context {A : Type} (le : A -> A -> bool).
Hypothesis le_total : forall a b, le a b = true \/ le b a = true.
Hypothesis le_trans :
  forall a b c, le a b = true -> le b c = true -> le a c = true.

Lemma insert_by_perm (x : A) (l : list A) :
  Permutation (PyStr.insert_by le x l) (x :: l).
Proof.
  induction l as [|y l IH]; cbn [PyStr.insert_by]; [reflexivity|].
  destruct (le x y); [reflexivity|].
  rewrite IH. apply perm_swap.
Qed.

Lemma sorted_by_perm (l : list A) : Permutation (PyStr.sorted_by le l) l.
Proof.
  induction l as [|x l IH]; cbn [PyStr.sorted_by]; [reflexivity|].
  rewrite insert_by_perm. apply perm_skip, IH.
Qed.

Lemma in_insert_by (x y : A) (l : list A) :
  In y (PyStr.insert_by le x l) <-> y = x \/ In y l.
Proof.
  induction l as [|z l IH]; cbn [PyStr.insert_by In].
  - intuition congruence.
  - destruct (le x z); cbn [In]; [intuition congruence|].
    rewrite IH. intuition congruence.
Qed.

Lemma in_sorted_by (y : A) (l : list A) :
  In y (PyStr.sorted_by le l) <-> In y l.
Proof.
  induction l as [|x l IH]; cbn [PyStr.sorted_by In]; [reflexivity|].
  rewrite in_insert_by, IH. intuition congruence.
Qed.

Lemma insert_by_sorted (x : A) (l : list A) :
  StronglySorted (holds le) l -> StronglySorted (holds le) (PyStr.insert_by le x l).
Proof.
  induction 1 as [|y l Hl IH Hy]; cbn [PyStr.insert_by].
  - repeat constructor.
  - destruct (le x y) eqn:Exy.
    + constructor; [constructor; assumption|].
      constructor; [exact Exy|].
      rewrite List.Forall_forall in Hy |- *. intros z Hz.
      exact (le_trans _ _ _ Exy (Hy z Hz)).
    + constructor; [exact IH|].
      rewrite List.Forall_forall in Hy |- *. intros z Hz.
      apply in_insert_by in Hz as [->|Hz]; [|exact (Hy z Hz)].
      destruct (le_total x y) as [H|H]; [congruence | exact H].
Qed.

Lemma sorted_by_sorted (l : list A) :
  StronglySorted (holds le) (PyStr.sorted_by le l).
Proof.
  induction l as [|x l IH]; cbn [PyStr.sorted_by]; [constructor|].
  apply insert_by_sorted, IH.
Qed.

Variable keep : A -> bool.

Lemma insert_by_head (x : A) (l : list A) :
  Forall ((holds le) x) l -> PyStr.insert_by le x l = x :: l.
Proof.
  destruct 1 as [|y l Hy _]; cbn [PyStr.insert_by]; [reflexivity|].
  unfold holds in Hy. rewrite Hy. reflexivity.
Qed.

Lemma filter_insert_by_dropped (x : A) (l : list A) :
  keep x = false ->
  List.filter keep (PyStr.insert_by le x l) = List.filter keep l.
Proof.
  intros Hx. induction l as [|y l IH]; cbn [PyStr.insert_by List.filter].
  - rewrite Hx. reflexivity.
  - destruct (le x y); cbn [List.filter]; [rewrite Hx; reflexivity|].
    rewrite IH. reflexivity.
Qed.

Lemma filter_insert_by_kept (x : A) (l : list A) :
  keep x = true -> StronglySorted (holds le) l ->
  List.filter keep (PyStr.insert_by le x l)
  = PyStr.insert_by le x (List.filter keep l).
Proof.
  intros Hx. induction 1 as [|y l Hl IH Hy];
    cbn [PyStr.insert_by List.filter].
  - rewrite Hx. reflexivity.
  - destruct (le x y) eqn:Exy; cbn [List.filter]; rewrite ?Hx.
    + destruct (keep y); cbn [PyStr.insert_by]; [rewrite Exy; reflexivity|].
      symmetry. apply insert_by_head.
      rewrite List.Forall_forall in Hy |- *. intros z Hz.
      apply List.filter_In in Hz as [Hz _].
      exact (le_trans _ _ _ Exy (Hy z Hz)).
    + rewrite IH. destruct (keep y); cbn [PyStr.insert_by];
        [rewrite Exy|]; reflexivity.
Qed.

(** Leaving elements out commutes with the stable sort. *)
Lemma sorted_by_filter (l : list A) :
  PyStr.sorted_by le (List.filter keep l)
  = List.filter keep (PyStr.sorted_by le l).
Proof.
  induction l as [|x l IH]; cbn [PyStr.sorted_by List.filter];
    [reflexivity|].
  destruct (keep x) eqn:Hx; cbn [PyStr.sorted_by].
  - rewrite IH. symmetry.
    apply filter_insert_by_kept; [exact Hx | apply sorted_by_sorted].
  - rewrite IH. symmetry. apply filter_insert_by_dropped, Hx.
Qed.

End Sorting.

Lemma by_interval_total (a b : string * bucket) :
  by_interval a b = true \/ by_interval b a = true.
Proof. unfold by_interval. lia. Qed.

Lemma by_interval_trans (a b c : string * bucket) :
  by_interval a b = true -> by_interval b c = true -> by_interval a c = true.
Proof. unfold by_interval. lia. Qed.

(** The periods are walked by ascending interval. *)
Lemma sort_periods_sorted (h : history) :
  StronglySorted (fun a b => interval (snd a) <= interval (snd b))
    (sort_periods h).
Proof.
  pose proof (sorted_by_sorted by_interval by_interval_total
                by_interval_trans h) as H.
  unfold sort_periods. fold by_interval.
  induction H as [|a l Hl IH Ha]; constructor; [exact IH|].
  eapply List.Forall_impl; [|exact Ha]. intros b Hb.
  unfold holds, by_interval in Hb. lia.
Qed.

Lemma sort_periods_without (name : string) (h : history) :
  sort_periods (without name h) = without name (sort_periods h).
Proof.
  unfold sort_periods, without. fold by_interval.
  apply sorted_by_filter; [apply by_interval_total | apply by_interval_trans].
Qed.

Lemma sort_periods_in (p : string * bucket) (h : history) :
  In p (sort_periods h) <-> In p h.
Proof. apply in_sorted_by. Qed.

(** ** History extraction *)

Section Extraction.

Variable parse_ts : string -> result Z.
Variable now : Z.

(** A value whose timestamp is at or before the watermark is emitted
    and the watermark moves back to that timestamp. *)
Lemma visit_value_emits (i : Z) (st : walk_state) (v : option Z) :
  this_ts st <= newest st ->
  visit_value now i st v
  = {| this_ts := this_ts st - i;
       newest := this_ts st;
       generic_history :=
         generic_history st ++
         [ {| Sample.age := whole_seconds (now - this_ts st);
              Sample.length := whole_seconds i;
              Sample.value := v |} ] |}.
Proof.
  intros H. unfold visit_value.
  destruct (Z.leb_spec (this_ts st) (newest st)); [reflexivity | lia].
Qed.

(** A value whose timestamp is after the watermark is passed over. *)
Lemma visit_value_skips (i : Z) (st : walk_state) (v : option Z) :
  newest st < this_ts st ->
  visit_value now i st v
  = {| this_ts := this_ts st - i;
       newest := newest st;
       generic_history := generic_history st |}.
Proof.
  intros H. unfold visit_value.
  destruct (Z.leb_spec (this_ts st) (newest st)); [lia | reflexivity].
Qed.

Lemma visit_value_cases (i : Z) (st : walk_state) (v : option Z) :
  this_ts (visit_value now i st v) = this_ts st - i
  /\ newest (visit_value now i st v) <= newest st
  /\ newest (visit_value now i st v) <= this_ts st.
Proof.
  destruct (Z.le_gt_cases (this_ts st) (newest st)) as [H|H].
  - rewrite visit_value_emits by exact H. cbn. lia.
  - rewrite visit_value_skips by lia. cbn. lia.
Qed.

Lemma fold_this_ts (i : Z) (l : list (option Z)) :
  forall st,
    this_ts (fold_left (visit_value now i) l st)
    = this_ts st - Z.of_nat (List.length l) * i.
Proof.
  induction l as [|v l IH]; intros st; cbn [fold_left List.length].
  - lia.
  - rewrite IH. destruct (visit_value_cases i st v) as (-> & _). lia.
Qed.

Lemma fold_newest_le (i : Z) (l : list (option Z)) :
  forall st, newest (fold_left (visit_value now i) l st) <= newest st.
Proof.
  induction l as [|v l IH]; intros st; cbn [fold_left]; [lia|].
  specialize (IH (visit_value now i st v)).
  destruct (visit_value_cases i st v) as (_ & H & _). lia.
Qed.

(** After a period with values, the watermark is at or before the
    oldest timestamp of the period. *)
Lemma fold_newest_oldest (i : Z) (l : list (option Z)) :
  forall st, l <> [] ->
    newest (fold_left (visit_value now i) l st)
    <= this_ts st - (Z.of_nat (List.length l) - 1) * i.
Proof.
  induction l as [|v l IH]; intros st Hne; [congruence|].
  cbn [fold_left]. destruct (visit_value_cases i st v) as (Ht & _ & Hn).
  destruct l as [|w l].
  - cbn [fold_left List.length]. lia.
  - specialize (IH (visit_value now i st v) ltac:(discriminate)).
    rewrite Ht in IH. cbn [List.length] in IH |- *. lia.
Qed.

(** A period whose timestamps are all after the watermark emits
    nothing and leaves the watermark where it is. *)
Lemma fold_skip (i : Z) (l : list (option Z)) :
  0 <= i ->
  forall st,
    (l <> [] -> newest st < this_ts st - (Z.of_nat (List.length l) - 1) * i) ->
    newest (fold_left (visit_value now i) l st) = newest st
    /\ generic_history (fold_left (visit_value now i) l st)
       = generic_history st.
Proof.
  intros Hi. induction l as [|v l IH]; intros st H; [split; reflexivity|].
  specialize (H ltac:(discriminate)). cbn [List.length] in H.
  cbn [fold_left]. rewrite visit_value_skips by nia.
  match goal with |- context [fold_left _ l ?s] => specialize (IH s) end.
  cbn [newest this_ts generic_history] in IH. apply IH.
  intros Hne. destruct l; [congruence|]. cbn [List.length] in *. nia.
Qed.

Lemma visit_period_newest_le (st st' : Z * list Sample.t) (h : bucket) :
  visit_period parse_ts now st h = Ok st' -> fst st' <= fst st.
Proof.
  unfold visit_period. intros H. bind_inv H. bind_inv H.
  injection H as <-. cbn [fst]. unfold walk_values.
  etransitivity; [apply fold_newest_le|]. cbn. lia.
Qed.

Lemma visit_period_marks (st st' : Z * list Sample.t) (f : bucket)
  (lf : Z) :
  visit_period parse_ts now st f = Ok st' ->
  parse_ts (last f) = Ok lf -> values f <> [] ->
  fst st' <= oldest_ts f lf.
Proof.
  unfold visit_period. intros H Hl Hv. rewrite Hl, bind_Ok in H.
  bind_inv H. injection H as <-. cbn [fst]. unfold walk_values.
  etransitivity.
  - apply fold_newest_oldest. intros Hr. apply Hv.
    rewrite <- (rev_involutive (values f)), Hr. reflexivity.
  - cbn [this_ts]. rewrite length_rev. unfold oldest_ts, interval_td. lia.
Qed.

Lemma visit_period_skip (st : Z * list Sample.t) (c : bucket) (lc fc : Z) :
  parse_ts (last c) = Ok lc -> parse_ts (first c) = Ok fc ->
  0 <= interval c ->
  (values c <> [] -> fst st < oldest_ts c lc) ->
  visit_period parse_ts now st c = Ok st.
Proof.
  intros Hl Hf Hi Hst. unfold visit_period.
  rewrite Hl, bind_Ok, Hf, bind_Ok. unfold walk_values.
  match goal with
  | |- context [fold_left ?f ?l ?s] =>
      destruct (fold_skip (interval c * 1000000) l ltac:(lia) s) as [-> ->]
  end.
  - cbn [newest this_ts]. rewrite length_rev. intros Hr. apply Hst.
    intros Hnil. apply Hr. rewrite Hnil. reflexivity.
  - destruct st. reflexivity.
Qed.

End Extraction.

Section Overlap.

Variable parse_ts : string -> result Z.
Variable now : Z.

(** The coarse period [c], named [nc], and a bound [B] below all its
    timestamps. *)
Variables (nc : string) (c : bucket) (lc fc B : Z).
Hypothesis c_last : parse_ts (last c) = Ok lc.
Hypothesis c_first : parse_ts (first c) = Ok fc.
Hypothesis c_interval : 0 <= interval c.
Hypothesis c_after : values c <> [] -> B < oldest_ts c lc.

(** Once the watermark is at or before [B], the period [c] adds
    nothing, wherever it comes in the walk. *)
Lemma walk_periods_skip (ps : list (string * bucket)) :
  (forall b, In (nc, b) ps -> b = c) ->
  forall st, fst st <= B ->
    walk_periods parse_ts now ps st
    = walk_periods parse_ts now (without nc ps) st.
Proof.
  induction ps as [|[n b] ps IH]; intros Hc st Hst; [reflexivity|].
  cbn [walk_periods without List.filter fst snd].
  assert (Hps : forall b0, In (nc, b0) ps -> b0 = c)
    by (intros b0 Hb0; apply Hc; right; exact Hb0).
  destruct (String.eqb_spec n nc) as [->|Hn]; cbn [negb].
  - rewrite (Hc b (or_introl eq_refl)).
    rewrite (visit_period_skip parse_ts now st c lc fc c_last c_first
               c_interval) by (intros Hv; specialize (c_after Hv); lia).
    rewrite bind_Ok. apply (IH Hps st Hst).
  - cbn [walk_periods snd].
    destruct (visit_period parse_ts now st b) as [st'|e] eqn:E;
      [|reflexivity].
    rewrite !bind_Ok. apply (IH Hps).
    apply visit_period_newest_le in E. lia.
Qed.

(** The finer period [f], which leaves the watermark at or before [B]. *)
Variables (nf : string) (f : bucket) (lf : Z).
Hypothesis f_last : parse_ts (last f) = Ok lf.
Hypothesis f_values : values f <> [].
Hypothesis f_oldest : oldest_ts f lf <= B.
Hypothesis f_finer : interval f < interval c.

Lemma walk_periods_sorted (ps : list (string * bucket)) :
  StronglySorted (fun a b => interval (snd a) <= interval (snd b)) ps ->
  (forall b, In (nc, b) ps -> b = c) ->
  forall st, fst st <= B \/ In (nf, f) ps ->
    walk_periods parse_ts now ps st
    = walk_periods parse_ts now (without nc ps) st.
Proof.
  induction 1 as [|[n b] ps Hps IH Hhead]; intros Hc st Hst;
    [reflexivity|].
  destruct Hst as [Hst|Hin]; [apply walk_periods_skip; assumption|].
  assert (Hc' : forall b0, In (nc, b0) ps -> b0 = c)
    by (intros b0 Hb0; apply Hc; right; exact Hb0).
  cbn [walk_periods without List.filter fst snd].
  destruct (String.eqb_spec n nc) as [->|Hn]; cbn [negb].
  - exfalso. pose proof (Hc b (or_introl eq_refl)) as ->.
    destruct Hin as [[= _ <-]|Hin]; [lia|].
    rewrite List.Forall_forall in Hhead. specialize (Hhead _ Hin).
    cbn [snd] in Hhead. lia.
  - cbn [walk_periods snd].
    destruct (visit_period parse_ts now st b) as [st'|e] eqn:E;
      [|reflexivity].
    rewrite !bind_Ok. apply (IH Hc').
    destruct Hin as [[= -> ->]|Hin]; [left | right; exact Hin].
    pose proof (visit_period_marks parse_ts now st st' f lf E f_last
                  f_values). lia.
Qed.

End Overlap.

Lemma dict_lookup_unique {A : Type} (l : list (string * A)) (k : string)
  (a b : A) :
  NoDup (map fst l) -> In (k, a) l -> In (k, b) l -> a = b.
Proof.
  induction l as [|[k' x] l IH]; cbn [map fst In]; [intros _ []|].
  intros Hnd. apply NoDup_cons_1_1 in Hnd as Hk.
  apply NoDup_cons_1_2 in Hnd.
  assert (Hnot : forall y, In (k', y) l -> False).
  { intros y Hy. apply Hk. apply list_elem_of_In.
    apply (in_map fst) in Hy. exact Hy. }
  intros [Ha|Ha] [Hb|Hb].
  - congruence.
  - injection Ha as -> _. exfalso. eauto.
  - injection Hb as -> _. exfalso. eauto.
  - auto.
Qed.

(** ** The extraction, period by period *)

Section Characterisation.

Variable parse_ts : string -> result Z.
Variable now : Z.

Lemma stamps_le (i : Z) (l : list (option Z)) :
  0 <= i -> forall t, Forall (fun tv => fst tv <= t) (stamps t i l).
Proof.
  intros Hi. induction l as [|v l IH]; intros t; cbn [stamps]; constructor.
  - cbn. lia.
  - eapply List.Forall_impl; [|apply (IH (t - i))]. cbn. intros; lia.
Qed.

Lemma filter_at_or_before (w : Z) (l : list (Z * option Z)) :
  Forall (fun tv => fst tv <= w) l ->
  List.filter (fun tv => fst tv <=? w) l = l.
Proof.
  induction 1 as [|tv l Htv _ IH]; cbn [List.filter]; [reflexivity|].
  destruct (Z.leb_spec (fst tv) w); [rewrite IH; reflexivity | lia].
Qed.

(** The loop over the values of a period emits the values at or before
    the watermark it starts with, and leaves the watermark at the oldest
    timestamp if that is earlier. *)
Lemma fold_stamps (i : Z) (l : list (option Z)) :
  0 <= i ->
  forall st,
    generic_history (fold_left (visit_value now i) l st)
    = generic_history st
      ++ map (fun tv => {| Sample.age := whole_seconds (now - fst tv);
                           Sample.length := whole_seconds i;
                           Sample.value := snd tv |})
           (List.filter (fun tv => fst tv <=? newest st)
              (stamps (this_ts st) i l))
    /\ newest (fold_left (visit_value now i) l st)
       = match l with
         | [] => newest st
         | _ :: _ => Z.min (newest st)
                       (this_ts st - (Z.of_nat (List.length l) - 1) * i)
         end.
Proof.
  intros Hi. induction l as [|v l IH]; intros st.
  - cbn. rewrite app_nil_r. split; reflexivity.
  - cbn [fold_left stamps List.filter fst].
    assert (Hlen : 0 <= Z.of_nat (List.length l) * i)
      by (apply Z.mul_nonneg_nonneg; lia).
    destruct (Z.leb_spec (this_ts st) (newest st)) as [Hle|Hgt].
    + rewrite visit_value_emits by exact Hle.
      match goal with
      | |- context [fold_left _ l ?s] => destruct (IH s) as [Hg Hn]
      end.
      cbn [this_ts newest generic_history] in Hg, Hn. rewrite Hg, Hn.
      split.
      * rewrite !filter_at_or_before.
        -- cbn [map fst snd]. rewrite <- app_assoc. reflexivity.
        -- eapply List.Forall_impl; [|apply (stamps_le i l Hi)].
           cbn. intros; lia.
        -- eapply List.Forall_impl; [|apply (stamps_le i l Hi)].
           cbn. intros; lia.
      * destruct l as [|v' l]; cbn [List.length] in *; lia.
    + rewrite visit_value_skips by exact Hgt.
      match goal with
      | |- context [fold_left _ l ?s] => destruct (IH s) as [Hg Hn]
      end.
      cbn [this_ts newest generic_history] in Hg, Hn. rewrite Hg, Hn.
      split; [reflexivity|].
      destruct l as [|v' l]; cbn [List.length] in *; lia.
Qed.

Lemma visit_period_kept (st : Z * list Sample.t) (b : bucket)
  (l fts : Z) :
  0 <= interval b ->
  parse_ts (last b) = Ok l -> parse_ts (first b) = Ok fts ->
  visit_period parse_ts now st b
  = Ok (moved (fst st) l b, snd st ++ kept now (fst st) l b).
Proof.
  intros Hi Hl Hf. unfold visit_period. cbv zeta.
  rewrite Hl, bind_Ok, Hf, bind_Ok. unfold walk_values.
  match goal with
  | |- context [fold_left ?f ?vs ?s] =>
      destruct (fold_stamps (interval b * 1000000) vs ltac:(lia) s)
        as [Hg Hn]
  end.
  rewrite Hg, Hn. cbn [this_ts newest generic_history].
  unfold kept, stamped, sample_at, moved, oldest_ts, interval_td.
  rewrite length_rev. f_equal. f_equal.
  destruct (values b) as [|v vs] eqn:Ev; [reflexivity|].
  destruct (rev (v :: vs)) as [|x xs] eqn:Er; [|reflexivity].
  apply (f_equal (@List.length _)) in Er. rewrite length_rev in Er.
  discriminate.
Qed.

Lemma walk_periods_expected (ps : list (string * bucket)) :
  readable parse_ts ps ->
  forall st, exists w,
    walk_periods parse_ts now ps st
    = Ok (w, snd st ++ expected parse_ts now (fst st) ps).
Proof.
  induction 1 as [|p ps (Hi & (l & Hl) & (fts & Hf)) _ IH]; intros st.
  - exists (fst st). cbn. rewrite app_nil_r. destruct st; reflexivity.
  - cbn [walk_periods expected].
    rewrite (visit_period_kept st (snd p) l fts Hi Hl Hf), bind_Ok.
    match goal with
    | |- context [walk_periods _ _ ps ?s] => destruct (IH s) as [w Hw]
    end.
    exists w. rewrite Hw. cbn [fst snd]. cbv zeta.
    unfold parsed. rewrite Hl, app_assoc. reflexivity.
Qed.

Lemma readable_sorted (h : history) :
  readable parse_ts h -> readable parse_ts (sort_periods h).
Proof.
  unfold readable. rewrite !List.Forall_forall. intros H p Hp.
  apply H, sort_periods_in, Hp.
Qed.

End Characterisation.




(** The week and the month of the comment in the source: the month
    ends inside the week and reaches further back; its value at 06:00
    comes after the oldest timestamp of the week and is passed over, its
    value at 02:00 is emitted. *)
Example extraction_of_flag_history :
  _extract_generic_history example_parse_ts noon flag_history
  = Ok [ {| Sample.age := 16200; Sample.length := 3600;
            Sample.value := Some 997 |};
         {| Sample.age := 19800; Sample.length := 3600;
            Sample.value := Some 998 |};
         {| Sample.age := 23400; Sample.length := 3600;
            Sample.value := Some 999 |};
         {| Sample.age := 36000; Sample.length := 14400;
            Sample.value := Some 500 |} ].
Proof. vm_compute. reflexivity. Qed.

(** ** More on the blacklist *)

(** A line with the fingerprint alone matches the relay. *)
Lemma blacklist_fingerprint_alone (self : Candidate) :
  is_in_blacklist self [[("id", _fpr self)]] = Ok true.
Proof.
  cbn [is_in_blacklist blacklist_keys]. unfold blacklist_key.
  cbn [String.eqb Ascii.eqb Bool.eqb andb]. rewrite String.eqb_refl.
  reflexivity.
Qed.

(** A line with an IPv4 address and no port matches every relay at that
    address, whatever its ports. *)
Lemma blacklist_ipv4_alone (self : Candidate) :
  is_in_blacklist self [[("ipv4", dirip self)]] = Ok true.
Proof.
  cbn [is_in_blacklist blacklist_keys]. unfold blacklist_key, has_key.
  cbn [String.eqb Ascii.eqb Bool.eqb andb entry_get]. rewrite String.eqb_refl.
  reflexivity.
Qed.

(** A line with the relay's IPv6 address and port and another DirPort
    does not match either. *)
Example blacklist_ipv6_needs_dirport :
  ipv6_of candidate_v6 = "[::1]:9002"
  /\ is_in_blacklist candidate_v6 [blacklist_line_v6] = Ok false
  /\ is_in_blacklist candidate_v6 [rev blacklist_line_v6] = Ok false.
Proof. repeat split; vm_compute; reflexivity. Qed.

(** * Further properties *)

(** ** Cleansing of text *)

Lemma for_each_blank (chars : string) (a : ascii) (s : string) :
  for_each_char blank_char chars (String a s)
  = String (match for_each_char blank_char chars (String a EmptyString) with
            | String b _ => b
            | EmptyString => a
            end)
      (for_each_char blank_char chars s).
Proof.
  revert a s. induction chars as [|c chars IH]; intros a s; [reflexivity|].
  cbn [for_each_char blank_char]. rewrite IH. rewrite (IH _ EmptyString).
  reflexivity.
Qed.

Lemma cleanse_whitespace_map (s : string) :
  cleanse_whitespace s
  = str_map (fun a => if char_in a whitespace then " "%char else a) s.
Proof.
  unfold cleanse_whitespace. induction s as [|a s IH]; [reflexivity|].
  rewrite for_each_blank, IH. cbn [str_map]. f_equal.
  destruct a as [[] [] [] [] [] [] [] []]; reflexivity.
Qed.

Lemma cleanse_unprintable_filter (s : string) :
  cleanse_unprintable s = str_filter printable s.
Proof. induction s as [|a s IH]; cbn; [|rewrite IH]; reflexivity. Qed.

Lemma remove_char_filter (c : ascii) (s : string) :
  remove_char c s = str_filter (fun a => negb (Ascii.eqb a c)) s.
Proof.
  induction s as [|a s IH]; cbn; [reflexivity|].
  rewrite IH. destruct (Ascii.eqb a c); reflexivity.
Qed.

Lemma str_filter_filter (p q : ascii -> bool) (s : string) :
  str_filter q (str_filter p s) = str_filter (fun a => p a && q a) s.
Proof.
  induction s as [|a s IH]; cbn; [reflexivity|].
  destruct (p a); cbn; [destruct (q a)|]; rewrite IH; reflexivity.
Qed.

Lemma str_filter_ext (p q : ascii -> bool) (s : string) :
  (forall a, p a = q a) -> str_filter p s = str_filter q s.
Proof.
  intros H. induction s as [|a s IH]; cbn; [reflexivity|].
  rewrite H, IH. reflexivity.
Qed.

Lemma str_filter_all (p : ascii -> bool) (s : string) :
  PyStr.all p s = true -> str_filter p s = s.
Proof.
  induction s as [|a s IH]; cbn; [reflexivity|]. intros H.
  apply andb_true_iff in H as [Ha Hs]. rewrite Ha, (IH Hs). reflexivity.
Qed.

Lemma all_true (p : ascii -> bool) (s : string) :
  (forall a, p a = true) -> PyStr.all p s = true.
Proof.
  intros H. induction s as [|a s IH]; cbn; [reflexivity|].
  rewrite H, IH. reflexivity.
Qed.

Lemma remove_bad_chars_filter (bad s : string) :
  remove_bad_chars s bad = str_filter (fun a => negb (char_in a bad)) s.
Proof.
  unfold remove_bad_chars. revert s.
  induction bad as [|c bad IH]; intros s; cbn [for_each_char char_in].
  - symmetry. apply str_filter_all, all_true. reflexivity.
  - rewrite IH, remove_char_filter, str_filter_filter.
    apply str_filter_ext. intros a. rewrite negb_orb. reflexivity.
Qed.

Lemma all_str_filter (p q : ascii -> bool) (s : string) :
  (forall a, q a = true -> p a = true) ->
  PyStr.all p (str_filter q s) = true.
Proof.
  intros H. induction s as [|a s IH]; cbn; [reflexivity|].
  destruct (q a) eqn:E; [|exact IH]. cbn. rewrite (H a E). exact IH.
Qed.

Lemma all_str_filter_map (p q : ascii -> bool) (f : ascii -> ascii)
  (s : string) :
  (forall a, q (f a) = true -> p (f a) = true) ->
  PyStr.all p (str_filter q (str_map f s)) = true.
Proof.
  intros H. induction s as [|a s IH]; cbn; [reflexivity|].
  destruct (q (f a)) eqn:E; [|exact IH]. cbn. rewrite (H a E). exact IH.
Qed.

Lemma cleanse_c_string_all_safe (s : string) :
  PyStr.all safe_in_c_string (cleanse_c_string s) = true.
Proof.
  unfold cleanse_c_string.
  rewrite remove_bad_chars_filter, cleanse_unprintable_filter,
    cleanse_whitespace_map, str_filter_filter.
  apply all_str_filter_map. intros a.
  destruct a as [[] [] [] [] [] [] [] []]; vm_compute; congruence.
Qed.


Lemma cleanse_c_multiline_comment_all_safe (s : string) :
  PyStr.all safe_in_c_comment (cleanse_c_multiline_comment s) = true
  /\ PyStr.contains "*/" (cleanse_c_multiline_comment s) = false
  /\ PyStr.contains "/*" (cleanse_c_multiline_comment s) = false.
Proof.
  assert (Hall : PyStr.all safe_in_c_comment (cleanse_c_multiline_comment s)
                 = true).
  { unfold cleanse_c_multiline_comment.
    rewrite remove_bad_chars_filter, cleanse_unprintable_filter,
      cleanse_whitespace_map, str_filter_filter.
    apply all_str_filter_map. intros a.
    destruct a as [[] [] [] [] [] [] [] []]; vm_compute; congruence. }
  split; [exact Hall|].
  induction (cleanse_c_multiline_comment s) as [|a t IH]; [split; reflexivity|].
  cbn [PyStr.all] in Hall. apply andb_true_iff in Hall as [Ha Ht].
  destruct (IH Ht) as [IH1 IH2]. cbn [PyStr.contains]. rewrite IH1, IH2.
  unfold safe_in_c_comment in Ha.
  apply andb_true_iff in Ha as [Ha Hslash].
  apply andb_true_iff in Ha as [_ Hstar].
  apply negb_true_iff in Hslash, Hstar.
  cbn [String.prefix]. destruct (Ascii.ascii_dec "*" a) as [<-|Hn1];
    [discriminate|].
  destruct (Ascii.ascii_dec "/" a) as [<-|Hn2]; [discriminate|].
  split; reflexivity.
Qed.

(** What [cleanse_c_multiline_comment] returns holds only characters from
    the space to the tilde without star and slash, so it can neither close
    the comment it is put in nor open another. *)
Theorem cleanse_c_multiline_comment_safe (s : string) :
  PyStr.all safe_in_c_comment (cleanse_c_multiline_comment s) = true
  /\ PyStr.contains "*/" (cleanse_c_multiline_comment s) = false
  /\ PyStr.contains "/*" (cleanse_c_multiline_comment s) = false.
Proof. apply cleanse_c_multiline_comment_all_safe. Qed.

Lemma str_filter_map_fixed (p q : ascii -> bool) (f : ascii -> ascii)
  (s : string) :
  (forall a, p a = true -> f a = a /\ q a = true) ->
  PyStr.all p s = true -> str_filter q (str_map f s) = s.
Proof.
  intros H. induction s as [|a s IH]; cbn; [reflexivity|]. intros Hs.
  apply andb_true_iff in Hs as [Ha Hs]. destruct (H a Ha) as [-> ->].
  rewrite (IH Hs). reflexivity.
Qed.

Lemma cleanse_c_string_fixed (s : string) :
  PyStr.all safe_in_c_string s = true -> cleanse_c_string s = s.
Proof.
  intros H. unfold cleanse_c_string.
  rewrite remove_bad_chars_filter, cleanse_unprintable_filter,
    cleanse_whitespace_map, str_filter_filter.
  apply (str_filter_map_fixed safe_in_c_string); [|exact H].
  intros a. destruct a as [[] [] [] [] [] [] [] []]; vm_compute;
    solve [discriminate | split; reflexivity].
Qed.

(** Text that is already safe goes through [cleanse_c_string]
    unchanged. *)
Theorem cleanse_c_string_keeps_safe_text (s : string) :
  PyStr.all safe_in_c_string s = true -> cleanse_c_string s = s.
Proof. apply cleanse_c_string_fixed. Qed.

Lemma cleanse_c_string_keeps_safe_text_witness :
  cleanse_c_string "Unnamed relay <tor at example dot org>"
  = "Unnamed relay <tor at example dot org>".
Proof.
  apply (cleanse_c_string_keeps_safe_text
           "Unnamed relay <tor at example dot org>").
  reflexivity.
Defined.

Lemma cleanse_c_multiline_comment_keeps_safe_text (s : string) :
  PyStr.all safe_in_c_comment s = true -> cleanse_c_multiline_comment s = s.
Proof.
  intros H. unfold cleanse_c_multiline_comment.
  rewrite remove_bad_chars_filter, cleanse_unprintable_filter,
    cleanse_whitespace_map, str_filter_filter.
  apply (str_filter_map_fixed safe_in_c_comment); [|exact H].
  intros a. destruct a as [[] [] [] [] [] [] [] []]; vm_compute;
    solve [discriminate | split; reflexivity].
Qed.

(** Cleansing twice is cleansing once, for both cleansing functions. *)
Theorem cleansing_idempotent (s : string) :
  cleanse_c_string (cleanse_c_string s) = cleanse_c_string s
  /\ cleanse_c_multiline_comment (cleanse_c_multiline_comment s)
     = cleanse_c_multiline_comment s.
Proof.
  split.
  - apply cleanse_c_string_fixed, cleanse_c_string_all_safe.
  - apply cleanse_c_multiline_comment_keeps_safe_text,
      cleanse_c_multiline_comment_all_safe.
Qed.

(** ** Stable order of the addresses *)

Lemma string_compare_trans (a : string) :
  forall b c,
    String.compare a b <> Gt -> String.compare b c <> Gt ->
    String.compare a c <> Gt.
Proof.
  induction a as [|x a IH]; intros [|y b] [|z c]; cbn; try congruence.
  unfold Ascii.compare.
  destruct (N.compare_spec (N_of_ascii x) (N_of_ascii y)) as [Hxy|Hxy|Hxy],
    (N.compare_spec (N_of_ascii y) (N_of_ascii z)) as [Hyz|Hyz|Hyz],
    (N.compare_spec (N_of_ascii x) (N_of_ascii z)) as [Hxz|Hxz|Hxz];
    try congruence; try lia.
  apply IH.
Qed.

Lemma string_leb_trans (a b c : string) :
  String.leb a b = true -> String.leb b c = true -> String.leb a c = true.
Proof.
  unfold String.leb. intros Hab Hbc.
  pose proof (string_compare_trans a b c) as H.
  destruct (String.compare a b), (String.compare b c), (String.compare a c);
    try discriminate Hab; try discriminate Hbc; try reflexivity;
    exfalso; apply H; congruence.
Qed.

Section SortedLists.

Context {A : Type} (le : A -> A -> bool).
Hypothesis le_total : forall a b, le a b = true \/ le b a = true.
Hypothesis le_trans :
  forall a b c, le a b = true -> le b c = true -> le a c = true.
Hypothesis le_antisym : forall a b, le a b = true -> le b a = true -> a = b.

Lemma sorted_by_fixed (l : list A) :
  StronglySorted (holds le) l -> PyStr.sorted_by le l = l.
Proof.
  induction 1 as [|x l Hl IH Hx]; cbn [PyStr.sorted_by]; [reflexivity|].
  rewrite IH. apply insert_by_head, Hx.
Qed.

Lemma sorted_unique (l1 : list A) :
  forall l2, StronglySorted (holds le) l1 -> StronglySorted (holds le) l2 ->
             Permutation l1 l2 -> l1 = l2.
Proof.
  induction l1 as [|a l1 IH]; intros l2 H1 H2 Hp.
  - apply Permutation_nil in Hp. congruence.
  - destruct l2 as [|b l2];
      [apply Permutation_sym, Permutation_nil in Hp; discriminate|].
    apply StronglySorted_inv in H1 as [H1 Ha].
    apply StronglySorted_inv in H2 as [H2 Hb].
    rewrite List.Forall_forall in Ha, Hb.
    assert (a = b) as <-.
    { assert (Hina : In a (b :: l2))
        by (eapply Permutation_in; [exact Hp | left; reflexivity]).
      assert (Hinb : In b (a :: l1))
        by (eapply Permutation_in;
            [apply Permutation_sym; exact Hp | left; reflexivity]).
      destruct Hina as [->|Hina]; [reflexivity|].
      destruct Hinb as [->|Hinb]; [reflexivity|].
      apply le_antisym; [apply Ha, Hinb | apply Hb, Hina]. }
    f_equal. apply IH; auto. eapply Permutation_cons_inv. exact Hp.
Qed.

(** The stable sort of a list depends on its elements only, not on
    their order. *)
Lemma sorted_by_order_independent (l1 l2 : list A) :
  Permutation l1 l2 -> PyStr.sorted_by le l1 = PyStr.sorted_by le l2.
Proof.
  intros Hp. apply sorted_unique.
  - apply sorted_by_sorted; assumption.
  - apply sorted_by_sorted; assumption.
  - rewrite !sorted_by_perm. exact Hp.
Qed.

End SortedLists.

Lemma stable_sort_fixed (addresses : list string) :
  Permutation (_stable_sort_or_addresses addresses) addresses
  /\ head (_stable_sort_or_addresses addresses) = head addresses
  /\ _stable_sort_or_addresses (_stable_sort_or_addresses addresses)
     = _stable_sort_or_addresses addresses.
Proof.
  unfold _stable_sort_or_addresses, PyStr.sorted.
  destruct addresses as [|p rest]; [repeat split; reflexivity|].
  cbn [firstn skipn app head]. split; [|split].
  - apply perm_skip, sorted_by_perm.
  - reflexivity.
  - f_equal. apply sorted_by_fixed.
    apply sorted_by_sorted; [apply String.leb_total | apply string_leb_trans].
Qed.

(** Stabilising the addresses loses none and adds none, and keeps the
    primary address in front; doing it twice changes nothing more. *)
Theorem _stable_sort_or_addresses_idempotent (addresses : list string) :
  Permutation (_stable_sort_or_addresses addresses) addresses
  /\ head (_stable_sort_or_addresses addresses) = head addresses
  /\ _stable_sort_or_addresses (_stable_sort_or_addresses addresses)
     = _stable_sort_or_addresses addresses.
Proof. apply stable_sort_fixed. Qed.

(** The stabilised list does not depend on the order in which the source
    reports the secondary addresses. *)
Theorem _stable_sort_or_addresses_order_independent (primary : string)
  (secondaries secondaries' : list string) :
  Permutation secondaries secondaries' ->
  _stable_sort_or_addresses (primary :: secondaries)
  = _stable_sort_or_addresses (primary :: secondaries').
Proof.
  intros Hp. unfold _stable_sort_or_addresses, PyStr.sorted.
  cbn [firstn skipn app]. f_equal.
  apply sorted_by_order_independent;
    [apply String.leb_total | apply string_leb_trans
     | apply String.leb_antisym | exact Hp].
Qed.

Lemma _stable_sort_or_addresses_order_independent_witness :
  _stable_sort_or_addresses ["1.2.3.4:9001"; "[::2]:9001"; "[::1]:9002"]
  = _stable_sort_or_addresses ["1.2.3.4:9001"; "[::1]:9002"; "[::2]:9001"].
Proof.
  apply (_stable_sort_or_addresses_order_independent "1.2.3.4:9001"
           ["[::2]:9001"; "[::1]:9002"] ["[::1]:9002"; "[::2]:9001"]).
  apply perm_swap.
Defined.

(** ** Splitting and joining *)

Lemma append_nil_l (s : string) : EmptyString +:+ s = s.
Proof. reflexivity. Qed.

Lemma append_cons (a : ascii) (s t : string) :
  String a s +:+ t = String a (s +:+ t).
Proof. reflexivity. Qed.

Lemma split_free (sep : ascii) (s : string) :
  free_of sep s = true -> PyStr.split sep s = [s].
Proof.
  unfold free_of. induction s as [|a s IH]; cbn [PyStr.split PyStr.all];
    [reflexivity|].
  intros H. apply andb_true_iff in H as [Ha Hs].
  apply negb_true_iff in Ha. rewrite Ha, (IH Hs). reflexivity.
Qed.

Lemma split_app (sep : ascii) (a t : string) :
  free_of sep a = true ->
  PyStr.split sep (a +:+ String sep t) = a :: PyStr.split sep t.
Proof.
  unfold free_of. induction a as [|x a IH];
    rewrite ?append_nil_l, ?append_cons; cbn [PyStr.split PyStr.all].
  - intros _. rewrite Ascii.eqb_refl. reflexivity.
  - intros H. apply andb_true_iff in H as [Hx Ha].
    apply negb_true_iff in Hx. rewrite Hx, (IH Ha). reflexivity.
Qed.

Lemma split_parts_free (sep : ascii) (s : string) :
  Forall (fun p => free_of sep p = true) (PyStr.split sep s).
Proof.
  induction s as [|a s IH]; cbn [PyStr.split].
  - repeat constructor.
  - destruct (Ascii.eqb a sep) eqn:E; [constructor; [reflexivity|exact IH]|].
    destruct (PyStr.split sep s) as [|h t]; [repeat constructor|].
    + unfold free_of. cbn. rewrite E. reflexivity.
    + apply Forall_cons_1 in IH as [Hh Ht]. constructor; [|exact Ht].
      unfold free_of in *. cbn. rewrite E, Hh. reflexivity.
Qed.

Lemma concat_cons (sep x : string) (l : list string) :
  l <> [] -> String.concat sep (x :: l) = x +:+ sep +:+ String.concat sep l.
Proof. destruct l; [congruence | reflexivity]. Qed.

Lemma concat_head (sep : string) (a : ascii) (h : string) (t : list string) :
  String.concat sep (String a h :: t) = String a (String.concat sep (h :: t)).
Proof. destruct t; reflexivity. Qed.

(** Joining the parts of a split with the separator gives the string
    back. *)
Lemma split_join (sep : ascii) (s : string) :
  String.concat (String sep EmptyString) (PyStr.split sep s) = s.
Proof.
  induction s as [|a s IH]; [reflexivity|]. cbn [PyStr.split].
  pose proof (split_not_nil sep s) as Hnil.
  destruct (Ascii.eqb_spec a sep) as [->|Hne].
  - rewrite concat_cons, IH by exact Hnil. reflexivity.
  - destruct (PyStr.split sep s) as [|h t] eqn:E; [contradiction|].
    rewrite concat_head, IH. reflexivity.
Qed.

(** ** The IPv4 validator *)

Lemma digits_value_nonneg (s : string) :
  forall acc, 0 <= acc -> PyStr.all PyStr.is_digit s = true ->
              0 <= PyStr.digits_value acc s.
Proof.
  induction s as [|a s IH]; cbn [PyStr.digits_value PyStr.all]; intros acc Hacc H;
    [exact Hacc|].
  apply andb_true_iff in H as [Ha Hs]. apply IH; [|exact Hs].
  unfold PyStr.is_digit, PyStr.in_range in Ha.
  apply andb_true_iff in Ha as [Hlo _]. apply N.leb_le in Hlo.
  change (PyStr.code "0") with 48%N in Hlo. lia.
Qed.

Lemma isdigit_all (e : string) :
  PyStr.isdigit e = true -> PyStr.all PyStr.is_digit e = true.
Proof. destruct e; [discriminate | auto]. Qed.

Lemma isdigit_free_of_dot (e : string) :
  PyStr.isdigit e = true -> free_of "." e = true.
Proof.
  intros H. apply isdigit_all in H. unfold free_of.
  induction e as [|a e IH]; [reflexivity|]. cbn [PyStr.all] in *.
  apply andb_true_iff in H as [Ha He]. rewrite (IH He), andb_true_r.
  destruct (Ascii.eqb_spec a ".") as [->|]; [discriminate Ha | reflexivity].
Qed.

Lemma ipv4_entries_octets (entries : list string) :
  ipv4_entries entries = forallb octet entries.
Proof.
  induction entries as [|e rest IH]; [reflexivity|].
  cbn [ipv4_entries forallb]. rewrite IH. unfold octet.
  destruct (PyStr.isdigit e) eqn:Hd; cbn [negb orb andb]; [|reflexivity].
  pose proof (digits_value_nonneg e 0 ltac:(lia) (isdigit_all e Hd)) as Hnn.
  destruct (Z.ltb_spec (PyStr.digits_value 0 e) 0); [lia|]. cbn [orb].
  destruct (Z.leb_spec (PyStr.digits_value 0 e) 255) as [Hle|Hgt].
  - assert ((PyStr.digits_value 0 e >? 255) = false) as -> by lia.
    cbn [andb]. destruct e as [|a [|b e]]; [discriminate Hd| |].
    + cbn [String.length Nat.ltb Nat.leb andb].
      rewrite andb_false_r. destruct (Ascii.eqb_spec a "0") as [->|Hne].
      * reflexivity.
      * cbn [negb]. rewrite orb_true_r. reflexivity.
    + cbn [String.length Nat.ltb Nat.leb]. rewrite andb_true_r.
      destruct (Ascii.eqb a "0") eqn:Ea; cbn [negb orb].
      * cbn [String.eqb]. rewrite Ea. cbn [String.eqb]. reflexivity.
      * rewrite orb_true_r. reflexivity.
  - assert ((PyStr.digits_value 0 e >? 255) = true) as -> by lia. reflexivity.
Qed.

(** The IPv4 validator accepts exactly the strings [a.b.c.d] whose four
    parts are decimal numerals from 0 to 255 without leading zero. *)
Theorem is_valid_ipv4_address_spec (address : string) :
  is_valid_ipv4_address address = true <->
  exists a b c d,
    address = a +:+ "." +:+ b +:+ "." +:+ c +:+ "." +:+ d
    /\ octet a = true /\ octet b = true /\ octet c = true
    /\ octet d = true.
Proof.
  unfold is_valid_ipv4_address. rewrite ipv4_entries_octets.
  pose proof (split_length "." address) as Hlen.
  pose proof (split_join "." address) as Hjoin.
  split.
  - destruct (Nat.eqb_spec (PyStr.count "." address) 3) as [Hc|Hc];
      cbn [negb]; [|discriminate].
    rewrite Hc in Hlen.
    destruct (PyStr.split "." address) as [|a [|b [|c [|d [|x l]]]]];
      try discriminate Hlen.
    cbn [forallb]. rewrite !andb_true_iff. intros (Ha & Hb & Hc' & Hd & _).
    exists a, b, c, d. cbn [String.concat] in Hjoin. auto.
  - intros (a & b & c & d & -> & Ha & Hb & Hc & Hd).
    assert (Hoct : forall e, octet e = true -> free_of "." e = true).
    { intros e He. apply isdigit_free_of_dot. unfold octet in He.
      apply andb_true_iff in He as [He _].
      apply andb_true_iff in He as [He _]. exact He. }
    assert (Hs : PyStr.split "." (a +:+ "." +:+ b +:+ "." +:+ c +:+ "." +:+ d)
                 = [a; b; c; d]).
    { change (a +:+ "." +:+ b +:+ "." +:+ c +:+ "." +:+ d)
        with (a +:+ String "." (b +:+ String "." (c +:+ String "." d))).
      rewrite !split_app, split_free by auto. reflexivity. }
    rewrite Hs in Hlen |- *. cbn [List.length] in Hlen.
    injection Hlen as Hlen. rewrite <- Hlen. cbn [Nat.eqb negb forallb].
    rewrite Ha, Hb, Hc, Hd. reflexivity.
Qed.

(** ** Addresses and ports *)

Lemma cut_last_none (sep : ascii) (s : string) :
  PyStr.cut_last sep s = None <-> free_of sep s = true.
Proof.
  unfold free_of. induction s as [|a s IH]; cbn [PyStr.cut_last PyStr.all];
    [split; reflexivity|].
  destruct (PyStr.cut_last sep s) as [[l r]|].
  - split; [discriminate|]. intros H. apply andb_true_iff in H as [_ H].
    apply IH in H. discriminate.
  - destruct (Ascii.eqb a sep); cbn [negb andb];
      [split; discriminate|].
    split; [intros _; apply IH; reflexivity | reflexivity].
Qed.

Lemma cut_last_sound (sep : ascii) (s : string) :
  forall l r, PyStr.cut_last sep s = Some (l, r) ->
              s = l +:+ String sep r /\ free_of sep r = true.
Proof.
  induction s as [|a s IH]; intros l r; cbn [PyStr.cut_last];
    [discriminate|].
  destruct (PyStr.cut_last sep s) as [[l' r']|] eqn:E.
  - intros [= <- <-]. destruct (IH l' r' eq_refl) as [-> Hr]. auto.
  - destruct (Ascii.eqb_spec a sep) as [->|Hne]; [|discriminate].
    intros [= <- <-]. split; [reflexivity|]. apply cut_last_none, E.
Qed.

Lemma cut_last_complete (sep : ascii) (l r : string) :
  free_of sep r = true ->
  PyStr.cut_last sep (l +:+ String sep r) = Some (l, r).
Proof.
  intros Hr. induction l as [|x l IH]; rewrite ?append_nil_l, ?append_cons;
    cbn [PyStr.cut_last].
  - rewrite (proj2 (cut_last_none sep r) Hr), Ascii.eqb_refl. reflexivity.
  - rewrite IH. reflexivity.
Qed.

Lemma cut_last_some (sep : ascii) (s l r : string) :
  PyStr.cut_last sep s = Some (l, r) <->
  s = l +:+ String sep r /\ free_of sep r = true.
Proof.
  split; [apply cut_last_sound|]. intros [-> Hr].
  apply cut_last_complete, Hr.
Qed.

(** [(a, b) = s.rsplit(':', 1)] succeeds exactly on the strings with a
    colon, and cuts at the last one. *)
Lemma rsplit1_unpack (sep : ascii) (s l r : string) :
  PyStr.unpack2 (PyStr.rsplit1 sep s) = Ok (l, r) <->
  s = l +:+ String sep r /\ free_of sep r = true.
Proof.
  rewrite <- cut_last_some. unfold PyStr.rsplit1.
  destruct (PyStr.cut_last sep s) as [[l' r']|]; cbn [PyStr.unpack2].
  - split; congruence.
  - split; discriminate.
Qed.

Lemma split_max_free (sep : ascii) (n : nat) (s : string) :
  free_of sep s = true -> PyStr.split_max sep n s = [s].
Proof.
  unfold free_of. induction s as [|a s IH]; cbn [PyStr.split_max PyStr.all];
    [reflexivity|].
  intros H. apply andb_true_iff in H as [Ha Hs].
  apply negb_true_iff in Ha. destruct n; [reflexivity|].
  rewrite Ha, (IH Hs). reflexivity.
Qed.

Lemma split_max_app (sep : ascii) (n : nat) (a t : string) :
  free_of sep a = true ->
  PyStr.split_max sep (S n) (a +:+ String sep t)
  = a :: PyStr.split_max sep n t.
Proof.
  unfold free_of. induction a as [|x a IH];
    rewrite ?append_nil_l, ?append_cons; cbn [PyStr.split_max PyStr.all].
  - intros _. rewrite Ascii.eqb_refl. reflexivity.
  - intros H. apply andb_true_iff in H as [Hx Ha].
    apply negb_true_iff in Hx. rewrite Hx, (IH Ha). reflexivity.
Qed.

Lemma split_max_zero (sep : ascii) (s : string) :
  PyStr.split_max sep 0 s = [s].
Proof. destruct s; reflexivity. Qed.

Lemma split_max_head (sep : ascii) (n : nat) (s : string) :
  exists a rest,
    PyStr.split_max sep (S n) s = a :: rest
    /\ free_of sep a = true
    /\ ((rest = [] /\ s = a)
        \/ exists t, s = a +:+ String sep t
                     /\ rest = PyStr.split_max sep n t).
Proof.
  induction s as [|x s IH]; cbn [PyStr.split_max].
  - exists EmptyString, []. auto.
  - destruct (Ascii.eqb_spec x sep) as [->|Hne].
    + exists EmptyString, (PyStr.split_max sep n s).
      split; [reflexivity|]. split; [reflexivity|]. right. exists s. auto.
    + destruct IH as (a & rest & -> & Ha & Hrest).
      exists (String x a), rest. split; [reflexivity|]. split.
      * unfold free_of in *. cbn [PyStr.all]. rewrite Ha.
        destruct (Ascii.eqb_spec x sep); [contradiction | reflexivity].
      * destruct Hrest as [[-> ->]|(t & -> & ->)]; [left; auto|].
        right. exists t. auto.
Qed.

Lemma split_dirport_iff (dir_address ip : string) (port : Z) :
  _split_dirport dir_address = Ok (ip, port) <->
  exists p, dir_address = ip +:+ ":" +:+ p
            /\ free_of ":" ip = true /\ free_of ":" p = true
            /\ PyStr.int p = Ok port.
Proof.
  unfold _split_dirport. split.
  - intros H. bind_inv H. destruct a as [ip' p]. bind_inv H.
    injection H as -> ->. exists p.
    destruct (split_max_head ":" 1 dir_address)
      as (x & rest & Hs & Hx & Hrest).
    rewrite Hs in Ha. destruct Hrest as [[-> ->]|(t & -> & ->)];
      [discriminate Ha|].
    destruct (split_max_head ":" 0 t) as (y & rest & Ht & Hy & Hrest).
    rewrite Ht in Ha. destruct Hrest as [[-> ->]|(u & -> & ->)].
    + injection Ha as -> ->. auto.
    + rewrite split_max_zero in Ha. discriminate Ha.
  - intros (p & -> & Hip & Hp & Hint).
    change (ip +:+ ":" +:+ p) with (ip +:+ String ":" p).
    rewrite split_max_app, split_max_free by assumption.
    cbn [PyStr.unpack2]. rewrite bind_Ok, Hint. reflexivity.
Qed.

(** [_split_dirport] succeeds exactly on "ip:port" with one colon and a
    port that [int] reads. *)
Theorem _split_dirport_spec (dir_address ip : string) (port : Z) :
  _split_dirport dir_address = Ok (ip, port) <->
  exists p, dir_address = ip +:+ ":" +:+ p
            /\ free_of ":" ip = true /\ free_of ":" p = true
            /\ PyStr.int p = Ok port.
Proof. apply split_dirport_iff. Qed.

Lemma compute_orport_some (ip : string) (addresses : list string)
  (p : Z) :
  _compute_orport ip addresses = Ok (Some p) ->
  is_valid_ipv4_address ip = true
  /\ exists before port after,
       addresses = before ++ (ip +:+ ":" +:+ port) :: after
       /\ free_of ":" port = true
       /\ PyStr.int port = Ok p
       /\ Forall (fun j => ~ address_on ip j) before.
Proof.
  induction addresses as [|i rest IH]; cbn [_compute_orport];
    [discriminate|].
  intros H. bind_inv H. destruct a as [ipaddr port].
  apply rsplit1_unpack in Ha as [-> Hport].
  destruct (String.eqb_spec ipaddr ip) as [->|Hne]; cbn [andb] in H.
  - destruct (is_valid_ipv4_address ip) eqn:Hv.
    + bind_inv H. injection H as <-. split; [reflexivity|].
      exists [], port, rest. repeat split; auto.
    + destruct (IH H) as [Hv' _]. congruence.
  - destruct (IH H) as (Hv & before & port' & after & -> & Hp & Hi & Hb).
    split; [exact Hv|].
    exists ((ipaddr +:+ String ":" port) :: before), port', after.
    repeat split; auto. constructor; [|exact Hb].
    intros (q & Hq & Hfree). apply Hne.
    assert (Hc : PyStr.cut_last ":" (ipaddr +:+ String ":" port)
                 = Some (ip, q)) by (rewrite Hq; apply cut_last_complete, Hfree).
    rewrite cut_last_complete in Hc by exact Hport. congruence.
Qed.

(** The ORPort is read off the first address on the directory IP, which
    has to be a valid IPv4 address. *)
Theorem _compute_orport_first (ip : string) (addresses : list string)
  (p : Z) :
  _compute_orport ip addresses = Ok (Some p) ->
  is_valid_ipv4_address ip = true
  /\ exists before port after,
       addresses = before ++ (ip +:+ ":" +:+ port) :: after
       /\ free_of ":" port = true
       /\ PyStr.int port = Ok p
       /\ Forall (fun j => ~ address_on ip j) before.
Proof. apply compute_orport_some. Qed.

Lemma _compute_orport_first_witness :
  exists before port after,
    ["9.9.9.9:443"; "1.2.3.4:9001"; "1.2.3.4:9030"]
    = before ++ ("1.2.3.4" +:+ ":" +:+ port) :: after
    /\ PyStr.int port = Ok 9001
    /\ Forall (fun j => ~ address_on "1.2.3.4" j) before.
Proof.
  destruct (_compute_orport_first "1.2.3.4"
              ["9.9.9.9:443"; "1.2.3.4:9001"; "1.2.3.4:9030"] 9001)
    as (_ & before & port & after & H1 & _ & H2 & H3).
  - reflexivity.
  - exists before, port, after. auto.
Defined.

(** Without an address on the directory IP there is no ORPort. *)
Lemma _compute_orport_none (ip : string) (addresses : list string) :
  _compute_orport ip addresses = Ok None ->
  is_valid_ipv4_address ip = true ->
  Forall (fun j => ~ address_on ip j) addresses.
Proof.
  intros H Hv. induction addresses as [|i rest IH]; [constructor|].
  cbn [_compute_orport] in H. bind_inv H. destruct a as [ipaddr port].
  apply rsplit1_unpack in Ha as [-> Hport].
  destruct (String.eqb_spec ipaddr ip) as [->|Hne]; cbn [andb] in H.
  - rewrite Hv in H. bind_inv H. discriminate H.
  - constructor; [|exact (IH H)].
    intros (q & Hq & Hfree). apply Hne.
    assert (Hc : PyStr.cut_last ":" (ipaddr +:+ String ":" port)
                 = Some (ip, q)) by (rewrite Hq; apply cut_last_complete, Hfree).
    rewrite cut_last_complete in Hc by exact Hport. congruence.
Qed.

(** The IPv6 address chosen is a valid literal and, with its port, one
    of the addresses of the list. *)
Lemma ipv6_first_sound (addresses : list string) (a p : string) :
  ipv6_first addresses = Ok (Some (a, p)) ->
  is_valid_ipv6_address a = true /\ In (a +:+ ":" +:+ p) addresses.
Proof.
  induction addresses as [|i rest IH]; cbn [ipv6_first]; [discriminate|].
  intros H. bind_inv H. destruct a0 as [ipaddr port].
  apply rsplit1_unpack in Ha as [-> Hport].
  destruct (is_valid_ipv6_address ipaddr) eqn:Hv.
  - injection H as -> ->. split; [exact Hv | left; reflexivity].
  - destruct (IH H) as [Hv' Hin]. split; [exact Hv' | right; exact Hin].
Qed.

(** What the constructor guarantees of a candidate it builds: the
    fingerprint is the one of the record; the directory address is
    [dirip:dirport] and [dirip] is a valid IPv4 address; the ORPort is the
    port of one of the OR addresses on [dirip]; the OR addresses are those
    of the record, reordered; and an IPv6 address comes with its port, is a
    valid literal and is one of the OR addresses. *)
Theorem Candidate_init_invariants (parse_ts : string -> result Z)
  (d : Details.t) (c : Candidate) :
  Candidate_init parse_ts d = Ok c ->
  Details.fingerprint d = Some (_fpr c)
  /\ (exists p, Data.dir_address (_data c) = dirip c +:+ ":" +:+ p
                /\ PyStr.int p = Ok (dirport c))
  /\ is_valid_ipv4_address (dirip c) = true
  /\ (exists p, In (dirip c +:+ ":" +:+ p) (Data.or_addresses (_data c))
                /\ PyStr.int p = Ok (orport c))
  /\ Permutation (Data.or_addresses (_data c))
       (Data.or_addresses_raw (_data c))
  /\ Details.or_addresses d = Some (Data.or_addresses_raw (_data c))
  /\ match ipv6addr c, ipv6orport c with
     | Some a, Some p =>
         is_valid_ipv6_address a = true
         /\ In (a +:+ ":" +:+ p) (Data.or_addresses (_data c))
     | None, None => True
     | _, _ => False
     end.
Proof.
  unfold Candidate_init. intros H.
  destruct (Details.fingerprint d) as [fpr|]; [|discriminate].
  destruct (Details.nickname d); [|discriminate].
  destruct (Details.last_changed_address_or_port d) as [t|]; [|discriminate].
  destruct (Details.consensus_weight d); [|discriminate].
  destruct (Details.or_addresses d) as [addresses|]; [|discriminate].
  destruct (Details.dir_address d) as [dir|]; [|discriminate].
  cbn in H. destruct (parse_ts t); [|discriminate]. cbn in H.
  destruct (_split_dirport dir) as [[ip port]|] eqn:Es; [|discriminate].
  cbn in H.
  destruct (_compute_orport ip (_stable_sort_or_addresses addresses))
    as [[orp|]|] eqn:Eo; try discriminate.
  cbn in H.
  destruct (_compute_ipv6addr orp (_stable_sort_or_addresses addresses))
    as [v6|] eqn:E6; [|discriminate].
  cbn in H. injection H as <-.
  cbn [_fpr _data dirip dirport orport ipv6addr ipv6orport
       Data.dir_address Data.or_addresses Data.or_addresses_raw].
  apply split_dirport_iff in Es as (p & -> & _ & _ & Hp).
  apply compute_orport_some in Eo
    as (Hv & before & q & after & Hl & _ & Hq & _).
  split; [reflexivity|]. split; [eauto|]. split; [exact Hv|].
  split; [exists q; rewrite Hl; split; [apply in_elt | exact Hq]|].
  split; [apply stable_sort_fixed|].
  split; [reflexivity|].
  destruct v6 as [[a6 p6]|]; cbn [fmap option_fmap option_map fst snd];
    [|exact I].
  apply _compute_ipv6addr_first, ipv6_first_sound in E6. exact E6.
Qed.

Lemma Candidate_init_invariants_witness :
  is_valid_ipv4_address (dirip candidate_v6) = true
  /\ (exists p, In (dirip candidate_v6 +:+ ":" +:+ p)
                  (Data.or_addresses (_data candidate_v6))
                /\ PyStr.int p = Ok (orport candidate_v6)).
Proof.
  destruct (Candidate_init_invariants example_parse_ts relay_v6 candidate_v6)
    as (_ & _ & Hv & Ho & _).
  - vm_compute; reflexivity.
  - split; assumption.
Defined.

(** ** Ages and samples *)

(** The age formula of [_extract_generic_history] is the number of whole
    seconds of the interval, rounded down. *)
Theorem whole_seconds_floor (t : Z) : whole_seconds t = t / 1000000.
Proof.
  unfold whole_seconds, timedelta_microseconds, timedelta_seconds,
    timedelta_days.
  change (10 ^ 6) with 1000000.
  assert (Hq : t mod 86400000000 / 1000000 + t / 86400000000 * 24 * 3600
               = t / 1000000).
  { rewrite (Z.div_mod t 86400000000) at 3 by lia.
    replace (86400000000 * (t / 86400000000) + t mod 86400000000)
      with (t mod 86400000000 + (t / 86400000000 * 86400) * 1000000) by lia.
    rewrite Z.div_add by lia. lia. }
  rewrite Hq. rewrite Z.div_add by lia.
  rewrite Z.div_small by (apply Z.mod_pos_bound; lia). lia.
Qed.

Section Provenance.

Variable parse_ts : string -> result Z.
Variable now : Z.

Lemma fold_samples (P : Sample.t -> Prop) (i : Z) (l : list (option Z)) :
  (forall ts v, In v l ->
     P {| Sample.age := whole_seconds (now - ts);
          Sample.length := whole_seconds i; Sample.value := v |}) ->
  forall st, Forall P (generic_history st) ->
             Forall P (generic_history (fold_left (visit_value now i) l st)).
Proof.
  induction l as [|v l IH]; intros HP st Hst; [exact Hst|].
  cbn [fold_left]. apply IH; [intros ts w Hw; apply HP; right; exact Hw|].
  unfold visit_value. destruct (this_ts st <=? newest st);
    cbn [generic_history]; [|exact Hst].
  apply Forall_app. split; [exact Hst|]. constructor; [|constructor].
  apply HP. left. reflexivity.
Qed.

Lemma visit_period_samples (P : Sample.t -> Prop) (h : bucket)
  (st st' : Z * list Sample.t) :
  (forall age v, In v (values h) ->
     P {| Sample.age := age; Sample.length := interval h;
          Sample.value := v |}) ->
  visit_period parse_ts now st h = Ok st' ->
  Forall P (snd st) -> Forall P (snd st').
Proof.
  intros HP H Hst. unfold visit_period in H. bind_inv H. bind_inv H.
  injection H as <-. cbn [snd]. unfold walk_values.
  apply fold_samples; [|exact Hst].
  intros ts v Hv. rewrite (whole_seconds_floor (interval h * 1000000)).
  rewrite Z.div_mul by lia. apply HP. apply in_rev. exact Hv.
Qed.

Lemma walk_periods_samples (h : history) (ps : list (string * bucket)) :
  (forall p, In p ps -> In p h) ->
  forall st st',
    walk_periods parse_ts now ps st = Ok st' ->
    Forall (sample_of h) (snd st) -> Forall (sample_of h) (snd st').
Proof.
  induction ps as [|[n b] ps IH]; intros Hps st st' H Hst.
  - injection H as <-. exact Hst.
  - cbn [walk_periods snd] in H. bind_inv H.
    apply (IH (fun p Hp => Hps p (or_intror Hp)) a st' H).
    apply (visit_period_samples (sample_of h) b st a); [|exact Ha|exact Hst].
    intros age v Hv. exists n, b. cbn. split; [|auto].
    apply Hps. left. reflexivity.
Qed.

Lemma extract_samples (h : history)
  (samples : list Sample.t) :
  _extract_generic_history parse_ts now h = Ok samples ->
  Forall (sample_of h) samples.
Proof.
  unfold _extract_generic_history. intros H. bind_inv H.
  injection H as <-.
  apply (walk_periods_samples h (sort_periods h)
           (fun p Hp => proj1 (sort_periods_in p h) Hp) (now, []) a Ha).
  constructor.
Qed.

(** Every extracted sample comes from a period of the history: it has
    that period's interval as its length and one of its values as its
    value. *)
Theorem _extract_generic_history_samples (h : history)
  (samples : list Sample.t) :
  _extract_generic_history parse_ts now h = Ok samples ->
  Forall (sample_of h) samples.
Proof. apply extract_samples. Qed.

End Provenance.

Lemma _extract_generic_history_samples_witness :
  Forall (sample_of flag_history)
    [ {| Sample.age := 16200; Sample.length := 3600;
         Sample.value := Some 997 |};
      {| Sample.age := 19800; Sample.length := 3600;
         Sample.value := Some 998 |};
      {| Sample.age := 23400; Sample.length := 3600;
         Sample.value := Some 999 |};
      {| Sample.age := 36000; Sample.length := 14400;
         Sample.value := Some 500 |} ].
Proof.
  apply (_extract_generic_history_samples example_parse_ts noon flag_history).
  vm_compute. reflexivity.
Defined.

(** ** The weighted average *)

Lemma weighted_counted (cfg : Config) (fp : float_ops) (i : Sample.t) :
  counted cfg i = false -> weighted cfg fp i = [].
Proof.
  unfold counted, weighted. rewrite Z.gtb_ltb.
  destruct (Z.leb_spec (Sample.age i)
              (ADDRESS_AND_PORT_STABLE_DAYS cfg * 24 * 3600)) as [Hle|Hgt];
    destruct (Z.ltb_spec (ADDRESS_AND_PORT_STABLE_DAYS cfg * 24 * 3600)
                (Sample.age i)); try lia; try reflexivity.
  destruct (Sample.value i); [discriminate | reflexivity].
Qed.

(** Whatever the arithmetic of floats, samples older than the stability
    window and samples without a value do not enter the average: it is
    the average of the other samples. *)
Theorem _avg_generic_history_counted (cfg : Config) (fp : float_ops)
  (samples : list Sample.t) :
  _avg_generic_history cfg fp samples
  = _avg_generic_history cfg fp (List.filter (counted cfg) samples).
Proof.
  unfold _avg_generic_history.
  assert (H : flat_map (weighted cfg fp) (List.filter (counted cfg) samples)
              = flat_map (weighted cfg fp) samples).
  { induction samples as [|i l IH]; [reflexivity|].
    cbn [List.filter]. destruct (counted cfg i) eqn:E.
    - cbn [flat_map]. rewrite IH. reflexivity.
    - cbn [flat_map]. rewrite (weighted_counted cfg fp i E), IH.
      reflexivity. }
  rewrite H. reflexivity.
Qed.

(** ** Order of the samples *)

Section Ages.

Variable parse_ts : string -> result Z.
Variable now : Z.

Lemma ages_within_snoc (bound : Z) (l : list Sample.t) (x : Sample.t) :
  ages_within bound l -> 0 <= bound <= Sample.age x ->
  ages_within (Sample.age x) (l ++ [x]).
Proof.
  intros [Hs Hb] Hx. split.
  - rewrite map_app. cbn [map].
    rewrite List.Forall_forall in Hb. revert Hs Hb.
    induction l as [|y l IH]; intros Hs Hb; cbn [map app];
      [repeat constructor|].
    apply StronglySorted_inv in Hs as [Hs Hy]. constructor.
    + apply IH; [exact Hs|]. intros z Hz. apply Hb. right. exact Hz.
    + apply Forall_app. split; [exact Hy|]. constructor; [|constructor].
      specialize (Hb y (or_introl eq_refl)). lia.
  - apply Forall_app. split.
    + eapply List.Forall_impl; [|exact Hb]. cbn. intros; lia.
    + constructor; [lia | constructor].
Qed.

Lemma ages_within_weaken (b b' : Z) (l : list Sample.t) :
  ages_within b l -> b <= b' -> ages_within b' l.
Proof.
  intros [Hs Hb] Hle. split; [exact Hs|].
  eapply List.Forall_impl; [|exact Hb]. cbn. intros; lia.
Qed.

Lemma visit_value_ages (i : Z) (st : walk_state) (v : option Z) :
  newest st <= now ->
  ages_within (whole_seconds (now - newest st)) (generic_history st) ->
  newest (visit_value now i st v) <= now
  /\ ages_within (whole_seconds (now - newest (visit_value now i st v)))
       (generic_history (visit_value now i st v)).
Proof.
  intros Hn Ha. unfold visit_value.
  destruct (Z.leb_spec (this_ts st) (newest st)) as [Hle|Hgt];
    cbn [newest generic_history]; [|auto].
  split; [lia|].
  match goal with
  | |- ages_within _ (_ ++ [?x]) =>
      apply (ages_within_snoc (whole_seconds (now - newest st)) _ x Ha)
  end.
  cbn [Sample.age]. rewrite !whole_seconds_floor. split.
  - apply Z.div_pos; lia.
  - apply Z.div_le_mono; lia.
Qed.

Lemma fold_ages (i : Z) (l : list (option Z)) :
  forall st,
    newest st <= now ->
    ages_within (whole_seconds (now - newest st)) (generic_history st) ->
    newest (fold_left (visit_value now i) l st) <= now
    /\ ages_within
         (whole_seconds (now - newest (fold_left (visit_value now i) l st)))
         (generic_history (fold_left (visit_value now i) l st)).
Proof.
  induction l as [|v l IH]; intros st Hn Ha; [auto|].
  cbn [fold_left]. destruct (visit_value_ages i st v Hn Ha) as [Hn' Ha'].
  apply IH; assumption.
Qed.

Lemma walk_periods_ages (ps : list (string * bucket)) :
  forall st st',
    walk_periods parse_ts now ps st = Ok st' ->
    fst st <= now ->
    ages_within (whole_seconds (now - fst st)) (snd st) ->
    fst st' <= now /\ ages_within (whole_seconds (now - fst st')) (snd st').
Proof.
  induction ps as [|[n b] ps IH]; intros st st' H Hn Ha.
  - injection H as <-. auto.
  - cbn [walk_periods snd] in H. bind_inv H.
    unfold visit_period in Ha0. bind_inv Ha0. bind_inv Ha0.
    injection Ha0 as <-. apply (IH _ st' H); cbn [fst snd];
      unfold walk_values; apply fold_ages; assumption.
Qed.

(** The samples come out newest first: their ages never decrease along
    the list, and none is negative. *)
Theorem _extract_generic_history_ages (h : history)
  (samples : list Sample.t) :
  _extract_generic_history parse_ts now h = Ok samples ->
  StronglySorted Z.le (map Sample.age samples)
  /\ Forall (fun i => 0 <= Sample.age i) samples.
Proof.
  unfold _extract_generic_history. intros H. bind_inv H. injection H as <-.
  destruct (walk_periods_ages (sort_periods h) (now, []) a Ha) as [_ [Hs Hb]].
  - cbn. lia.
  - split; constructor.
  - split; [exact Hs|]. eapply List.Forall_impl; [|exact Hb].
    cbn. intros; lia.
Qed.

End Ages.

Lemma _extract_generic_history_ages_witness :
  StronglySorted Z.le [16200; 19800; 23400; 36000].
Proof.
  apply (_extract_generic_history_ages example_parse_ts noon flag_history
           [ {| Sample.age := 16200; Sample.length := 3600;
                Sample.value := Some 997 |};
             {| Sample.age := 19800; Sample.length := 3600;
                Sample.value := Some 998 |};
             {| Sample.age := 23400; Sample.length := 3600;
                Sample.value := Some 999 |};
             {| Sample.age := 36000; Sample.length := 14400;
                Sample.value := Some 500 |} ]).
  vm_compute. reflexivity.
Defined.

(** ** Eligibility *)

Ltac split_if H E :=
  match type of H with
  | (if ?b then _ else _) = _ => destruct b eqn:E
  end.

(** A relay that [is_candidate] accepts has a consensus weight of at
    least 1, a recommended version, an address and ports that did not
    change after the cutoff, uptime fractions at or above the three
    cutoffs and a bad-exit average that was set; its
    [cw_to_bw_factor] divides by a nonzero weight and does not raise. *)
Theorem is_candidate_sound (cfg : Config) (class_created : Z)
  (c : Candidate) :
  is_candidate cfg class_created c = Ok true ->
  1 <= Data.consensus_weight (_data c)
  /\ Data.recommended_version (_data c) = Some true
  /\ Data.last_changed_address_or_port (_data c)
     <= CUTOFF_ADDRESS_AND_PORT_STABLE cfg class_created
  /\ (CUTOFF_RUNNING cfg <= _running c)%Q
  /\ (CUTOFF_V2DIR cfg <= _v2dir c)%Q
  /\ (CUTOFF_GUARD cfg <= _guard c)%Q
  /\ _badexit c <> Unset
  /\ cw_to_bw_factor c
     = Ok (Data.advertised_bandwidth (_data c)
           / Data.consensus_weight (_data c)).
Proof.
  unfold is_candidate. cbv zeta. intros H.
  split_if H E1; [discriminate|].
  split_if H E2; [discriminate|].
  split_if H E3; [discriminate|].
  split_if H E4; [discriminate|].
  bind_inv H.
  split_if H E5; [discriminate|].
  split_if H E6; [discriminate|].
  split_if H E7; [discriminate|].
  split_if H E8; [discriminate|].
  apply Z.ltb_ge in E8. rewrite Z.gtb_ltb in E2. apply Z.ltb_ge in E2.
  apply Qltb_false in E3, E4, E7. apply negb_false_iff in E6.
  repeat split; try assumption.
  - destruct (Data.recommended_version (_data c)) as [[]|];
      [reflexivity | discriminate | discriminate].
  - intros Hu. rewrite Hu in Ha. discriminate.
  - unfold cw_to_bw_factor.
    destruct (Z.eqb_spec (Data.consensus_weight (_data c)) 0); [lia|].
    reflexivity.
Qed.

Lemma is_candidate_sound_witness :
  1 <= Data.consensus_weight (_data eligible_v4).
Proof.
  apply (is_candidate_sound default_config 1427716800000000 eligible_v4).
  vm_compute. reflexivity.
Defined.

(** ** The dict of relays *)

Section Relays.

Variable parse_ts : string -> result Z.
Variable cfg : Config.
Variable fp : float_ops.

Lemma same_relay_refl (c : Candidate) : same_relay c c.
Proof. repeat split. Qed.

Lemma same_relay_trans (a b c : Candidate) :
  same_relay a b -> same_relay b c -> same_relay a c.
Proof.
  unfold same_relay. intros (?&?&?&?&?&?&?) (?&?&?&?&?&?&?).
  repeat split; congruence.
Qed.

Lemma add_uptime_same_relay (c c' : Candidate) (clk : clock)
  (u : Uptime.t) :
  add_uptime parse_ts cfg fp c clk u = Ok c' -> same_relay c c'.
Proof.
  unfold add_uptime. intros H.
  destruct (Uptime.flags u) as [fl|];
    [|injection H as <-; apply same_relay_refl].
  destruct (negb (has_flag_histories fl));
    [injection H as <-; apply same_relay_refl|].
  bind_inv H. bind_inv H. bind_inv H. bind_inv H.
  injection H as <-. repeat split.
Qed.

Lemma _add_uptime_same (self self' : CandidateList) (clk : clock)
  (u : Uptime.t) :
  _add_uptime parse_ts cfg fp self clk u = Ok self' ->
  fallbacks self' = fallbacks self
  /\ forall k,
       match relays self !! k, relays self' !! k with
       | Some c, Some c' => same_relay c c'
       | None, None => True
       | _, _ => False
       end.
Proof.
  unfold _add_uptime. intros H.
  destruct (Uptime.fingerprint u) as [fpr|]; [|discriminate].
  destruct (relays self !! fpr) as [c|] eqn:Ec.
  - bind_inv H. injection H as <-. cbn [relays fallbacks].
    split; [reflexivity|]. intros k.
    destruct (decide (fpr = k)) as [<-|Hne].
    + rewrite Ec, lookup_insert_eq.
      exact (add_uptime_same_relay _ _ _ _ Ha).
    + rewrite lookup_insert_ne by exact Hne.
      destruct (relays self !! k); [apply same_relay_refl | exact I].
  - injection H as <-. split; [reflexivity|]. intros k.
    destruct (relays self !! k); [apply same_relay_refl | exact I].
Qed.

Lemma _add_uptime_docs_same (us : list (clock * Uptime.t)) :
  forall self self',
    _add_uptime_docs parse_ts cfg fp self us = Ok self' ->
    fallbacks self' = fallbacks self
    /\ forall k,
         match relays self !! k, relays self' !! k with
         | Some c, Some c' => same_relay c c'
         | None, None => True
         | _, _ => False
         end.
Proof.
  induction us as [|u us IH]; intros self self' H.
  - injection H as <-. split; [reflexivity|]. intros k.
    destruct (relays self !! k); [apply same_relay_refl | exact I].
  - cbn [_add_uptime_docs] in H. bind_inv H.
    destruct (_add_uptime_same _ _ _ _ Ha) as [Hf Hk].
    destruct (IH _ _ H) as [Hf' Hk'].
    split; [congruence|]. intros k. specialize (Hk k). specialize (Hk' k).
    destruct (relays self !! k), (relays a !! k), (relays self' !! k);
      try contradiction; try exact I.
    eapply same_relay_trans; eassumption.
Qed.

(** The uptime documents neither add nor remove a relay, and leave
    everything of a relay but its uptime fractions as it was: details,
    fingerprint, addresses and ports. *)
Theorem _add_uptimes_keeps_relays (self self' : CandidateList)
  (uptime_doc : option (list (clock * Uptime.t))) :
  _add_uptimes parse_ts cfg fp self uptime_doc = Ok self' ->
  fallbacks self' = fallbacks self
  /\ (forall k c, relays self !! k = Some c ->
        exists c', relays self' !! k = Some c' /\ same_relay c c')
  /\ (forall k c', relays self' !! k = Some c' ->
        exists c, relays self !! k = Some c /\ same_relay c c').
Proof.
  unfold _add_uptimes. destruct uptime_doc as [us|]; [|discriminate].
  intros H. destruct (_add_uptime_docs_same us _ _ H) as [Hf Hk].
  split; [exact Hf|]. split; intros k c Hc; specialize (Hk k);
    rewrite Hc in Hk.
  - destruct (relays self' !! k) as [c'|]; [eauto | contradiction].
  - destruct (relays self !! k) as [c0|]; [eauto | contradiction].
Qed.

Lemma _add_relays_keyed (rs : list Details.t) :
  forall self self',
    _add_relays parse_ts self rs = Ok self' ->
    keyed_by_fingerprint self ->
    keyed_by_fingerprint self' /\ fallbacks self' = fallbacks self.
Proof.
  induction rs as [|r rs IH]; intros self self' H Hk.
  - injection H as <-. auto.
  - cbn [_add_relays] in H. bind_inv H.
    assert (Ha' : keyed_by_fingerprint a /\ fallbacks a = fallbacks self).
    { unfold _add_relay in Ha.
      destruct (Details.dir_address r); [|injection Ha as <-; auto].
      bind_inv Ha. injection Ha as <-. cbn [fallbacks]. split; [|reflexivity].
      intros k c Hc. cbn [relays] in Hc.
      destruct (decide (_fpr a0 = k)) as [<-|Hne].
      - rewrite lookup_insert_eq in Hc. congruence.
      - rewrite lookup_insert_ne in Hc by exact Hne. exact (Hk k c Hc). }
    destruct Ha' as [Hka Hfa]. destruct (IH _ _ H Hka) as [Hk' Hf'].
    split; [exact Hk' | congruence].
Qed.

(** After [add_relays] every relay of the dict sits under its own
    fingerprint, when that held before (as in the empty dict), and the
    list of fallbacks is untouched. *)
Theorem add_relays_keyed (self self' : CandidateList)
  (details_doc : option (list Details.t))
  (uptime_doc : option (list (clock * Uptime.t))) :
  keyed_by_fingerprint self ->
  add_relays parse_ts cfg fp self details_doc uptime_doc = Ok self' ->
  keyed_by_fingerprint self' /\ fallbacks self' = fallbacks self.
Proof.
  intros Hk H. unfold add_relays in H. bind_inv H.
  unfold _add_details in Ha. destruct details_doc as [rs|]; [|discriminate].
  destruct (_add_relays_keyed rs _ _ Ha Hk) as [Hka Hfa].
  unfold _add_uptimes in H. destruct uptime_doc as [us|]; [|discriminate].
  destruct (_add_uptime_docs_same us _ _ H) as [Hf Hs].
  split; [|congruence]. intros k c' Hc'. specialize (Hs k).
  rewrite Hc' in Hs. destruct (relays a !! k) as [c|] eqn:Ec;
    [|contradiction].
  destruct Hs as (_ & Hfpr & _). rewrite Hfpr. exact (Hka k c Ec).
Qed.

End Relays.

Lemma _add_uptimes_keeps_relays_witness :
  exists c', relays ingested_v4 !! "AAAA" = Some c'
             /\ same_relay candidate_v4 c'.
Proof.
  apply (proj1 (proj2 (_add_uptimes_keeps_relays example_parse_ts
                         default_config binary64
                         detailed_v4
                         ingested_v4
                         (Some [(at_noon, uptime_v4)])
                         ltac:(vm_compute; reflexivity)))).
  vm_compute. reflexivity.
Defined.

Lemma add_relays_keyed_witness :
  keyed_by_fingerprint ingested_v4
  /\ fallbacks ingested_v4 = fallbacks empty_list.
Proof.
  apply (add_relays_keyed example_parse_ts default_config binary64
           empty_list
           ingested_v4 (Some [relay_v4]) (Some [(at_noon, uptime_v4)])).
  - intros k c H. cbn in H. rewrite lookup_empty in H. discriminate.
  - vm_compute. reflexivity.
Defined.

(** ** Selection *)

Lemma Forall2_in_left {A B : Type} (P : A -> B -> Prop) (l : list A)
  (k : list B) (x : A) :
  Forall2 P l k -> In x l -> exists y, In y k /\ P x y.
Proof.
  induction 1 as [|a b l k Hab _ IH]; intros Hin; [contradiction|].
  destruct Hin as [->|Hin].
  - exists b. split; [left; reflexivity | exact Hab].
  - destruct (IH Hin) as (y & Hy & Hp). exists y. split; [right|]; assumption.
Qed.

Lemma Forall2_in_right {A B : Type} (P : A -> B -> Prop) (l : list A)
  (k : list B) (y : B) :
  Forall2 P l k -> In y k -> exists x, In x l /\ P x y.
Proof.
  induction 1 as [|a b l k Hab _ IH]; intros Hin; [contradiction|].
  destruct Hin as [->|Hin].
  - exists a. split; [left; reflexivity | exact Hab].
  - destruct (IH Hin) as (x & Hx & Hp). exists x. split; [right|]; assumption.
Qed.

Section Selection.

Variable cfg : Config.
Variable class_created : Z.

Lemma getitem_Ok (self : CandidateList) (k : string) (c : Candidate) :
  CandidateList_getitem self (KeyStr k) = Ok c <-> relays self !! k = Some c.
Proof.
  unfold CandidateList_getitem. destruct (relays self !! k) as [c0|].
  - split; intros H; injection H as <-; reflexivity.
  - split; discriminate.
Qed.

Lemma filter_candidates_spec (self : CandidateList) (ks : list string) :
  forall ks',
    filter_candidates cfg class_created self ks = Ok ks' ->
    forall k, In k ks' <->
      In k ks /\ exists c, relays self !! k = Some c
                           /\ is_candidate cfg class_created c = Ok true.
Proof.
  induction ks as [|x ks IH]; intros ks' H k.
  - injection H as <-. cbn. tauto.
  - cbn [filter_candidates] in H. bind_inv H. bind_inv H. bind_inv H.
    apply getitem_Ok in Ha. specialize (IH _ Ha1 k).
    injection H as <-. destruct a0; cbn [In]; rewrite IH; split.
    + intros [<-|[Hin Hc]]; [split; [left; reflexivity | eauto]|].
      split; [right; exact Hin | exact Hc].
    + intros [[<-|Hin] Hc]; [left; reflexivity | right; auto].
    + intros [Hin Hc]. split; [right; exact Hin | exact Hc].
    + intros [[<-|Hin] Hc]; [|auto].
      destruct Hc as (c & Hc & Hok). rewrite Ha in Hc.
      injection Hc as <-. rewrite Ha0 in Hok. discriminate.
Qed.

Lemma mapM_getitem (self : CandidateList) (ks : list string) :
  forall fb,
    mapM (fun x => CandidateList_getitem self (KeyStr x)) ks = Ok fb ->
    Forall2 (fun k c => relays self !! k = Some c) ks fb.
Proof.
  induction ks as [|x ks IH]; intros fb H.
  - injection H as <-. constructor.
  - cbn [mapM] in H. bind_inv H. bind_inv H. injection H as <-.
    constructor; [apply getitem_Ok; exact Ha | apply IH; exact Ha0].
Qed.

(** When [compute_fallbacks] returns, the dict is unchanged and the
    fallbacks are exactly the relays of the dict that [is_candidate]
    accepts. *)
Theorem compute_fallbacks_spec (self self' : CandidateList) :
  compute_fallbacks cfg class_created self = Ok self' ->
  relays self' = relays self
  /\ forall c, In c (fallbacks self') <->
       exists k, relays self !! k = Some c
                 /\ is_candidate cfg class_created c = Ok true.
Proof.
  unfold compute_fallbacks. intros H. bind_inv H. bind_inv H.
  injection H as <-. cbn [relays fallbacks]. split; [reflexivity|].
  pose proof (filter_candidates_spec self _ _ Ha) as Hks.
  pose proof (mapM_getitem self _ _ Ha0) as Hfb. intros c. split.
  - intros Hin. destruct (Forall2_in_right _ _ _ _ Hfb Hin) as (k & Hk & Hc).
    exists k. split; [exact Hc|]. apply Hks in Hk as [_ (c' & Hc' & Hok)].
    congruence.
  - intros (k & Hc & Hok).
    assert (Hk : In k a).
    { apply Hks. split; [|eauto]. unfold keys.
      apply list_elem_of_In, list_elem_of_fmap. exists (k, c).
      split; [reflexivity|]. apply elem_of_map_to_list. exact Hc. }
    destruct (Forall2_in_left _ _ _ _ Hfb Hk) as (c' & Hin & Hc').
    cbn beta in Hc'. rewrite Hc in Hc'. injection Hc' as <-. exact Hin.
Qed.

End Selection.

Lemma compute_fallbacks_spec_witness :
  relays (with_fallbacks ingested_v4 [eligible_v4]) = relays ingested_v4.
Proof.
  apply (compute_fallbacks_spec default_config 1427716800000000
           ingested_v4 (with_fallbacks ingested_v4 [eligible_v4])).
  vm_compute. reflexivity.
Defined.

(** ** The filter lists *)

Lemma filter_lists_accounting (cfg : Config)
  (whitelist blacklist : list entry) (fb : list Candidate) :
  forall kept n,
    filter_lists cfg whitelist blacklist fb = Ok (kept, n) ->
    (length kept + n = length fb)%nat
    /\ sublist kept fb
    /\ Forall (kept_by_lists cfg whitelist blacklist) kept.
Proof.
  induction fb as [|f fb IH]; intros kept n H.
  - injection H as <- <-. repeat split; constructor.
  - cbn [filter_lists] in H. bind_inv H. bind_inv H. bind_inv H.
    destruct a1 as [kept' n']. destruct (IH _ _ Ha1) as (Hlen & Hsub & Hall).
    cbv zeta in H.
    match type of H with
    | mret (if ?i then _ else _) = _ => destruct i eqn:Ei
    end; injection H as <- <-.
    + split; [cbn [length]; lia|]. split; [constructor; exact Hsub|].
      constructor; [|exact Hall]. exists a, a0.
      split; [exact Ha|]. split; [exact Ha0|].
      destruct a, a0; cbn [andb] in Ei.
      * intros _. apply negb_true_iff. exact Ei.
      * discriminate.
      * discriminate.
      * auto.
    + split; [cbn [length]; lia|]. split; [constructor; exact Hsub|].
      exact Hall.
Qed.

(** When [apply_filter_lists] returns, the relays it keeps and the
    number it reports as excluded add up to the list it started from;
    the kept relays are a sublist of it, in its order, and each of them
    is on the whitelist and, unless the configuration lets the
    whitelist win, not on the blacklist, or is on neither list while
    unlisted relays are included. *)
Theorem apply_filter_lists_accounting (cfg : Config)
  (self self' : CandidateList) (whitelist blacklist : list entry)
  (excluded_count : nat) :
  apply_filter_lists cfg self whitelist blacklist
  = Ok (self', excluded_count) ->
  relays self' = relays self
  /\ (length (fallbacks self') + excluded_count
      = length (fallbacks self))%nat
  /\ sublist (fallbacks self') (fallbacks self)
  /\ Forall (kept_by_lists cfg whitelist blacklist) (fallbacks self').
Proof.
  unfold apply_filter_lists. intros H. bind_inv H. destruct a as [kept n].
  injection H as <- <-. split; [reflexivity|].
  exact (filter_lists_accounting _ _ _ _ _ _ Ha).
Qed.

Lemma apply_filter_lists_accounting_witness :
  (length [eligible_v4] + 0 = length [eligible_v4])%nat.
Proof.
  apply (apply_filter_lists_accounting default_config
           (with_fallbacks ingested_v4 [eligible_v4])
           (with_fallbacks ingested_v4 [eligible_v4])
           [whitelist_v4] [] 0).
  vm_compute. reflexivity.
Defined.

(** A positive answer of the blacklist comes from a line that has the
    fingerprint of the relay, its IPv4 address with a matching port (the
    DirPort when the line has one, else the ORPort when it has one, else
    none), or its IPv6 address with a matching DirPort or none. *)
Theorem is_in_blacklist_sound (self : Candidate) (relaylist : list entry) :
  is_in_blacklist self relaylist = Ok true ->
  exists e, In e relaylist /\ blacklist_match self e.
Proof.
  induction relaylist as [|e rest IH]; [discriminate|].
  cbn [is_in_blacklist]. intros H. bind_inv H. destruct a.
  - clear H IH. exists e. split; [left; reflexivity|].
    assert (Hkeys : forall items,
      (forall kv, In kv items -> In kv e) ->
      blacklist_keys self e items = Ok true -> blacklist_match self e).
    { induction items as [|[key value] items IHi]; [discriminate|].
      intros Hsub Hk. cbn [blacklist_keys] in Hk. bind_inv Hk.
      destruct a; [|apply IHi; [intros kv Hkv; apply Hsub; right; exact Hkv
                               | exact Hk]].
      clear Hk IHi. specialize (Hsub _ (or_introl eq_refl)).
      unfold blacklist_key in Ha0.
      destruct (String.eqb_spec key "id") as [->|_]; cbn [andb] in Ha0.
      - destruct (String.eqb_spec value (_fpr self)) as [->|_];
          [left; exact Hsub|].
        cbn [String.eqb Ascii.eqb Bool.eqb andb] in Ha0.
        rewrite bind_Ok in Ha0. discriminate.
      - bind_inv Ha0. destruct a.
        + right; left.
          destruct (String.eqb_spec key "ipv4") as [->|_];
            cbn [andb] in Ha1; [|discriminate].
          destruct (String.eqb_spec value (dirip self)) as [->|_];
            [|discriminate].
          split; [exact Hsub|].
          destruct (has_key e "dirport") eqn:Hd.
          * left. bind_inv Ha1. injection Ha1 as Heq.
            apply Z.eqb_eq in Heq. subst. assumption.
          * right. destruct (has_key e "orport") eqn:Ho.
            -- left. split; [reflexivity|]. bind_inv Ha1.
               injection Ha1 as Heq. apply Z.eqb_eq in Heq. subst.
               assumption.
            -- right. auto.
        + right; right.
          destruct (String.eqb_spec key "ipv6") as [->|_];
            cbn [andb] in Ha0; [|discriminate].
          destruct (has_ipv6 self); [|discriminate].
          destruct (String.eqb_spec value (ipv6_of self)) as [->|_];
            [|discriminate].
          split; [reflexivity|]. split; [exact Hsub|].
          destruct (has_key e "dirport") eqn:Hd; [|left; reflexivity].
          right. bind_inv Ha0. injection Ha0 as Heq.
          apply Z.eqb_eq in Heq. subst. assumption. }
    exact (Hkeys e (fun kv Hkv => Hkv) Ha).
  - destruct (IH H) as (e0 & Hin & Hm). exists e0.
    split; [right; exact Hin | exact Hm].
Qed.

Lemma is_in_blacklist_sound_witness :
  exists e, In e [[("ipv4", "1.2.3.4"); ("orport", "9001")]]
            /\ blacklist_match candidate_v4 e.
Proof.
  apply (is_in_blacklist_sound candidate_v4
           [[("ipv4", "1.2.3.4"); ("orport", "9001")]]).
  vm_compute. reflexivity.
Defined.

(** A positive answer of the whitelist comes from a line that agrees
    with the relay on fingerprint, IPv4 address, DirPort and ORPort, and
    lists an IPv6 address exactly when the relay has one, the same
    one. *)
Theorem is_in_whitelist_sound (self : Candidate) (relaylist : list entry) :
  is_in_whitelist self relaylist = Ok true ->
  exists e, In e relaylist /\ whitelist_match self e.
Proof. exact (whitelist_loop_sound self relaylist None). Qed.

Lemma is_in_whitelist_sound_witness :
  exists e, In e [whitelist_v4] /\ whitelist_match candidate_v4 e.
Proof.
  apply (is_in_whitelist_sound candidate_v4 [whitelist_v4]).
  vm_compute. reflexivity.
Defined.

Lemma whitelist_loop_skips (self : Candidate) (pre rest : list entry) :
  Forall (fun e' => exists id, entry_get "id" e' = Some id
                               /\ id <> _fpr self) pre ->
  forall ipv6,
    whitelist_loop self ipv6 (pre ++ rest) = whitelist_loop self ipv6 rest.
Proof.
  induction 1 as [|e' pre (id & Hid & Hne) _ IH]; intros ipv6;
    [reflexivity|].
  cbn [app whitelist_loop]. unfold getitem. rewrite Hid, bind_Ok.
  destruct (String.eqb_spec id (_fpr self)) as [Heq|_]; [contradiction|].
  cbn [negb]. apply IH.
Qed.

Lemma whitelist_first_match (self : Candidate) (e : entry)
  (pre rest : list entry) :
  Forall (fun e' => exists id, entry_get "id" e' = Some id
                               /\ id <> _fpr self) pre ->
  whitelist_match self e ->
  is_in_whitelist self (pre ++ e :: rest) = Ok true.
Proof.
  intros Hpre (Hid & Hip & Hdp & Hop & H6 & Hv6).
  unfold is_in_whitelist. rewrite (whitelist_loop_skips _ _ _ Hpre).
  assert (Hgid : getitem e "id" = Ok (_fpr self))
    by (unfold getitem; rewrite Hid; reflexivity).
  assert (Hgip : getitem e "ipv4" = Ok (dirip self))
    by (unfold getitem; rewrite Hip; reflexivity).
  cbn [whitelist_loop]. rewrite Hgid, bind_Ok.
  rewrite String.eqb_refl. cbn [negb].
  rewrite Hgip, bind_Ok.
  rewrite String.eqb_refl. cbn [negb].
  rewrite Hdp, bind_Ok, Z.eqb_refl. cbn [negb].
  rewrite Hop, bind_Ok, Z.eqb_refl. cbn [negb].
  rewrite H6. destruct (has_ipv6 self); cbn [andb negb].
  - unfold getitem. rewrite (Hv6 eq_refl), bind_Ok, String.eqb_refl.
    reflexivity.
  - reflexivity.
Qed.

(** The whitelist answers True for a relay when a line matches it and
    every line before that one carries another fingerprint. *)
Theorem is_in_whitelist_complete (self : Candidate) (e : entry)
  (pre rest : list entry) :
  Forall (fun e' => exists id, entry_get "id" e' = Some id
                               /\ id <> _fpr self) pre ->
  whitelist_match self e ->
  is_in_whitelist self (pre ++ e :: rest) = Ok true.
Proof. apply whitelist_first_match. Qed.

Lemma is_in_whitelist_complete_witness :
  is_in_whitelist candidate_v4
    ([[("id", "BBBB")]] ++ whitelist_v4 :: []) = Ok true.
Proof.
  apply (is_in_whitelist_complete candidate_v4 whitelist_v4
           [[("id", "BBBB")]] []).
  - constructor; [|constructor]. exists "BBBB".
    split; [reflexivity | discriminate].
  - repeat split; try (vm_compute; reflexivity).
    intros H. vm_compute in H. discriminate.
Defined.

(** ** Bandwidth and output *)

Lemma above_min_bw_spec (min_bw : Q) (fb : list Candidate) :
  forall fb',
    above_min_bw min_bw fb = Ok fb' ->
    sublist fb' fb
    /\ Forall (fun f => exists bw,
                 Data.measured_bandwidth (_data f) = Some bw
                 /\ (min_bw <= bw)%Q) fb'
    /\ Forall (fun f => exists bw,
                 Data.measured_bandwidth (_data f) = Some bw
                 /\ ((min_bw <= bw)%Q -> In f fb')) fb.
Proof.
  induction fb as [|f fb IH]; intros fb' H.
  - injection H as <-. repeat split; constructor.
  - cbn [above_min_bw] in H. bind_inv H. bind_inv H.
    destruct (IH _ Ha0) as (Hsub & Hkept & Hall).
    unfold get_measured_bandwidth in Ha.
    destruct (Data.measured_bandwidth (_data f)) as [bw|] eqn:Ebw;
      [|discriminate].
    injection Ha as <-.
    destruct (Qle_bool min_bw bw) eqn:Ele; injection H as <-.
    + apply Qle_bool_iff in Ele. split; [constructor; exact Hsub|].
      split; [constructor; [eauto | exact Hkept]|].
      constructor; [exists bw; split; [exact Ebw | left; reflexivity]|].
      eapply List.Forall_impl; [|exact Hall]. cbn.
      intros g (b & Hb & Hin). exists b. split; [exact Hb|].
      intros Hle. right. auto.
    + split; [constructor; exact Hsub|]. split; [exact Hkept|].
      constructor; [|exact Hall]. exists bw. split; [exact Ebw|].
      intros Hle. apply Qle_bool_iff in Hle. congruence.
Qed.

(** With a minimum bandwidth configured, [remove_low_bandwidth_relays]
    returns only when every fallback has a measured bandwidth; it then
    keeps, in their order, exactly the fallbacks whose measured
    bandwidth is at least the minimum, and leaves the dict alone. *)
Theorem remove_low_bandwidth_relays_spec (cfg : Config)
  (self self' : CandidateList) (min_bw : Q) :
  MIN_BANDWIDTH cfg = Some min_bw ->
  remove_low_bandwidth_relays cfg self = Ok self' ->
  relays self' = relays self
  /\ sublist (fallbacks self') (fallbacks self)
  /\ Forall (fun f => exists bw,
               Data.measured_bandwidth (_data f) = Some bw
               /\ (min_bw <= bw)%Q) (fallbacks self')
  /\ Forall (fun f => exists bw,
               Data.measured_bandwidth (_data f) = Some bw
               /\ ((min_bw <= bw)%Q -> In f (fallbacks self')))
       (fallbacks self).
Proof.
  unfold remove_low_bandwidth_relays. intros -> H. bind_inv H.
  injection H as <-. split; [reflexivity|].
  exact (above_min_bw_spec _ _ _ Ha).
Qed.

Lemma remove_low_bandwidth_relays_spec_witness :
  sublist [] [measured_v4].
Proof.
  apply (remove_low_bandwidth_relays_spec default_config
           (with_fallbacks ingested_v4 [measured_v4])
           (with_fallbacks ingested_v4 [])
           (3145728 # 1)).
  - reflexivity.
  - vm_compute. reflexivity.
Defined.

(** Without a minimum bandwidth nothing is removed and nothing is
    looked up: the call returns the list as it is, also when a fallback
    has no measured bandwidth. *)
Lemma remove_low_bandwidth_relays_no_minimum (cfg : Config)
  (self : CandidateList) :
  MIN_BANDWIDTH cfg = None ->
  remove_low_bandwidth_relays cfg self = Ok self.
Proof. unfold remove_low_bandwidth_relays. intros ->. reflexivity. Qed.

Section Output.

Variable cfg : Config.
Variable dl_speed : string -> Z -> nat -> bool.

Lemma output_fallbacks_prefix (xs : list Candidate) :
  forall active_count max_count,
    printed (output_fallbacks cfg dl_speed xs active_count
         max_count) `prefix_of` xs.
Proof.
  induction xs as [|x xs IH]; intros n m; cbn [output_fallbacks].
  - apply prefix_nil.
  - cbv zeta. cbn [printed flat_map app].
    apply prefix_cons.
    destruct (fallback_consensus_dl_check cfg _ x); [|apply IH].
    destruct (m <=? S n)%nat; [apply prefix_nil|].
    apply IH.
Qed.

Lemma output_fallbacks_accepted (xs : list Candidate) :
  forall active_count max_count,
    Forall (fun c => fallback_consensus_dl_check cfg
                       dl_speed c = true)
      (accepted (output_fallbacks cfg dl_speed xs active_count
         max_count))
    /\ (length (accepted (output_fallbacks cfg dl_speed xs active_count
         max_count))
        <= Nat.max 1 (max_count - active_count))%nat
    /\ ((length (accepted (output_fallbacks cfg dl_speed xs active_count
         max_count)) + active_count
         < max_count)%nat ->
        printed (output_fallbacks cfg dl_speed xs active_count
         max_count) = xs).
Proof.
  induction xs as [|x xs IH]; intros n m; cbn [output_fallbacks].
  - cbn. repeat split; [constructor | lia].
  - cbv zeta. unfold accepted, printed. cbn [flat_map app].
    fold (accepted (if fallback_consensus_dl_check cfg
                         dl_speed x
                    then if (m <=? S n)%nat then []
                         else output_fallbacks cfg dl_speed xs (S n) m
                    else output_fallbacks cfg dl_speed xs n m)).
    fold (printed (if fallback_consensus_dl_check cfg
                        dl_speed x
                   then if (m <=? S n)%nat then []
                        else output_fallbacks cfg dl_speed xs (S n) m
                   else output_fallbacks cfg dl_speed xs n m)).
    destruct (fallback_consensus_dl_check cfg _ x) eqn:Ex.
    + destruct (Nat.leb_spec m (S n)) as [Hle|Hgt].
      * cbn. repeat split; [repeat constructor; exact Ex | lia | lia].
      * destruct (IH (S n) m) as (Hall & Hlen & Hfull). cbn [app length].
        split; [constructor; [exact Ex | exact Hall]|].
        split; [lia|]. intros Hlt. f_equal. apply Hfull. lia.
    + destruct (IH n m) as (Hall & Hlen & Hfull). cbn [app length].
      split; [exact Hall|]. split; [exact Hlen|].
      intros Hlt. f_equal. apply Hfull. exact Hlt.
Qed.

(** The output loop prints the fallbacks in list order and stops early
    only when the maximum is reached: the printed relays are a prefix of
    the list, the accepted ones all passed the download check and number
    at most the maximum still open (at least one), and when fewer than
    the maximum were accepted every fallback was printed. *)
Theorem output_fallbacks_cap (xs : list Candidate)
  (active_count max_count : nat) :
  printed (output_fallbacks cfg dl_speed xs active_count
         max_count) `prefix_of` xs
  /\ Forall (fun c => fallback_consensus_dl_check cfg
                        dl_speed c = true)
       (accepted (output_fallbacks cfg dl_speed xs active_count
         max_count))
  /\ (length (accepted (output_fallbacks cfg dl_speed xs active_count
         max_count))
      <= Nat.max 1 (max_count - active_count))%nat
  /\ ((length (accepted (output_fallbacks cfg dl_speed xs active_count
         max_count)) + active_count
       < max_count)%nat ->
      printed (output_fallbacks cfg dl_speed xs active_count
         max_count) = xs).
Proof.
  split; [apply output_fallbacks_prefix | apply output_fallbacks_accepted].
Qed.

End Output.

(** ** Reading the list files *)

Lemma parse_item_complaints (item : string) (e : entry)
  (cs : list complaint) :
  parse_item (e, cs) item
  = (fst (parse_item (e, []) item), cs ++ snd (parse_item (e, []) item)).
Proof.
  unfold parse_item. cbv zeta.
  destruct (String.length (PyStr.strip item) =? 0)%nat;
    [cbn; rewrite app_nil_r; reflexivity|].
  destruct (PyStr.split "=" (PyStr.strip item)) as [|a [|b [|c l]]].
  - cbn. rewrite ?app_nil_r. reflexivity.
  - cbn [List.length Nat.ltb Nat.leb orb fst snd].
    destruct (_ || _); cbn [fst snd app];
      rewrite ?app_nil_r; reflexivity.
  - cbn. rewrite ?app_nil_r. reflexivity.
  - cbn. rewrite ?app_nil_r. reflexivity.
Qed.

Lemma parse_items_complaints (items : list string) :
  forall e cs,
    fold_left parse_item items (e, cs)
    = (fst (fold_left parse_item items (e, [])),
       cs ++ snd (fold_left parse_item items (e, []))).
Proof.
  induction items as [|i items IH]; intros e cs; cbn [fold_left].
  - cbn. rewrite app_nil_r. reflexivity.
  - rewrite parse_item_complaints.
    destruct (parse_item (e, []) i) as [e' cs'] eqn:E. cbn [fst snd].
    rewrite (IH e' (cs ++ cs')), (IH e' cs'). cbn [fst snd].
    rewrite app_assoc. reflexivity.
Qed.

Lemma parse_line_app (line : string) (es : list entry)
  (cs : list complaint) :
  parse_line (es, cs) line
  = (es ++ fst (parse_line ([], []) line),
     cs ++ snd (parse_line ([], []) line)).
Proof.
  unfold parse_line. cbv beta iota zeta. set (l := PyStr.strip _).
  destruct (String.length l =? 0)%nat;
    [cbn; rewrite !app_nil_r; reflexivity|].
  change (@pair (list (string * string)) (list complaint))
    with (@pair entry (list complaint)).
  rewrite (parse_items_complaints (PyStr.split " " l) [] cs).
  pose (F := fold_left parse_item (PyStr.split " " l)
               (([] : entry), ([] : list complaint))).
  change ((let '(e, c) := (fst F, cs ++ snd F) in (es ++ [e], c))
          = (es ++ fst (let '(e, c) := F in ([] ++ [e], c)),
             cs ++ snd (let '(e, c) := F in ([] ++ [e], c)))).
  clearbody F. destruct F as [e' cs']. reflexivity.
Qed.

Lemma parse_lines_app (ls : list string) :
  forall es cs,
    fold_left parse_line ls (es, cs)
    = (es ++ fst (fold_left parse_line ls ([], [])),
       cs ++ snd (fold_left parse_line ls ([], []))).
Proof.
  induction ls as [|l ls IH]; intros es cs; cbn [fold_left].
  - cbn. rewrite !app_nil_r. reflexivity.
  - rewrite parse_line_app.
    destruct (parse_line ([], []) l) as [es' cs'] eqn:E. cbn [fst snd].
    rewrite (IH (es ++ es') (cs ++ cs')), (IH es' cs').
    cbn [fst snd]. rewrite !app_assoc. reflexivity.
Qed.

(** The lines of a list file are parsed one by one: the entries and the
    complaints of a file are those of its first line followed by those
    of the rest. *)
Theorem load_relaylist_lines (line rest : string) :
  free_of "010" line = true ->
  load_relaylist (Some (line +:+ String "010" rest))
  = (fst (load_relaylist (Some line)) ++ fst (load_relaylist (Some rest)),
     snd (load_relaylist (Some line)) ++ snd (load_relaylist (Some rest))).
Proof.
  intros Hfree. unfold load_relaylist.
  rewrite (split_app _ _ _ Hfree), (split_free _ _ Hfree).
  cbn [fold_left]. destruct (parse_line ([], []) line) as [es cs].
  rewrite (parse_lines_app _ es cs). reflexivity.
Qed.

(** What follows a [#] on a line is ignored. *)
Theorem load_relaylist_comment (line comment rest : string) :
  free_of "#" line = true ->
  free_of "010" line = true ->
  free_of "010" comment = true ->
  load_relaylist (Some (line +:+ String "#" comment +:+ String "010" rest))
  = load_relaylist (Some (line +:+ String "010" rest)).
Proof.
  intros Hhash Hline Hcomment. unfold load_relaylist.
  assert (Hfree : free_of "010" (line +:+ String "#" comment) = true).
  { unfold free_of in *. clear Hhash.
    induction line as [|a line IH];
      rewrite ?append_nil_l, ?append_cons; cbn [PyStr.all] in *.
    - exact Hcomment.
    - apply andb_true_iff in Hline as [-> Hl]. exact (IH Hl). }
  replace (line +:+ String "#" comment +:+ String "010" rest)
    with ((line +:+ String "#" comment) +:+ String "010" rest).
  - rewrite (split_app _ _ _ Hfree), (split_app _ _ _ Hline).
    cbn [fold_left]. f_equal. unfold parse_line.
    rewrite (split_app _ _ _ Hhash), (split_free _ _ Hhash). reflexivity.
  - clear. induction line as [|a line IH];
      rewrite ?append_nil_l, ?append_cons; [reflexivity|].
    rewrite IH. reflexivity.
Qed.

Lemma all_app (p : ascii -> bool) (s t : string) :
  PyStr.all p (s +:+ t) = PyStr.all p s && PyStr.all p t.
Proof.
  induction s as [|a s IH]; rewrite ?append_nil_l, ?append_cons;
    cbn [PyStr.all]; [reflexivity|].
  rewrite IH, andb_assoc. reflexivity.
Qed.

Lemma all_impl (p q : ascii -> bool) (s : string) :
  (forall c, p c = true -> q c = true) ->
  PyStr.all p s = true -> PyStr.all q s = true.
Proof.
  intros Hpq. induction s as [|a s IH]; cbn [PyStr.all]; [reflexivity|].
  intros H. apply andb_true_iff in H as [Ha Hs].
  rewrite (Hpq _ Ha), (IH Hs). reflexivity.
Qed.

Lemma whitespace_is_space (c : ascii) :
  char_in c whitespace = PyStr.is_space c.
Proof. destruct c as [[] [] [] [] [] [] [] []]; reflexivity. Qed.

Lemma cleanse_whitespace_fixed (s : string) :
  PyStr.all (fun c => negb (PyStr.is_space c) || Ascii.eqb c " ") s = true ->
  cleanse_whitespace s = s.
Proof.
  rewrite cleanse_whitespace_map.
  induction s as [|a s IH]; cbn [PyStr.all str_map]; [reflexivity|].
  intros H. apply andb_true_iff in H as [Ha Hs]. rewrite (IH Hs).
  f_equal. rewrite whitespace_is_space.
  destruct (PyStr.is_space a); [|reflexivity].
  cbn [negb orb] in Ha. apply Ascii.eqb_eq in Ha. congruence.
Qed.

Lemma rstrip_stable (s t : string) :
  PyStr.rstrip t = t /\ t <> EmptyString ->
  PyStr.rstrip (s +:+ t) = s +:+ t /\ s +:+ t <> EmptyString.
Proof.
  intros [Ht Hne]. induction s as [|a s [IH IHne]];
    rewrite ?append_nil_l, ?append_cons; [auto|].
  split; [|discriminate]. cbn [PyStr.rstrip]. rewrite IH.
  destruct (s +:+ t); [contradiction | reflexivity].
Qed.

Lemma rstrip_nospace (t : string) :
  PyStr.all (fun c => negb (PyStr.is_space c)) t = true ->
  PyStr.rstrip t = t.
Proof.
  induction t as [|a t IH]; cbn [PyStr.all PyStr.rstrip]; [reflexivity|].
  intros H. apply andb_true_iff in H as [Ha Ht]. rewrite (IH Ht).
  apply negb_true_iff in Ha. rewrite Ha. destruct t; reflexivity.
Qed.

Lemma lstrip_nospace (t : string) :
  PyStr.all (fun c => negb (PyStr.is_space c)) t = true ->
  PyStr.lstrip t = t.
Proof.
  destruct t as [|a t]; cbn [PyStr.all PyStr.lstrip]; [reflexivity|].
  intros H. apply andb_true_iff in H as [Ha _].
  apply negb_true_iff in Ha. rewrite Ha. reflexivity.
Qed.

Lemma strip_nospace (t : string) :
  PyStr.all (fun c => negb (PyStr.is_space c)) t = true ->
  PyStr.strip t = t.
Proof.
  intros H. unfold PyStr.strip.
  rewrite (rstrip_nospace _ H). exact (lstrip_nospace _ H).
Qed.

Lemma plain_inv (s : string) :
  plain s = true ->
  s <> EmptyString
  /\ PyStr.all (fun c => negb (PyStr.is_space c)) s = true
  /\ free_of "#" s = true /\ free_of "=" s = true /\ free_of ":" s = true
  /\ free_of " " s = true /\ free_of "010" s = true.
Proof.
  unfold plain, free_of. intros H. apply andb_true_iff in H as [Hne Hall].
  split; [intros ->; discriminate|].
  repeat split; (eapply all_impl; [|exact Hall]); unfold plain_char;
    intros c Hc; repeat (apply andb_true_iff in Hc as [Hc ?]);
    try assumption.
  - destruct (Ascii.eqb_spec c " ") as [->|]; [discriminate | reflexivity].
  - destruct (Ascii.eqb_spec c "010") as [->|]; [discriminate | reflexivity].
Qed.

Lemma length_nonempty (s : string) :
  s <> EmptyString -> (String.length s =? 0)%nat = false.
Proof. destruct s; [contradiction | reflexivity]. Qed.

(** An item [ip:port] sets the keys [ipv4] and [dirport]. *)
Lemma parse_item_address (ip dp : string) (e : entry)
  (cs : list complaint) :
  plain ip = true -> plain dp = true ->
  parse_item (e, cs) (ip +:+ String ":" dp)
  = (entry_set "dirport" dp (entry_set "ipv4" ip e), cs).
Proof.
  intros Hip Hdp.
  destruct (plain_inv _ Hip) as (Hne & Hsp & _ & Heq & Hcol & _).
  destruct (plain_inv _ Hdp) as (Hne' & Hsp' & _ & Heq' & Hcol' & _).
  assert (Hitem : PyStr.all (fun c => negb (PyStr.is_space c))
                    (ip +:+ String ":" dp) = true).
  { rewrite all_app, Hsp. cbn [PyStr.all andb]. rewrite Hsp'. reflexivity. }
  assert (Hfree : free_of "=" (ip +:+ String ":" dp) = true).
  { unfold free_of in *. rewrite all_app, Heq. cbn [PyStr.all andb].
    rewrite Heq'. reflexivity. }
  unfold parse_item. cbv beta iota zeta.
  rewrite (strip_nospace _ Hitem), length_nonempty.
  - rewrite (split_free _ _ Hfree), (split_app _ _ _ Hcol),
      (split_free _ _ Hcol'). reflexivity.
  - destruct ip; [contradiction | discriminate].
Qed.

(** An item [key=value] sets that key. *)
Lemma parse_item_pair (k v : string) (e : entry) (cs : list complaint) :
  k <> EmptyString ->
  PyStr.all (fun c => negb (PyStr.is_space c)) k = true ->
  free_of "=" k = true ->
  plain v = true ->
  parse_item (e, cs) (k +:+ String "=" v) = (entry_set k v e, cs).
Proof.
  intros Hne Hsp Heq Hv.
  destruct (plain_inv _ Hv) as (Hne' & Hsp' & _ & Heq' & _).
  assert (Hitem : PyStr.all (fun c => negb (PyStr.is_space c))
                    (k +:+ String "=" v) = true).
  { rewrite all_app, Hsp. cbn [PyStr.all andb]. rewrite Hsp'. reflexivity. }
  unfold parse_item. cbv beta iota zeta.
  rewrite (strip_nospace _ Hitem), length_nonempty.
  - rewrite (split_app _ _ _ Heq), (split_free _ _ Heq'). reflexivity.
  - destruct k; [contradiction | discriminate].
Qed.

Lemma relaylist_line_chars (q : ascii -> bool) (ip dp op fpr : string) :
  (forall c, plain_char c = true -> q c = true) ->
  PyStr.all q ": orport=id" = true ->
  plain ip = true -> plain dp = true -> plain op = true ->
  plain fpr = true ->
  PyStr.all q (relaylist_line ip dp op fpr) = true.
Proof.
  intros Hq Hconst Hip Hdp Hop Hfpr. unfold relaylist_line, plain in *.
  apply andb_true_iff in Hip as [_ Hip], Hdp as [_ Hdp], Hop as [_ Hop],
    Hfpr as [_ Hfpr].
  apply (all_impl _ q _ Hq) in Hip, Hdp, Hop, Hfpr.
  cbn [PyStr.all] in Hconst.
  repeat (apply andb_true_iff in Hconst as [?Hc Hconst]).
  rewrite !all_app. cbn [PyStr.all].
  rewrite Hip, Hdp, Hop, Hfpr, ?Hc, ?Hc0, ?Hc1, ?Hc2, ?Hc3, ?Hc4, ?Hc5,
    ?Hc6, ?Hc7, ?Hc8, ?Hc9. reflexivity.
Qed.

Lemma load_relaylist_line_entry (ip dp op fpr : string) :
  plain ip = true -> plain dp = true -> plain op = true ->
  plain fpr = true ->
  load_relaylist (Some (relaylist_line ip dp op fpr))
  = ([[("ipv4", ip); ("dirport", dp); ("orport", op); ("id", fpr)]], []).
Proof.
  intros Hip Hdp Hop Hfpr.
  assert (Hnl : free_of "010" (relaylist_line ip dp op fpr) = true).
  { apply relaylist_line_chars; try assumption; [|reflexivity].
    intros c Hc. unfold plain_char in Hc.
    destruct (Ascii.eqb_spec c "010") as [->|]; [discriminate | reflexivity]. }
  assert (Hhash : free_of "#" (relaylist_line ip dp op fpr) = true).
  { apply relaylist_line_chars; try assumption; [|reflexivity].
    intros c Hc. unfold plain_char in Hc.
    destruct (Ascii.eqb c "#") eqn:E; [|reflexivity].
    apply Ascii.eqb_eq in E. subst c. discriminate. }
  assert (Hws : PyStr.all (fun c => negb (PyStr.is_space c)
                                    || Ascii.eqb c " ")
                  (relaylist_line ip dp op fpr) = true).
  { apply relaylist_line_chars; try assumption; [|reflexivity].
    intros c Hc. unfold plain_char in Hc.
    destruct (PyStr.is_space c); [discriminate | reflexivity]. }
  destruct (plain_inv _ Hip) as (Hne1 & Hsp1 & _ & _ & _ & Hb1 & _).
  destruct (plain_inv _ Hdp) as (Hne2 & Hsp2 & _ & _ & _ & Hb2 & _).
  destruct (plain_inv _ Hop) as (Hne3 & Hsp3 & _ & _ & _ & Hb3 & _).
  destruct (plain_inv _ Hfpr) as (Hne4 & Hsp4 & _ & _ & _ & Hb4 & _).
  unfold load_relaylist. rewrite (split_free _ _ Hnl). cbn [fold_left].
  unfold parse_line. cbv beta iota zeta.
  rewrite (split_free _ _ Hhash). cbn [hd].
  rewrite (cleanse_whitespace_fixed _ Hws).
  assert (Hstrip : PyStr.strip (relaylist_line ip dp op fpr)
                   = relaylist_line ip dp op fpr).
  { unfold PyStr.strip.
    assert (Hr : PyStr.rstrip (relaylist_line ip dp op fpr)
                 = relaylist_line ip dp op fpr).
    { unfold relaylist_line.
      refine (proj1 (_ : _ /\ _ <> EmptyString)).
      repeat apply rstrip_stable. auto using rstrip_nospace. }
    rewrite Hr. unfold relaylist_line. destruct ip as [|a ip];
      [contradiction|].
    rewrite !append_cons. cbn [PyStr.lstrip]. cbn [PyStr.all] in Hsp1.
    apply andb_true_iff in Hsp1 as [Ha _]. apply negb_true_iff in Ha.
    rewrite Ha. reflexivity. }
  rewrite Hstrip, length_nonempty.
  - change (relaylist_line ip dp op fpr)
      with ((ip +:+ String ":" dp)
            +:+ String " " (("orport" +:+ String "=" op)
                            +:+ String " " ("id" +:+ String "=" fpr))).
    assert (F1 : free_of " " (ip +:+ String ":" dp) = true).
    { unfold free_of in *. rewrite all_app, Hb1. cbn [PyStr.all andb].
      rewrite Hb2. reflexivity. }
    assert (F2 : free_of " " ("orport" +:+ String "=" op) = true).
    { unfold free_of in *. rewrite all_app. cbn [PyStr.all andb].
      rewrite Hb3. reflexivity. }
    assert (F3 : free_of " " ("id" +:+ String "=" fpr) = true).
    { unfold free_of in *. rewrite all_app. cbn [PyStr.all andb].
      rewrite Hb4. reflexivity. }
    rewrite (split_app _ _ _ F1), (split_app _ _ _ F2), (split_free _ _ F3).
    cbn [fold_left].
    change (@pair (list (string * string)) (list complaint))
      with (@pair entry (list complaint)).
    rewrite (parse_item_address ip dp [] [] Hip Hdp).
    rewrite (parse_item_pair "orport" op _ [] ltac:(discriminate)
               eq_refl eq_refl Hop).
    rewrite (parse_item_pair "id" fpr _ [] ltac:(discriminate)
               eq_refl eq_refl Hfpr).
    reflexivity.
  - unfold relaylist_line. destruct ip; [contradiction | discriminate].
Qed.

(** A line [ip:dirport orport=port id=fingerprint] of plain tokens is
    read as one entry with exactly the keys [ipv4], [dirport], [orport]
    and [id], and nothing is complained about. *)
Theorem load_relaylist_line (ip dp op fpr : string) :
  plain ip = true -> plain dp = true -> plain op = true ->
  plain fpr = true ->
  exists e,
    load_relaylist (Some (relaylist_line ip dp op fpr)) = ([e], [])
    /\ entry_get "ipv4" e = Some ip
    /\ entry_get "dirport" e = Some dp
    /\ entry_get "orport" e = Some op
    /\ entry_get "id" e = Some fpr
    /\ forall k, ~ In k ["ipv4"; "dirport"; "orport"; "id"] ->
                 entry_get k e = None.
Proof.
  intros Hip Hdp Hop Hfpr.
  exists [("ipv4", ip); ("dirport", dp); ("orport", op); ("id", fpr)].
  split; [exact (load_relaylist_line_entry _ _ _ _ Hip Hdp Hop Hfpr)|].
  do 4 (split; [reflexivity|]).
  intros k Hk. cbn [entry_get].
  destruct (String.eqb_spec k "ipv4") as [->|_];
    [exfalso; apply Hk; cbn; tauto|].
  destruct (String.eqb_spec k "dirport") as [->|_];
    [exfalso; apply Hk; cbn; tauto|].
  destruct (String.eqb_spec k "orport") as [->|_];
    [exfalso; apply Hk; cbn; tauto|].
  destruct (String.eqb_spec k "id") as [->|_];
    [exfalso; apply Hk; cbn; tauto|].
  reflexivity.
Qed.

Lemma load_relaylist_line_witness :
  exists e,
    load_relaylist (Some (relaylist_line "1.2.3.4" "80" "9001" "AAAA"))
    = ([e], [])
    /\ entry_get "ipv4" e = Some "1.2.3.4"
    /\ entry_get "dirport" e = Some "80"
    /\ entry_get "orport" e = Some "9001"
    /\ entry_get "id" e = Some "AAAA"
    /\ forall k, ~ In k ["ipv4"; "dirport"; "orport"; "id"] ->
                 entry_get k e = None.
Proof.
  apply (load_relaylist_line "1.2.3.4" "80" "9001" "AAAA"); reflexivity.
Defined.

Lemma load_relaylist_lines_witness :
  load_relaylist
    (Some ("1.2.3.4:80 id=AAAA" +:+ String "010" "5.6.7.8:443 id=BBBB"))
  = (fst (load_relaylist (Some "1.2.3.4:80 id=AAAA"))
     ++ fst (load_relaylist (Some "5.6.7.8:443 id=BBBB")),
     snd (load_relaylist (Some "1.2.3.4:80 id=AAAA"))
     ++ snd (load_relaylist (Some "5.6.7.8:443 id=BBBB"))).
Proof.
  apply (load_relaylist_lines "1.2.3.4:80 id=AAAA" "5.6.7.8:443 id=BBBB").
  reflexivity.
Defined.

Lemma load_relaylist_comment_witness :
  load_relaylist
    (Some ("1.2.3.4:80 id=AAAA " +:+ String "#" " a relay = good"
           +:+ String "010" "5.6.7.8:443 id=BBBB"))
  = load_relaylist
      (Some ("1.2.3.4:80 id=AAAA " +:+ String "010" "5.6.7.8:443 id=BBBB")).
Proof.
  apply (load_relaylist_comment "1.2.3.4:80 id=AAAA " " a relay = good"
           "5.6.7.8:443 id=BBBB"); reflexivity.
Defined.

(** A whitelist file that holds the line written from a relay without
    IPv6 address (its IPv4 address, its two ports as numerals [int]
    reads back, its fingerprint) matches that relay. *)
Theorem whitelist_round_trip (self : Candidate) (dp op : string) :
  has_ipv6 self = false ->
  plain (dirip self) = true -> plain (_fpr self) = true ->
  plain dp = true -> plain op = true ->
  PyStr.int dp = Ok (dirport self) -> PyStr.int op = Ok (orport self) ->
  is_in_whitelist self
    (fst (load_relaylist
            (Some (relaylist_line (dirip self) dp op (_fpr self)))))
  = Ok true.
Proof.
  intros H6 Hip Hfpr Hdp Hop Hdpz Hopz.
  rewrite (load_relaylist_line_entry _ _ _ _ Hip Hdp Hop Hfpr). cbn [fst].
  apply (whitelist_first_match self _ [] []); [constructor|].
  unfold whitelist_match, getitem, has_key. cbn [entry_get String.eqb
    Ascii.eqb Bool.eqb]. rewrite !bind_Ok, H6.
  repeat split; try assumption. discriminate.
Qed.

Lemma whitelist_round_trip_witness :
  is_in_whitelist candidate_v4
    (fst (load_relaylist
            (Some (relaylist_line "1.2.3.4" "80" "9001" "AAAA"))))
  = Ok true.
Proof.
  apply (whitelist_round_trip candidate_v4 "80" "9001"); reflexivity.
Defined.

(** ** The download check *)

(** A relay passes the download check exactly when, for the IPv4 address
    if IPv4 checks are on and for the IPv6 address if the relay has one
    and IPv6 checks are on, the first download did not fail or retries
    are on and the second did not fail. *)
Theorem fallback_consensus_dl_check_spec (cfg : Config)
  (fallback_consensus_dl_speed : string -> Z -> nat -> bool)
  (self : Candidate) :
  fallback_consensus_dl_check cfg fallback_consensus_dl_speed self = true
  <->
  (PERFORM_IPV4_DIRPORT_CHECKS cfg = true ->
   fallback_consensus_dl_speed (dirip self) (dirport self) 0%nat = false
   \/ (CONSENSUS_DOWNLOAD_RETRY cfg = true
       /\ fallback_consensus_dl_speed (dirip self) (dirport self) 1%nat
          = false))
  /\ (PERFORM_IPV6_DIRPORT_CHECKS cfg = true ->
      forall a, ipv6addr self = Some a ->
        fallback_consensus_dl_speed a (dirport self) 0%nat = false
        \/ (CONSENSUS_DOWNLOAD_RETRY cfg = true
            /\ fallback_consensus_dl_speed a (dirport self) 1%nat = false)).
Proof.
  unfold fallback_consensus_dl_check. cbv zeta.
  destruct (PERFORM_IPV4_DIRPORT_CHECKS cfg),
    (PERFORM_IPV6_DIRPORT_CHECKS cfg), (CONSENSUS_DOWNLOAD_RETRY cfg),
    (ipv6addr self) as [a|];
    destruct
      (fallback_consensus_dl_speed (dirip self) (dirport self) 0%nat) eqn:E40,
      (fallback_consensus_dl_speed (dirip self) (dirport self) 1%nat) eqn:E41;
    try (destruct
           (fallback_consensus_dl_speed a (dirport self) 0%nat) eqn:E60,
           (fallback_consensus_dl_speed a (dirport self) 1%nat) eqn:E61);
    cbn [andb negb];
    (split;
     [ intros H; try discriminate H;
       (split;
        [ intros Hp; try discriminate Hp
        | intros Hp; try discriminate Hp;
          intros a0 Ha0; try discriminate Ha0;
          try (injection Ha0 as <-); rewrite ?E60, ?E61 ]);
       intuition congruence
     | intros [H4 H6];
       try (specialize (H4 eq_refl));
       try (specialize (H6 eq_refl a eq_refl));
       try reflexivity; intuition congruence ]).
Qed.
